(** * JetStream client core of nats.go (js.go): a shallow embedding

    The development follows [src/js.go]: the publish acknowledger
    ([PublishMsg]), the consumer binder ([subscribe]), the pull driver
    ([Poll]) and the ack codec ([checkReply], [ackReply], [MetaData],
    [parseNum]).  Go strings and byte slices are [string]s (sequences of
    bytes), Go [int]/[int64]/[uint64] values are [Z] with the 64-bit
    wrap-around written out, nil-able pointers are [option]s, and a Go
    [(T, error)] result is a [res T].  The transport ([nc.Request],
    [nc.Publish], ...) and [encoding/json] are parameters of the model; a
    run threads the trace of transport calls it made. *)

From Stdlib Require Import ZArith Lia List Ascii String DecimalString.
From Stdlib Require Import DecimalN.
From stdpp Require Import base decidable option strings list gmap.

Local Open Scope string_scope.
Local Open Scope Z_scope.

(** ** Errors *)

(** Modelled from the spec: the error values are declared in nats.go,
    which is not among the sources; these are the ones js.go returns or
    compares with, by the names js.go uses, together with the values made
    by [errors.New] and any other error value handed back by the transport
    or by [encoding/json]. *)
Inductive error : Type :=
  | ErrNoResponders
  | ErrJetStreamNotEnabled
  | ErrNoStreamResponse
  | ErrInvalidJSAck
  | ErrContextAndTimeout
  | ErrPullModeNotAllowed
  | ErrDirectModeRequired
  | ErrSubjectMismatch
  | ErrNoMatchingStream
  | ErrTypeSubscription
  | ErrMsgNoReply
  | ErrMsgNotBound
  | ErrNotJSMessage
  | ErrStreamNameRequired
  | errors_New (text : string)
  | ErrForeign (text : string).

#[global] Instance error_eq_dec : EqDecision error.
Proof. solve_decision. Defined.

(** A Go result [(T, error)]: exactly one side is meaningful in js.go. *)
Inductive res (T : Type) : Type :=
  | OK (t : T)
  | Fail (e : error).
Arguments OK {T} t.
Arguments Fail {T} e.

(** ** 64-bit integers *)

Module Int64.
Definition modulus : Z := 2 ^ 64.
Definition half : Z := 2 ^ 63.

(** Wrap-around into the [int64] range. *)
Definition wrap (z : Z) : Z := (z + half) mod modulus - half.
Definition add (a b : Z) : Z := wrap (a + b).
Definition mul (a b : Z) : Z := wrap (a * b).

(** The conversion [uint64(x)] of an [int64]. *)
Definition to_uint64 (z : Z) : Z := z mod modulus.

Definition max_uint64 : Z := modulus - 1.
End Int64.

(** ** The ack codec: [parseNum] *)

Definition asciiZero : Z := 48.
Definition asciiNine : Z := 57.

Definition byte_val (c : ascii) : Z := Z.of_nat (nat_of_ascii c).

(** The loop [for _, dec := range d] of [parseNum].  Go ranges over the
    runes of [d]; a rune below 128 is the byte itself, and a byte of 128
    or more starts a rune of value at least 128 (or the replacement rune
    65533), which fails the digit test exactly as the byte does, so the
    loop is written over the bytes. *)
Fixpoint parseNum_loop (d : string) (n : Z) : Z :=
  match d with
  | EmptyString => n
  | String c d' =>
      let dec := byte_val c in
      if (dec <? asciiZero) || (asciiNine <? dec) then -1
      else parseNum_loop d' (Int64.add (Int64.mul n 10) (dec - asciiZero))
  end.

Definition parseNum (d : string) : Z :=
  if (String.length d =? 0)%nat then -1 else parseNum_loop d 0.

(** ** The ack codec: tokenizing a reply subject *)

Definition btsep : ascii := "."%char.
Definition expectedTokens : nat := 9.

(** [subject[from:to]] *)
Definition slice (subject : string) (from to : nat) : string :=
  substring from (to - from) subject.

(** The loop [for i := 0; i < len(subject); i++] of [MetaData]: [fuel]
    is the number of iterations left, that is [len(subject) - i]. *)
Fixpoint token_loop (subject : string) (fuel i start : nat)
    (tokens : list string) : nat * list string :=
  match fuel with
  | O => (start, tokens)
  | S fuel' =>
      if decide (String.get i subject = Some btsep)
      then token_loop subject fuel' (S i) (S i)
             (tokens ++ [slice subject start i])%list
      else token_loop subject fuel' (S i) start tokens
  end.

Definition tokenize (subject : string) : list string :=
  let '(start, tokens) :=
    token_loop subject (String.length subject) 0 0 [] in
  (tokens ++ [slice subject start (String.length subject)])%list.

(** ** What the ack codec is measured against *)

(** Splitting on the separator, by structural recursion: [cur] is the
    token being read. *)
Fixpoint split_from (cur rest : string) : list string :=
  match rest with
  | EmptyString => [cur]
  | String c rest' =>
      if decide (c = btsep) then cur :: split_from EmptyString rest'
      else split_from (cur ++ String c EmptyString) rest'
  end.

Fixpoint dot_free (t : string) : bool :=
  match t with
  | EmptyString => true
  | String c t' => negb (bool_decide (c = btsep)) && dot_free t'
  end.

(** The tokens put back together, one separator between neighbours. *)
Definition join_dots (ts : list string) : string :=
  String.concat (String btsep EmptyString) ts.

Definition is_digit (c : ascii) : bool :=
  (asciiZero <=? byte_val c) && (byte_val c <=? asciiNine).

Fixpoint all_digits (d : string) : bool :=
  match d with
  | EmptyString => true
  | String c d' => is_digit c && all_digits d'
  end.

(** The number a string of decimal digits denotes, continuing from [n]. *)
Fixpoint decimal_from (d : string) (n : Z) : Z :=
  match d with
  | EmptyString => n
  | String c d' => decimal_from d' (n * 10 + (byte_val c - asciiZero))
  end.

Definition decimal (d : string) : Z := decimal_from d 0.

(** A token that is empty or holds a byte that is not a digit. *)
Definition unparseable (d : string) : Prop :=
  d = EmptyString \/ all_digits d = false.

Definition unparseableb (d : string) : bool :=
  bool_decide (d = EmptyString) || negb (all_digits d).

(** What a [uint64] field of the metadata holds for a token: the number
    its digits denote, modulo 2^64, and for a token that does not parse
    the conversion of -1, that is 2^64 - 1. *)
Definition decoded_count (t : string) : Z :=
  if unparseableb t then Int64.max_uint64
  else decimal t mod Int64.modulus.

(** What the timestamp holds for a token, in nanoseconds from the epoch:
    the number wrapped into the [int64] range, and -1 for a token that
    does not parse. *)
Definition decoded_time (t : string) : Z :=
  if unparseableb t then -1 else Int64.wrap (decimal t).

(** ** Data model *)

(** [time.Duration] and [time.Time]: nanoseconds, the latter counted from
    the Unix epoch, so that [time.Unix(0, n)] is [n]. *)
Definition Duration : Type := Z.
Definition Time : Type := Z.

Definition _EMPTY_ : string := EmptyString.

(** The double-quote byte. *)
Definition dquote : string := String (ascii_of_nat 34) EmptyString.

(** The JetStream context: [js.nc] is the transport the model is
    parameterised by (see [Conn] below). *)
Record js : Type := mk_js {
  js_pre : string;
  js_wait : Duration;
  js_direct : bool
}.

(** Modelled from the spec: [jsSub], the consumer binding a subscription
    carries (stream, consumer name, deliver subject, pull batch), is
    declared in nats.go; its fields are the ones js.go reads and writes. *)
Record jsSub : Type := mk_jsSub {
  jsi_js : js;
  jsi_consumer : string;
  jsi_stream : string;
  jsi_deliver : string;
  jsi_pull : Z
}.

(** A message handler: the caller's callback, or the wrapper
    [func(m *Msg) { ocb(m); m.Ack() }] that [subscribe] installs. *)
Inductive MsgHandler : Type :=
  | UserHandler (id : nat)
  | AckAfter (ocb : MsgHandler).

(** A [chan *Msg], by identity. *)
Definition Chan : Type := nat.

(** Modelled from the spec: [Subscription] is declared in nats.go; these
    are the subject and queue it is made on, its delivery target, and the
    binding [jsi], nil on a subscription made outside JetStream. *)
Record Subscription : Type := mk_Subscription {
  sub_Subject : string;
  sub_Queue : string;
  sub_mcb : option MsgHandler;
  sub_mch : option Chan;
  sub_isSync : bool;
  sub_jsi : option jsSub
}.

(** [http.Header] *)
Abbreviation Header := (gmap string (list string)).

(** Modelled from the spec: [Msg] is declared in nats.go; [msg_Sub] holds
    the state of the subscription the message points to at the time of
    the call. *)
Record Msg : Type := mk_Msg {
  msg_Subject : string;
  msg_Reply : string;
  msg_Header : option Header;
  msg_Data : string;
  msg_Sub : option Subscription
}.

(** [context.Context], by identity. *)
Definition Context : Type := nat.

(** The policies of package [jetstream], whose constants the second
    revision of the file declares in place; [AckPolicy_99] is the value
    [jetstream.AckPolicy(99)] that js.go names [ackPolicyNotSet]. *)
Module jetstream.
Inductive DeliverPolicy : Type :=
  | DeliverAll | DeliverLast | DeliverNew | StartSequence | StartTime.

Inductive AckPolicy : Type :=
  | AckNone | AckAll | AckExplicit | AckPolicy_99.

Inductive ReplayPolicy : Type :=
  | ReplayInstant | ReplayOriginal.
End jetstream.

Definition ackPolicyNotSet : jetstream.AckPolicy := jetstream.AckPolicy_99.

Record ConsumerConfig : Type := mk_ConsumerConfig {
  cfg_Durable : string;
  cfg_DeliverSubject : string;
  cfg_DeliverPolicy : jetstream.DeliverPolicy;
  cfg_OptStartSeq : Z;
  cfg_OptStartTime : option Time;
  cfg_AckPolicy : jetstream.AckPolicy;
  cfg_AckWait : Duration;
  cfg_MaxDeliver : Z;
  cfg_FilterSubject : string;
  cfg_ReplayPolicy : jetstream.ReplayPolicy;
  cfg_RateLimit : Z;
  cfg_SampleFrequency : string;
  cfg_MaxWaiting : Z;
  cfg_MaxAckPending : Z
}.

#[global] Instance AckPolicy_eq_dec : EqDecision jetstream.AckPolicy.
Proof. solve_decision. Defined.

Record SequencePair : Type := mk_SequencePair {
  sp_Consumer : Z;
  sp_Stream : Z
}.

Record ConsumerInfo : Type := mk_ConsumerInfo {
  ci_Stream : string;
  ci_Name : string;
  ci_Created : Time;
  ci_Config : ConsumerConfig;
  ci_Delivered : SequencePair;
  ci_AckFloor : SequencePair;
  ci_NumAckPending : Z;
  ci_NumRedelivered : Z;
  ci_NumWaiting : Z;
  ci_NumPending : Z
}.

Record ApiError : Type := mk_ApiError {
  err_Code : Z;
  err_Description : string
}.

Record ApiResponse : Type := mk_ApiResponse {
  api_Type : string;
  api_Error : option ApiError
}.

(** [JSApiConsumerResponse]: the embedded [*ConsumerInfo] may be nil. *)
Record JSApiConsumerResponse : Type := mk_JSApiConsumerResponse {
  cr_ApiResponse : ApiResponse;
  cr_ConsumerInfo : option ConsumerInfo
}.

Record JSApiCreateConsumerRequest : Type := mk_JSApiCreateConsumerRequest {
  ccr_Stream : string;
  ccr_Config : ConsumerConfig
}.

Record PubAck : Type := mk_PubAck {
  pa_Stream : string;
  pa_Sequence : Z;
  pa_Duplicate : bool
}.

(** [PubAckResponse]: the embedded [*PubAck] may be nil. *)
Record PubAckResponse : Type := mk_PubAckResponse {
  par_ApiResponse : ApiResponse;
  par_PubAck : option PubAck
}.

Record streamRequest : Type := mk_streamRequest {
  sr_Subject : string
}.

Record ApiPaged : Type := mk_ApiPaged {
  pg_Total : Z;
  pg_Offset : Z;
  pg_Limit : Z
}.

Record JSApiStreamNamesResponse : Type := mk_JSApiStreamNamesResponse {
  snr_ApiResponse : ApiResponse;
  snr_ApiPaged : ApiPaged;
  snr_Streams : list string
}.

Record NextRequest : Type := mk_NextRequest {
  nr_Expires : option Time;
  nr_Batch : Z;
  nr_NoWait : bool
}.

Record MsgMetaData : Type := mk_MsgMetaData {
  md_Consumer : Z;
  md_Stream : Z;
  md_Delivered : Z;
  md_Pending : Z;
  md_Timestamp : Time
}.

(** ** Transport calls and runs *)

(** One call into the transport, with its arguments. *)
Inductive Event : Type :=
  | EvRequest (subj data : string) (timeout : Duration)
  | EvRequestMsg (m : Msg) (timeout : Duration)
  | EvRequestMsgWithContext (ctx : option Context) (m : Msg)
  | EvPublish (subj data : string)
  | EvPublishRequest (subj reply data : string)
  | EvSubscribe (subj queue : string) (cb : option MsgHandler)
      (ch : option Chan) (isSync : bool)
  | EvUnsubscribe (sub : Subscription)
  | EvNewInbox.

Definition Trace : Type := list Event.

(** Modelled from the spec: the messaging substrate (nats.go, not part of
    the sources at hand) offers [request], [publish], [subscribe],
    [unsubscribe] and a no-responders error.  What a call answers is a
    function of the calls made so far and of its arguments, which puts no
    constraint on the peer. *)
Record Conn : Type := mk_Conn {
  conn_Request : Trace -> string -> string -> Duration -> res Msg;
  conn_RequestMsg : Trace -> Msg -> Duration -> res Msg;
  conn_RequestMsgWithContext : Trace -> option Context -> Msg -> res Msg;
  conn_Publish : Trace -> string -> string -> option error;
  conn_PublishRequest : Trace -> string -> string -> string -> option error;
  conn_subscribe : Trace -> string -> string -> option error;
  conn_NewInbox : Trace -> string;
  conn_PendingLimits : Subscription -> Z
}.

(** [encoding/json] on the wire structures of js.go. *)
Record JSON : Type := mk_JSON {
  Unmarshal_PubAckResponse : string -> res PubAckResponse;
  Unmarshal_ConsumerResponse : string -> res JSApiConsumerResponse;
  Unmarshal_StreamNamesResponse : string -> res JSApiStreamNamesResponse;
  Marshal_CreateConsumerRequest : JSApiCreateConsumerRequest -> res string;
  Marshal_streamRequest : streamRequest -> res string;
  Marshal_NextRequest : NextRequest -> res string
}.

(** A run: from the calls made so far to a value (or [None] when the Go
    code panics on a nil dereference) and the calls made after it. *)
Definition M (A : Type) : Type := Trace -> option A * Trace.

Definition ret {A : Type} (a : A) : M A := fun tr => (Some a, tr).

Definition panic {A : Type} : M A := fun tr => (None, tr).

Definition bind {A B : Type} (m : M A) (k : A -> M B) : M B :=
  fun tr =>
    match m tr with
    | (Some a, tr') => k a tr'
    | (None, tr') => (None, tr')
    end.

Notation "'let*' x ':=' m 'in' k" := (bind m (fun x => k))
  (at level 10, x name, m at level 100, k at level 200).

(** A transport call: answered from the calls made so far, then logged. *)
Definition call {A : Type} (ev : Event) (answer : Trace -> A) : M A :=
  fun tr => (Some (answer tr), (tr ++ [ev])%list).

Definition isNil {A : Type} (o : option A) : bool :=
  match o with None => true | Some _ => false end.

Definition notNil {A : Type} (o : option A) : bool := negb (isNil o).

Definition str_eqb (a b : string) : bool := bool_decide (a = b).
Definition str_neqb (a b : string) : bool := negb (str_eqb a b).

(** ** Subject router *)

Section WithTransport.

Variable nc : Conn.
Variable json : JSON.

Definition apiSubj (js : js) (subj : string) : string :=
  if str_eqb (js_pre js) _EMPTY_ then subj
  else js_pre js ++ subj.

Definition JSApiStreams : string := "STREAM.NAMES".

(** [fmt.Sprintf] on the subject templates. *)
Definition JSApiConsumerCreateT (stream : string) : string :=
  "CONSUMER.CREATE." ++ stream.
Definition JSApiDurableCreateT (stream durable : string) : string :=
  "CONSUMER.DURABLE.CREATE." ++ stream ++ "." ++ durable.
Definition JSApiConsumerInfoT (stream consumer : string) : string :=
  "CONSUMER.INFO." ++ stream ++ "." ++ consumer.
Definition JSApiRequestNextT (stream consumer : string) : string :=
  "CONSUMER.MSG.NEXT." ++ stream ++ "." ++ consumer.

(** ** Transport calls *)

Definition nc_Request (subj data : string) (timeout : Duration) : M (res Msg) :=
  call (EvRequest subj data timeout)
       (fun tr => conn_Request nc tr subj data timeout).

Definition nc_RequestMsg (m : Msg) (timeout : Duration) : M (res Msg) :=
  call (EvRequestMsg m timeout) (fun tr => conn_RequestMsg nc tr m timeout).

Definition nc_RequestMsgWithContext (ctx : option Context) (m : Msg)
    : M (res Msg) :=
  call (EvRequestMsgWithContext ctx m)
       (fun tr => conn_RequestMsgWithContext nc tr ctx m).

Definition nc_Publish (subj data : string) : M (option error) :=
  call (EvPublish subj data) (fun tr => conn_Publish nc tr subj data).

Definition nc_PublishRequest (subj reply data : string) : M (option error) :=
  call (EvPublishRequest subj reply data)
       (fun tr => conn_PublishRequest nc tr subj reply data).

(** Modelled from the spec: [NewInbox()] of nats.go generates a unique
    inbox subject. *)
Definition NewInbox : M string :=
  call EvNewInbox (fun tr => conn_NewInbox nc tr).

(** Modelled from the spec: [nc.subscribe(subj, queue, cb, ch, isSync,
    jsi)] of nats.go establishes the local subscription, with its queue
    group and delivery target, or fails; the subscription it returns
    carries the arguments it was given. *)
Definition nc_subscribe (subj queue : string) (cb : option MsgHandler)
    (ch : option Chan) (isSync : bool) (jsi : jsSub) : M (res Subscription) :=
  call (EvSubscribe subj queue cb ch isSync)
       (fun tr =>
          match conn_subscribe nc tr subj queue with
          | Some e => Fail e
          | None => OK (mk_Subscription subj queue cb ch isSync (Some jsi))
          end).

(** Modelled from the spec: [sub.Unsubscribe()] of nats.go; its result
    is dropped by every caller in js.go. *)
Definition Unsubscribe (sub : Subscription) : M unit :=
  call (EvUnsubscribe sub) (fun _ => tt).

(** ** Ack codec *)

Definition AckAck : string := "+ACK".
Definition AckNak : string := "-NAK".
Definition AckProgress : string := "+WPI".
Definition AckNext : string := "+NXT".
Definition AckTerm : string := "+TERM".

(** The byte literal of [ackReply] asking for one more message: +NXT,
    a space, and the JSON object with the one field batch set to 1. *)
Definition NextBatch1 : string :=
  "+NXT {" ++ dquote ++ "batch" ++ dquote ++ ":1}".

Definition bytes_Equal (a b : string) : bool := str_eqb a b.

(** [checkReply]; the receiver may be nil, and [m.Reply] is read first. *)
Definition checkReply (m : option Msg) : option (res (js * bool)) :=
  match m with
  | None => None
  | Some msg =>
      if str_eqb (msg_Reply msg) _EMPTY_ then Some (Fail ErrMsgNoReply)
      else if isNil m || isNil (msg_Sub msg) then Some (Fail ErrMsgNotBound)
      else
        match msg_Sub msg with
        | None => None
        | Some sub =>
            match sub_jsi sub with
            | None => Some (Fail ErrNotJSMessage)
            | Some jsi =>
                let js := jsi_js jsi in
                let isPullMode := 0 <? jsi_pull jsi in
                Some (OK (js, isPullMode))
            end
        end
  end.

(** The error side of a result whose value is dropped: [_, err = ...]. *)
Definition res_err {T : Type} (r : res T) : option error :=
  match r with
  | OK _ => None
  | Fail e => Some e
  end.

Definition lift {A : Type} (o : option A) : M A :=
  match o with
  | Some a => ret a
  | None => panic
  end.

(** [ackReply] handles all acks. *)
Definition ackReply (m : option Msg) (ackType : string) (sync : bool)
    : M (option error) :=
  let* r := lift (checkReply m) in
  match r with
  | Fail err => ret (Some err)
  | OK (js, isPullMode) =>
      let* msg := lift m in
      if isPullMode then
        let* sub := lift (msg_Sub msg) in
        let* err :=
          (if bytes_Equal ackType AckAck then
             nc_PublishRequest (msg_Reply msg) (sub_Subject sub) AckNext
           else if bytes_Equal ackType AckNak || bytes_Equal ackType AckTerm then
             nc_PublishRequest (msg_Reply msg) (sub_Subject sub)
               NextBatch1
           else ret None) in
        if sync && isNil err then
          let* r := nc_Request (msg_Reply msg) _EMPTY_ (js_wait js) in
          ret (res_err r)
        else ret err
      else if sync then
        let* r := nc_Request (msg_Reply msg) ackType (js_wait js) in
        ret (res_err r)
      else nc_Publish (msg_Reply msg) ackType
  end.

Definition Ack (m : option Msg) : M (option error) := ackReply m AckAck false.
Definition AckSync (m : option Msg) : M (option error) := ackReply m AckAck true.
Definition Nak (m : option Msg) : M (option error) := ackReply m AckNak false.
Definition Term (m : option Msg) : M (option error) := ackReply m AckTerm false.
Definition InProgress (m : option Msg) : M (option error) :=
  ackReply m AckProgress false.

(** [tokens[i]], read only after the length test. *)
Definition token (tokens : list string) (i : nat) : string :=
  nth i tokens _EMPTY_.

Definition MetaData (m : option Msg) : option (res MsgMetaData) :=
  match checkReply m with
  | None => None
  | Some (Fail err) => Some (Fail err)
  | Some (OK _) =>
      match m with
      | None => None
      | Some msg =>
          let subject := msg_Reply msg in
          let tokens := tokenize subject in
          if negb (length tokens =? expectedTokens)%nat
             || str_neqb (token tokens 0) "$JS"
             || str_neqb (token tokens 1) "ACK"
          then Some (Fail ErrNotJSMessage)
          else
            Some (OK {|
              md_Delivered := Int64.to_uint64 (parseNum (token tokens 4));
              md_Stream := Int64.to_uint64 (parseNum (token tokens 5));
              md_Consumer := Int64.to_uint64 (parseNum (token tokens 6));
              md_Timestamp := parseNum (token tokens 7);
              md_Pending := Int64.to_uint64 (parseNum (token tokens 8))
            |})
      end
  end.

(** ** Pull driver *)

Definition Poll (sub : Subscription) : M (option error) :=
  match sub_jsi sub with
  | None => ret (Some ErrTypeSubscription)
  | Some jsi =>
      if str_neqb (jsi_deliver jsi) _EMPTY_ || (jsi_pull jsi =? 0)
      then ret (Some ErrTypeSubscription)
      else
        let batch := jsi_pull jsi in
        let reply := sub_Subject sub in
        let stream := jsi_stream jsi in
        let consumer := jsi_consumer jsi in
        let js := jsi_js jsi in
        let req :=
          match Marshal_NextRequest json (mk_NextRequest None batch false) with
          | OK b => b
          | Fail _ => _EMPTY_
          end in
        let reqNext := apiSubj js (JSApiRequestNextT stream consumer) in
        nc_PublishRequest reqNext reply req
  end.

(** ** Publish acknowledger *)

Record pubOpts : Type := mk_pubOpts {
  po_ctx : option Context;
  po_ttl : Duration;
  po_id : string;
  po_lid : string;
  po_str : string;
  po_seq : Z
}.

Inductive PubOpt : Type :=
  | MsgId (id : string)
  | ExpectStream (stream : string)
  | ExpectLastSequence (seq : Z)
  | ExpectLastMsgId (id : string)
  | MaxWait (ttl : Duration)
  | ContextOpt (ctx : Context).

Definition configurePublish (opt : PubOpt) (opts : pubOpts) : res pubOpts :=
  let '(mk_pubOpts ctx ttl id lid str seq) := opts in
  match opt with
  | MsgId id' => OK (mk_pubOpts ctx ttl id' lid str seq)
  | ExpectStream stream => OK (mk_pubOpts ctx ttl id lid stream seq)
  | ExpectLastSequence seq' => OK (mk_pubOpts ctx ttl id lid str seq')
  | ExpectLastMsgId id' => OK (mk_pubOpts ctx ttl id id' str seq)
  | MaxWait ttl' => OK (mk_pubOpts ctx ttl' id lid str seq)
  | ContextOpt ctx' => OK (mk_pubOpts (Some ctx') ttl id lid str seq)
  end.

(** [for _, opt := range opts { if err := opt.configure...; err != nil ... }] *)
Fixpoint configureAll {O Opts : Type} (configure : O -> Opts -> res Opts)
    (opts : list O) (o : Opts) : res Opts :=
  match opts with
  | [] => OK o
  | opt :: rest =>
      match configure opt o with
      | Fail err => Fail err
      | OK o' => configureAll configure rest o'
      end
  end.

Definition MsgIdHdr : string := "Nats-Msg-Id".
Definition ExpectedStreamHdr : string := "Nats-Expected-Stream".
Definition ExpectedLastSeqHdr : string := "Nats-Expected-Last-Sequence".
Definition ExpectedLastMsgIdHdr : string := "Nats-Expected-Last-Msg-Id".

(** [m.Header.Set(key, value)]: the four header names above are in
    canonical form already; setting a key of a nil map panics. *)
Definition Header_Set (m : Msg) (key value : string) : option Msg :=
  match msg_Header m with
  | None => None
  | Some h =>
      Some (mk_Msg (msg_Subject m) (msg_Reply m) (Some (<[key := [value]]> h))
              (msg_Data m) (msg_Sub m))
  end.

(** [strconv.FormatUint(n, 10)] *)
Definition FormatUint (n : Z) : string :=
  NilZero.string_of_uint (N.to_uint (Z.to_N n)).

(** The end of [PublishMsg], from [if err != nil] on: what the call
    returns for the outcome [r] of its request. *)
Definition publish_result (r : res Msg) : res PubAck :=
  match r with
  | Fail err =>
      let err :=
        if decide (err = ErrNoResponders) then ErrNoStreamResponse
        else err in
      Fail err
  | OK resp =>
      match Unmarshal_PubAckResponse json (msg_Data resp) with
      | Fail _ => Fail ErrInvalidJSAck
      | OK pa =>
          match api_Error (par_ApiResponse pa) with
          | Some e => Fail (errors_New (err_Description e))
          | None =>
              match par_PubAck pa with
              | None => Fail ErrInvalidJSAck
              | Some ack =>
                  if str_eqb (pa_Stream ack) _EMPTY_
                  then Fail ErrInvalidJSAck
                  else OK ack
              end
          end
      end
  end.

Definition PublishMsg (js : js) (m : Msg) (opts : list PubOpt)
    : M (res PubAck) :=
  let o := mk_pubOpts None 0 _EMPTY_ _EMPTY_ _EMPTY_ 0 in
  let m :=
    if (0 <? length opts)%nat && isNil (msg_Header m)
    then mk_Msg (msg_Subject m) (msg_Reply m) (Some ∅) (msg_Data m) (msg_Sub m)
    else m in
  match configureAll configurePublish opts o with
  | Fail err => ret (Fail err)
  | OK o =>
      if notNil (po_ctx o) && negb (po_ttl o =? 0) then
        ret (Fail ErrContextAndTimeout)
      else
        let ttl :=
          if (po_ttl o =? 0) && isNil (po_ctx o) then js_wait js
          else po_ttl o in
        let* m := (if str_neqb (po_id o) _EMPTY_
                   then lift (Header_Set m MsgIdHdr (po_id o)) else ret m) in
        let* m := (if str_neqb (po_lid o) _EMPTY_
                   then lift (Header_Set m ExpectedLastMsgIdHdr (po_lid o))
                   else ret m) in
        let* m := (if str_neqb (po_str o) _EMPTY_
                   then lift (Header_Set m ExpectedStreamHdr (po_str o))
                   else ret m) in
        let* m := (if 0 <? po_seq o
                   then lift (Header_Set m ExpectedLastSeqHdr
                                (FormatUint (po_seq o)))
                   else ret m) in
        let* r := (if 0 <? ttl then nc_RequestMsg m ttl
                   else nc_RequestMsgWithContext (po_ctx o) m) in
        ret (publish_result r)
  end.

Definition Publish (js : js) (subj data : string) (opts : list PubOpt)
    : M (res PubAck) :=
  PublishMsg js (mk_Msg subj _EMPTY_ None data None) opts.

(** ** Consumer binder *)

(** [subOpts]; [so_cfg] is the configuration [o.cfg] points to, which is
    the local [cfg] of [subscribe]. *)
Record subOpts : Type := mk_subOpts {
  so_stream : string;
  so_consumer : string;
  so_pull : Z;
  so_mack : bool;
  so_cfg : ConsumerConfig
}.

Inductive SubOpt : Type :=
  | Durable (name : string)
  | Attach (stream consumer : string)
  | Pull (batchSize : Z)
  | PullDirect (stream consumer : string) (batchSize : Z)
  | PushDirect (deliverSubject : string)
  | ManualAck
  | DeliverAll
  | DeliverLast
  | DeliverNew
  | StartSequence (seq : Z)
  | StartTime (startTime : Time).

Definition set_Durable (c : ConsumerConfig) (v : string) : ConsumerConfig :=
  mk_ConsumerConfig v (cfg_DeliverSubject c) (cfg_DeliverPolicy c)
    (cfg_OptStartSeq c) (cfg_OptStartTime c) (cfg_AckPolicy c) (cfg_AckWait c)
    (cfg_MaxDeliver c) (cfg_FilterSubject c) (cfg_ReplayPolicy c)
    (cfg_RateLimit c) (cfg_SampleFrequency c) (cfg_MaxWaiting c)
    (cfg_MaxAckPending c).

Definition set_DeliverSubject (c : ConsumerConfig) (v : string)
    : ConsumerConfig :=
  mk_ConsumerConfig (cfg_Durable c) v (cfg_DeliverPolicy c)
    (cfg_OptStartSeq c) (cfg_OptStartTime c) (cfg_AckPolicy c) (cfg_AckWait c)
    (cfg_MaxDeliver c) (cfg_FilterSubject c) (cfg_ReplayPolicy c)
    (cfg_RateLimit c) (cfg_SampleFrequency c) (cfg_MaxWaiting c)
    (cfg_MaxAckPending c).

Definition set_DeliverPolicy (c : ConsumerConfig) (v : jetstream.DeliverPolicy)
    : ConsumerConfig :=
  mk_ConsumerConfig (cfg_Durable c) (cfg_DeliverSubject c) v
    (cfg_OptStartSeq c) (cfg_OptStartTime c) (cfg_AckPolicy c) (cfg_AckWait c)
    (cfg_MaxDeliver c) (cfg_FilterSubject c) (cfg_ReplayPolicy c)
    (cfg_RateLimit c) (cfg_SampleFrequency c) (cfg_MaxWaiting c)
    (cfg_MaxAckPending c).

Definition set_OptStartSeq (c : ConsumerConfig) (v : Z) : ConsumerConfig :=
  mk_ConsumerConfig (cfg_Durable c) (cfg_DeliverSubject c)
    (cfg_DeliverPolicy c) v (cfg_OptStartTime c) (cfg_AckPolicy c)
    (cfg_AckWait c) (cfg_MaxDeliver c) (cfg_FilterSubject c)
    (cfg_ReplayPolicy c) (cfg_RateLimit c) (cfg_SampleFrequency c)
    (cfg_MaxWaiting c) (cfg_MaxAckPending c).

Definition set_OptStartTime (c : ConsumerConfig) (v : option Time)
    : ConsumerConfig :=
  mk_ConsumerConfig (cfg_Durable c) (cfg_DeliverSubject c)
    (cfg_DeliverPolicy c) (cfg_OptStartSeq c) v (cfg_AckPolicy c)
    (cfg_AckWait c) (cfg_MaxDeliver c) (cfg_FilterSubject c)
    (cfg_ReplayPolicy c) (cfg_RateLimit c) (cfg_SampleFrequency c)
    (cfg_MaxWaiting c) (cfg_MaxAckPending c).

Definition set_AckPolicy (c : ConsumerConfig) (v : jetstream.AckPolicy)
    : ConsumerConfig :=
  mk_ConsumerConfig (cfg_Durable c) (cfg_DeliverSubject c)
    (cfg_DeliverPolicy c) (cfg_OptStartSeq c) (cfg_OptStartTime c) v
    (cfg_AckWait c) (cfg_MaxDeliver c) (cfg_FilterSubject c)
    (cfg_ReplayPolicy c) (cfg_RateLimit c) (cfg_SampleFrequency c)
    (cfg_MaxWaiting c) (cfg_MaxAckPending c).

Definition set_FilterSubject (c : ConsumerConfig) (v : string)
    : ConsumerConfig :=
  mk_ConsumerConfig (cfg_Durable c) (cfg_DeliverSubject c)
    (cfg_DeliverPolicy c) (cfg_OptStartSeq c) (cfg_OptStartTime c)
    (cfg_AckPolicy c) (cfg_AckWait c) (cfg_MaxDeliver c) v
    (cfg_ReplayPolicy c) (cfg_RateLimit c) (cfg_SampleFrequency c)
    (cfg_MaxWaiting c) (cfg_MaxAckPending c).

Definition set_MaxAckPending (c : ConsumerConfig) (v : Z) : ConsumerConfig :=
  mk_ConsumerConfig (cfg_Durable c) (cfg_DeliverSubject c)
    (cfg_DeliverPolicy c) (cfg_OptStartSeq c) (cfg_OptStartTime c)
    (cfg_AckPolicy c) (cfg_AckWait c) (cfg_MaxDeliver c) (cfg_FilterSubject c)
    (cfg_ReplayPolicy c) (cfg_RateLimit c) (cfg_SampleFrequency c)
    (cfg_MaxWaiting c) v.

Definition with_cfg (o : subOpts) (c : ConsumerConfig) : subOpts :=
  mk_subOpts (so_stream o) (so_consumer o) (so_pull o) (so_mack o) c.

Definition batch_size_0 : error :=
  errors_New "nats: batch size of 0 not valid".

Definition configureSubscribe (opt : SubOpt) (opts : subOpts) : res subOpts :=
  let '(mk_subOpts stream consumer pull mack cfg) := opts in
  match opt with
  | Durable name => OK (with_cfg opts (set_Durable cfg name))
  | Attach stream' consumer' => OK (mk_subOpts stream' consumer' pull mack cfg)
  | Pull batchSize =>
      if batchSize =? 0 then Fail batch_size_0
      else OK (mk_subOpts stream consumer batchSize mack cfg)
  | PullDirect stream' consumer' batchSize =>
      if batchSize =? 0 then Fail batch_size_0
      else OK (mk_subOpts stream' consumer' batchSize mack cfg)
  | PushDirect deliverSubject =>
      OK (with_cfg opts (set_DeliverSubject cfg deliverSubject))
  | ManualAck => OK (mk_subOpts stream consumer pull true cfg)
  | DeliverAll =>
      OK (with_cfg opts (set_DeliverPolicy cfg jetstream.DeliverAll))
  | DeliverLast =>
      OK (with_cfg opts (set_DeliverPolicy cfg jetstream.DeliverLast))
  | DeliverNew =>
      OK (with_cfg opts (set_DeliverPolicy cfg jetstream.DeliverNew))
  | StartSequence seq =>
      OK (with_cfg opts
            (set_OptStartSeq
               (set_DeliverPolicy cfg jetstream.StartSequence) seq))
  | StartTime startTime =>
      OK (with_cfg opts
            (set_OptStartTime
               (set_DeliverPolicy cfg jetstream.StartTime) (Some startTime)))
  end.

(** [ConsumerConfig{AckPolicy: ackPolicyNotSet}] *)
Definition cfg0 : ConsumerConfig :=
  mk_ConsumerConfig _EMPTY_ _EMPTY_ jetstream.DeliverAll 0 None ackPolicyNotSet
    0 0 _EMPTY_ jetstream.ReplayInstant 0 _EMPTY_ 0 0.

(** [subOpts{cfg: &cfg}] *)
Definition subOpts0 : subOpts := mk_subOpts _EMPTY_ _EMPTY_ 0 false cfg0.

(** The attach-or-create decision of [subscribe]. *)
Definition shouldAttach (o : subOpts) : bool :=
  str_neqb (so_stream o) _EMPTY_ && str_neqb (so_consumer o) _EMPTY_
  || str_neqb (cfg_DeliverSubject (so_cfg o)) _EMPTY_.

Definition shouldCreate (o : subOpts) : bool := negb (shouldAttach o).

Definition noResponders_as (err replacement : error) : error :=
  if decide (err = ErrNoResponders) then replacement else err.

Definition getConsumerInfo (js : js) (stream consumer : string)
    : M (res (option ConsumerInfo)) :=
  let ccInfoSubj := JSApiConsumerInfoT stream consumer in
  let* r := nc_Request (apiSubj js ccInfoSubj) _EMPTY_ (js_wait js) in
  match r with
  | Fail err => ret (Fail (noResponders_as err ErrJetStreamNotEnabled))
  | OK resp =>
      match Unmarshal_ConsumerResponse json (msg_Data resp) with
      | Fail err => ret (Fail err)
      | OK info =>
          match api_Error (cr_ApiResponse info) with
          | Some e => ret (Fail (errors_New (err_Description e)))
          | None => ret (OK (cr_ConsumerInfo info))
          end
      end
  end.

Definition lookupStreamBySubject (js : js) (subj : string) : M (res string) :=
  match Marshal_streamRequest json (mk_streamRequest subj) with
  | Fail err => ret (Fail err)
  | OK j =>
      let* r := nc_Request (apiSubj js JSApiStreams) j (js_wait js) in
      match r with
      | Fail err => ret (Fail (noResponders_as err ErrJetStreamNotEnabled))
      | OK resp =>
          match Unmarshal_StreamNamesResponse json (msg_Data resp) with
          | Fail err => ret (Fail err)
          | OK slr =>
              if notNil (api_Error (snr_ApiResponse slr))
                 || negb (length (snr_Streams slr) =? 1)%nat
              then ret (Fail ErrNoMatchingStream)
              else ret (OK (nth 0 (snr_Streams slr) _EMPTY_))
          end
      end
  end.

(** What the first part of [subscribe] settles: the stream, the local
    delivery subject, the attached consumer's configuration [ccfg] (nil
    unless attaching through the API) and the local [cfg]. *)
Record resolved : Type := mk_resolved {
  rs_stream : string;
  rs_deliver : string;
  rs_ccfg : option ConsumerConfig;
  rs_cfg : ConsumerConfig
}.

(** The three-way branch [if js.direct ... else if shouldAttach ... else]
    of [subscribe]. *)
Definition resolve (js : js) (subj : string) (o : subOpts) (isPullMode : bool)
    : M (res resolved) :=
  let cfg := so_cfg o in
  if js_direct js then
    if str_neqb (cfg_DeliverSubject cfg) _EMPTY_ then
      ret (OK (mk_resolved _EMPTY_ (cfg_DeliverSubject cfg) None cfg))
    else
      let* deliver := NewInbox in
      ret (OK (mk_resolved _EMPTY_ deliver None cfg))
  else if shouldAttach o then
    let* r := getConsumerInfo js (so_stream o) (so_consumer o) in
    match r with
    | Fail err => ret (Fail err)
    | OK info =>
        let* info := lift info in
        let ccfg := ci_Config info in
        if str_neqb (cfg_FilterSubject ccfg) _EMPTY_
           && str_neqb subj (cfg_FilterSubject ccfg)
        then ret (Fail ErrSubjectMismatch)
        else if str_neqb (cfg_DeliverSubject ccfg) _EMPTY_ then
          ret (OK (mk_resolved _EMPTY_ (cfg_DeliverSubject ccfg) (Some ccfg) cfg))
        else
          let* deliver := NewInbox in
          ret (OK (mk_resolved _EMPTY_ deliver (Some ccfg) cfg))
    end
  else
    let* r := lookupStreamBySubject js subj in
    match r with
    | Fail err => ret (Fail err)
    | OK stream =>
        let* deliver := NewInbox in
        let cfg :=
          if negb isPullMode then set_DeliverSubject cfg deliver else cfg in
        let cfg := set_FilterSubject cfg subj in
        ret (OK (mk_resolved stream deliver None cfg))
    end.

Definition with_jsi (sub : Subscription) (jsi : jsSub) : Subscription :=
  mk_Subscription (sub_Subject sub) (sub_Queue sub) (sub_mcb sub)
    (sub_mch sub) (sub_isSync sub) (Some jsi).

(** [sub.jsi.stream, sub.jsi.consumer, sub.jsi.deliver = ...] *)
Definition hold (sub : Subscription) (stream consumer deliver : string)
    : M Subscription :=
  let* jsi := lift (sub_jsi sub) in
  ret (with_jsi sub (mk_jsSub (jsi_js jsi) consumer stream deliver
                       (jsi_pull jsi))).

(** [sub.jsi.pull = pull] *)
Definition hold_pull (sub : Subscription) (pull : Z) : M Subscription :=
  let* jsi := lift (sub_jsi sub) in
  ret (with_jsi sub (mk_jsSub (jsi_js jsi) (jsi_consumer jsi) (jsi_stream jsi)
                       (jsi_deliver jsi) pull)).

(** The request [subscribe] builds on the create path: the ack policy
    defaults to explicit, and with acks and no max-ack-pending set, that
    limit is the pending-messages limit of the local subscription. *)
Definition create_request (rs : resolved) (sub : Subscription)
    : JSApiCreateConsumerRequest :=
  let cfg := rs_cfg rs in
  let stream := rs_stream rs in
  let cfg :=
    if decide (cfg_AckPolicy cfg = ackPolicyNotSet)
    then set_AckPolicy cfg jetstream.AckExplicit else cfg in
  let cfg :=
    if (cfg_MaxAckPending cfg =? 0)
       && negb (bool_decide (cfg_AckPolicy cfg = jetstream.AckNone))
    then set_MaxAckPending cfg (conn_PendingLimits nc sub) else cfg in
  mk_JSApiCreateConsumerRequest stream cfg.

(** The block [if shouldCreate { ... } else { ... }] of [subscribe], run
    once the local subscription [sub] exists. *)
Definition bind_consumer (js : js) (o : subOpts) (rs : resolved)
    (sub : Subscription) : M (res Subscription) :=
  if shouldCreate o then
    let req := create_request rs sub in
    let cfg := ccr_Config req in
    let stream := ccr_Stream req in
    match Marshal_CreateConsumerRequest json req with
    | Fail err => ret (Fail err)
    | OK j =>
        let ccSubj :=
          if str_neqb (cfg_Durable cfg) _EMPTY_
          then JSApiDurableCreateT stream (cfg_Durable cfg)
          else JSApiConsumerCreateT stream in
        let* r := nc_Request (apiSubj js ccSubj) j (js_wait js) in
        match r with
        | Fail err =>
            let err := noResponders_as err ErrJetStreamNotEnabled in
            let* _ := Unsubscribe sub in
            ret (Fail err)
        | OK resp =>
            match Unmarshal_ConsumerResponse json (msg_Data resp) with
            | Fail err =>
                let* _ := Unsubscribe sub in
                ret (Fail err)
            | OK info =>
                match api_Error (cr_ApiResponse info) with
                | Some e =>
                    let* _ := Unsubscribe sub in
                    ret (Fail (errors_New (err_Description e)))
                | None =>
                    let* ci := lift (cr_ConsumerInfo info) in
                    let* sub :=
                      hold sub (ci_Stream ci) (ci_Name ci)
                        (cfg_DeliverSubject (ci_Config ci)) in
                    ret (OK sub)
                end
            end
        end
    end
  else
    let* deliver :=
      (if js_direct js then ret (cfg_DeliverSubject (so_cfg o))
       else
         let* ccfg := lift (rs_ccfg rs) in
         ret (cfg_DeliverSubject ccfg)) in
    let* sub := hold sub (so_stream o) (so_consumer o) deliver in
    ret (OK sub).

(** The manual-ack check of [subscribe]: unless the caller acknowledges
    by hand, a callback is wrapped into one that acknowledges after it. *)
Definition installed (cb : option MsgHandler) (o : subOpts)
    : option MsgHandler :=
  if notNil cb && negb (so_mack o) then AckAfter <$> cb else cb.

(** The end of [subscribe]: a pull-based subscription stores its batch
    size and fires off the first request, whose result is dropped. *)
Definition first_pull (o : subOpts) (sub : Subscription)
    : M (res Subscription) :=
  let isPullMode := 0 <? so_pull o in
  if isPullMode then
    let* sub := hold_pull sub (so_pull o) in
    let* _ := Poll sub in
    ret (OK sub)
  else ret (OK sub).

(** The second half of [subscribe], from [var sub *Subscription] on: the
    local subscription on the delivery subject, the consumer binding and
    the first pull. *)
Definition establish (js : js) (queue : string) (cb : option MsgHandler)
    (ch : option Chan) (o : subOpts) (rs : resolved) : M (res Subscription) :=
  let cb := installed cb o in
  let* r :=
    nc_subscribe (rs_deliver rs) queue cb ch (isNil cb)
      (mk_jsSub js _EMPTY_ _EMPTY_ _EMPTY_ 0) in
  match r with
  | Fail err => ret (Fail err)
  | OK sub =>
      let* r := bind_consumer js o rs sub in
      match r with
      | Fail err => ret (Fail err)
      | OK sub => first_pull o sub
      end
  end.

Definition subscribe (js : js) (subj queue : string) (cb : option MsgHandler)
    (ch : option Chan) (opts : list SubOpt) : M (res Subscription) :=
  match configureAll configureSubscribe opts subOpts0 with
  | Fail err => ret (Fail err)
  | OK o =>
      let isPullMode := 0 <? so_pull o in
      if notNil cb && isPullMode then ret (Fail ErrPullModeNotAllowed)
      else if js_direct js && shouldCreate o then
        ret (Fail ErrDirectModeRequired)
      else
        let* r := resolve js subj o isPullMode in
        match r with
        | Fail err => ret (Fail err)
        | OK rs => establish js queue cb ch o rs
        end
  end.

Definition Subscribe (js : js) (subj : string) (cb : option MsgHandler)
    (opts : list SubOpt) : M (res Subscription) :=
  subscribe js subj _EMPTY_ cb None opts.

Definition SubscribeSync (js : js) (subj : string) (mch : Chan)
    (opts : list SubOpt) : M (res Subscription) :=
  subscribe js subj _EMPTY_ None (Some mch) opts.

Definition QueueSubscribe (js : js) (subj queue : string)
    (cb : option MsgHandler) (opts : list SubOpt) : M (res Subscription) :=
  subscribe js subj queue cb None opts.

Definition ChanSubscribe (js : js) (subj : string) (ch : option Chan)
    (opts : list SubOpt) : M (res Subscription) :=
  subscribe js subj _EMPTY_ None ch opts.

End WithTransport.

(** ** Policies on the wire *)

(** The policies as the second source file declares them, [int]s with
    named constants, and their JSON codecs.  The [String] methods are
    left out. *)
Module Policy.

Definition AckPolicy : Type := Z.
Definition AckNone : AckPolicy := 0.
Definition AckAll : AckPolicy := 1.
Definition AckExplicit : AckPolicy := 2.
Definition ackPolicyNotSet : AckPolicy := 99.

Definition ReplayPolicy : Type := Z.
Definition ReplayInstant : ReplayPolicy := 0.
Definition ReplayOriginal : ReplayPolicy := 1.

Definition DeliverPolicy : Type := Z.
Definition DeliverAll : DeliverPolicy := 0.
Definition DeliverLast : DeliverPolicy := 1.
Definition DeliverNew : DeliverPolicy := 2.

Definition RetentionPolicy : Type := Z.
Definition LimitsPolicy : RetentionPolicy := 0.
Definition InterestPolicy : RetentionPolicy := 1.
Definition WorkQueuePolicy : RetentionPolicy := 2.

Definition DiscardPolicy : Type := Z.
Definition DiscardOld : DiscardPolicy := 0.

Definition StorageType : Type := Z.
Definition MemoryStorage : StorageType := 0.
Definition FileStorage : StorageType := 1.

Definition limitsPolicyString : string := "limits".
Definition interestPolicyString : string := "interest".
Definition workQueuePolicyString : string := "workqueue".
Definition memoryStorageString : string := "memory".
Definition fileStorageString : string := "file".

Definition jsonString (s : string) : string := dquote ++ s ++ dquote.

(** The errors of the codecs: [fmt.Errorf] with its format and its one
    argument, bytes under the verb q or a policy under the verb v, and
    whatever [json.Marshal] fails with. *)
Inductive codec_error : Type :=
  | Errorf_q (format data : string)
  | Errorf_v (format : string) (p : Z)
  | json_error (e : error).

(** The result [([]byte, error)] of a [MarshalJSON]. *)
Inductive encoded : Type :=
  | Bytes (b : string)
  | NoBytes (e : codec_error).



Section Codec.

(** [json.Marshal] applied to a Go string. *)
Variable Marshal_string : string -> res string.

Definition json_Marshal (s : string) : encoded :=
  match Marshal_string s with
  | OK b => Bytes b
  | Fail e => NoBytes (json_error e)
  end.

(** A codec with a pointer receiver maps the policy held to the policy
    held afterwards and the error returned. *)
Definition AckPolicy_UnmarshalJSON (p : AckPolicy) (data : string)
    : AckPolicy * option codec_error :=
  if str_eqb data (jsonString "none") then (AckNone, None)
  else if str_eqb data (jsonString "all") then (AckAll, None)
  else if str_eqb data (jsonString "explicit") then (AckExplicit, None)
  else (p, Some (Errorf_q "can not unmarshal %q" data)).

Definition AckPolicy_MarshalJSON (p : AckPolicy) : encoded :=
  if p =? AckNone then json_Marshal "none"
  else if p =? AckAll then json_Marshal "all"
  else if p =? AckExplicit then json_Marshal "explicit"
  else NoBytes (Errorf_v "unknown acknowlegement policy %v" p).

Definition ReplayPolicy_UnmarshalJSON (p : ReplayPolicy) (data : string)
    : ReplayPolicy * option codec_error :=
  if str_eqb data (jsonString "instant") then (ReplayInstant, None)
  else if str_eqb data (jsonString "original") then (ReplayOriginal, None)
  else (p, Some (Errorf_q "can not unmarshal %q" data)).

Definition ReplayPolicy_MarshalJSON (p : ReplayPolicy) : encoded :=
  if p =? ReplayOriginal then json_Marshal "original"
  else if p =? ReplayInstant then json_Marshal "instant"
  else NoBytes (Errorf_v "unknown replay policy %v" p).



Definition RetentionPolicy_MarshalJSON (rp : RetentionPolicy) : encoded :=
  if rp =? LimitsPolicy then json_Marshal limitsPolicyString
  else if rp =? InterestPolicy then json_Marshal interestPolicyString
  else if rp =? WorkQueuePolicy then json_Marshal workQueuePolicyString
  else NoBytes (Errorf_v "can not marshal %v" rp).

Definition RetentionPolicy_UnmarshalJSON (rp : RetentionPolicy)
    (data : string) : RetentionPolicy * option codec_error :=
  if str_eqb data (jsonString limitsPolicyString) then (LimitsPolicy, None)
  else if str_eqb data (jsonString interestPolicyString)
  then (InterestPolicy, None)
  else if str_eqb data (jsonString workQueuePolicyString)
  then (WorkQueuePolicy, None)
  else (rp, Some (Errorf_q "can not unmarshal %q" data)).



Definition StorageType_MarshalJSON (st : StorageType) : encoded :=
  if st =? MemoryStorage then json_Marshal memoryStorageString
  else if st =? FileStorage then json_Marshal fileStorageString
  else NoBytes (Errorf_v "can not marshal %v" st).

Definition StorageType_UnmarshalJSON (st : StorageType) (data : string)
    : StorageType * option codec_error :=
  if str_eqb data (jsonString memoryStorageString) then (MemoryStorage, None)
  else if str_eqb data (jsonString fileStorageString) then (FileStorage, None)
  else (st, Some (Errorf_q "can not unmarshal %q" data)).

End Codec.

End Policy.

(** ** The JetStream context *)

Definition JSDefaultAPIPrefix : string := "$JS.API.".
Definition JSApiAccountInfo : string := "INFO".

(** [5 * time.Second] *)
Definition defaultRequestWait : Duration := 5 * 1000000000.

(** [strings.HasSuffix(s, suffix)]:
    [len(s) >= len(suffix) && s[len(s)-len(suffix):] == suffix]. *)
Definition HasSuffix (s suffix : string) : bool :=
  (String.length suffix <=? String.length s)%nat
  && str_eqb (substring (String.length s - String.length suffix)
                (String.length suffix) s) suffix.

(** The options of a context; [MaxWait] is the option that [PublishMsg]
    takes as well. *)
Module JSOpt.
Inductive t : Type :=
  | APIPrefix (pre : string)
  | DirectOnly
  | MaxWait (ttl : Duration).
End JSOpt.

Definition configureJSContext (opt : JSOpt.t) (opts : js) : res js :=
  match opt with
  | JSOpt.APIPrefix pre =>
      let pre := if negb (HasSuffix pre ".") then pre ++ "." else pre in
      OK (mk_js pre (js_wait opts) (js_direct opts))
  | JSOpt.DirectOnly => OK (mk_js (js_pre opts) (js_wait opts) true)
  | JSOpt.MaxWait ttl => OK (mk_js (js_pre opts) ttl (js_direct opts))
  end.

Record AccountLimits : Type := mk_AccountLimits {
  al_MaxMemory : Z;
  al_MaxStore : Z;
  al_MaxStreams : Z;
  al_MaxConsumers : Z
}.

Record AccountStats : Type := mk_AccountStats {
  as_Memory : Z;
  as_Store : Z;
  as_Streams : Z;
  as_Limits : AccountLimits
}.

(** [AccountInfoResponse]: the embedded [*AccountStats] may be nil. *)
Record AccountInfoResponse : Type := mk_AccountInfoResponse {
  air_ApiResponse : ApiResponse;
  air_AccountStats : option AccountStats
}.

(** ** Streams *)

Definition JSApiStreamCreateT (name : string) : string :=
  "STREAM.CREATE." ++ name.
Definition JSApiStreamInfoT (stream : string) : string :=
  "STREAM.INFO." ++ stream.

(** [StreamConfig]; js.go wraps the structure of package [jetstream],
    which the second source file declares in place. *)
Record StreamConfig : Type := mk_StreamConfig {
  sc_Name : string;
  sc_Subjects : list string;
  sc_Retention : Policy.RetentionPolicy;
  sc_MaxConsumers : Z;
  sc_MaxMsgs : Z;
  sc_MaxBytes : Z;
  sc_Discard : Policy.DiscardPolicy;
  sc_MaxAge : Duration;
  sc_MaxMsgSize : Z;
  sc_Storage : Policy.StorageType;
  sc_Replicas : Z;
  sc_NoAck : bool;
  sc_Template : string;
  sc_Duplicates : Duration
}.

Record StreamState : Type := mk_StreamState {
  ss_Msgs : Z;
  ss_Bytes : Z;
  ss_FirstSeq : Z;
  ss_FirstTime : Time;
  ss_LastSeq : Z;
  ss_LastTime : Time;
  ss_Consumers : Z
}.

Record StreamInfo : Type := mk_StreamInfo {
  si_Config : StreamConfig;
  si_Created : Time;
  si_State : StreamState
}.

(** [JSApiStreamCreateResponse]: the embedded [*StreamInfo] may be nil. *)
Record JSApiStreamCreateResponse : Type := mk_JSApiStreamCreateResponse {
  scr_ApiResponse : ApiResponse;
  scr_StreamInfo : option StreamInfo
}.

(** Modelled from the spec: [JSApiStreamInfoResponse] is declared in
    package [jetstream], which is not among the sources; js.go reads its
    [Error] and dereferences its [StreamInfo] pointer, as it does with
    the create response. *)
Record JSApiStreamInfoResponse : Type := mk_JSApiStreamInfoResponse {
  sir_ApiResponse : ApiResponse;
  sir_StreamInfo : option StreamInfo
}.

(** [encoding/json] on the wire structures of the management calls;
    [Marshal_nil_config] encodes the create-consumer request of a stream
    whose [Config] pointer is nil. *)
Record JSONManager : Type := mk_JSONManager {
  Unmarshal_AccountInfoResponse : string -> res AccountInfoResponse;
  Marshal_nil_config : string -> res string;
  Marshal_StreamConfig : StreamConfig -> res string;
  Unmarshal_StreamCreateResponse : string -> res JSApiStreamCreateResponse;
  Unmarshal_StreamInfoResponse : string -> res JSApiStreamInfoResponse
}.

Section Management.

Variable nc : Conn.
Variable json : JSON.
Variable mjson : JSONManager.

(** [nc.JetStream(opts...)] *)
Definition JetStream (opts : list JSOpt.t) : M (res js) :=
  let js := mk_js JSDefaultAPIPrefix defaultRequestWait false in
  match configureAll configureJSContext opts js with
  | Fail err => ret (Fail err)
  | OK js =>
      if js_direct js then ret (OK js)
      else
        let* r :=
          nc_Request nc (apiSubj js JSApiAccountInfo) _EMPTY_ (js_wait js) in
        match r with
        | Fail err => ret (Fail (noResponders_as err ErrJetStreamNotEnabled))
        | OK resp =>
            match Unmarshal_AccountInfoResponse mjson (msg_Data resp) with
            | Fail err => ret (Fail err)
            | OK info =>
                match api_Error (air_ApiResponse info) with
                | Some e =>
                    if err_Code e =? 503 then ret (Fail ErrJetStreamNotEnabled)
                    else ret (OK js)
                | None => ret (OK js)
                end
            end
        end
  end.

(** [sub.ConsumerInfo()]; the binding is read without a nil test. *)
Definition Subscription_ConsumerInfo (sub : Subscription)
    : M (res (option ConsumerInfo)) :=
  let* jsi := lift (sub_jsi sub) in
  if str_eqb (jsi_consumer jsi) _EMPTY_ then ret (Fail ErrTypeSubscription)
  else
    let js := jsi_js jsi in
    let stream := jsi_stream jsi in
    let consumer := jsi_consumer jsi in
    getConsumerInfo nc json js stream consumer.

End Management.

(** The management calls of js.go, under the name of the interface they
    implement. *)
Module JetStreamManager.

Section WithTransport.

Variable nc : Conn.
Variable json : JSON.
Variable mjson : JSONManager.

(** [js.AddConsumer(stream, cfg)]; [cfg] may be nil, and is first read,
    for its durable name, after the request has been encoded. *)
Definition AddConsumer (js : js) (stream : string)
    (cfg : option ConsumerConfig) : M (res (option ConsumerInfo)) :=
  if str_eqb stream _EMPTY_ then ret (Fail ErrStreamNameRequired)
  else
    let req :=
      match cfg with
      | Some c =>
          Marshal_CreateConsumerRequest json
            (mk_JSApiCreateConsumerRequest stream c)
      | None => Marshal_nil_config mjson stream
      end in
    match req with
    | Fail err => ret (Fail err)
    | OK req =>
        let* cfg := lift cfg in
        let ccSubj :=
          if str_neqb (cfg_Durable cfg) _EMPTY_
          then JSApiDurableCreateT stream (cfg_Durable cfg)
          else JSApiConsumerCreateT stream in
        let* r := nc_Request nc (apiSubj js ccSubj) req (js_wait js) in
        match r with
        | Fail err => ret (Fail (noResponders_as err ErrJetStreamNotEnabled))
        | OK resp =>
            match Unmarshal_ConsumerResponse json (msg_Data resp) with
            | Fail err => ret (Fail err)
            | OK info =>
                match api_Error (cr_ApiResponse info) with
                | Some e => ret (Fail (errors_New (err_Description e)))
                | None => ret (OK (cr_ConsumerInfo info))
                end
            end
        end
    end.

(** [js.AddStream(cfg)] of js.go: the stream info of the answer is
    dereferenced. *)
Definition AddStream (js : js) (cfg : option StreamConfig)
    : M (res StreamInfo) :=
  match cfg with
  | None => ret (Fail ErrStreamNameRequired)
  | Some cfg =>
      if str_eqb (sc_Name cfg) _EMPTY_ then ret (Fail ErrStreamNameRequired)
      else
        match Marshal_StreamConfig mjson cfg with
        | Fail err => ret (Fail err)
        | OK req =>
            let csSubj := apiSubj js (JSApiStreamCreateT (sc_Name cfg)) in
            let* r := nc_Request nc csSubj req (js_wait js) in
            match r with
            | Fail err => ret (Fail err)
            | OK r =>
                match Unmarshal_StreamCreateResponse mjson (msg_Data r) with
                | Fail err => ret (Fail err)
                | OK resp =>
                    match api_Error (scr_ApiResponse resp) with
                    | Some e => ret (Fail (errors_New (err_Description e)))
                    | None =>
                        let* si := lift (scr_StreamInfo resp) in
                        ret (OK si)
                    end
                end
            end
        end
  end.

(** [js.StreamInfo(stream)] *)
Definition StreamInfo (js : js) (stream : string) : M (res StreamInfo) :=
  let csSubj := apiSubj js (JSApiStreamInfoT stream) in
  let* r := nc_Request nc csSubj _EMPTY_ (js_wait js) in
  match r with
  | Fail err => ret (Fail err)
  | OK r =>
      match Unmarshal_StreamInfoResponse mjson (msg_Data r) with
      | Fail err => ret (Fail err)
      | OK resp =>
          match api_Error (sir_ApiResponse resp) with
          | Some e => ret (Fail (errors_New (err_Description e)))
          | None =>
              let* si := lift (sir_StreamInfo resp) in
              ret (OK si)
          end
      end
  end.

End WithTransport.

End JetStreamManager.

Section SecondManager.

Variable nc : Conn.
Variable json : JSON.
Variable mjson : JSONManager.

(** The manager of the second source file: [jsm] holds the context, and
    its [AddStream] returns the stream info pointer of the answer as it
    is. *)
Record jsm : Type := mk_jsm {
  jsm_js : js
}.

Definition Manager (js : js) : jsm := mk_jsm js.

Definition jsm_AddConsumer (m : jsm) (stream : string)
    (cfg : option ConsumerConfig) : M (res (option ConsumerInfo)) :=
  let js := jsm_js m in
  if str_eqb stream _EMPTY_ then ret (Fail ErrStreamNameRequired)
  else
    let req :=
      match cfg with
      | Some c =>
          Marshal_CreateConsumerRequest json
            (mk_JSApiCreateConsumerRequest stream c)
      | None => Marshal_nil_config mjson stream
      end in
    match req with
    | Fail err => ret (Fail err)
    | OK req =>
        let* cfg := lift cfg in
        let ccSubj :=
          if str_neqb (cfg_Durable cfg) _EMPTY_
          then JSApiDurableCreateT stream (cfg_Durable cfg)
          else JSApiConsumerCreateT stream in
        let* r := nc_Request nc (apiSubj js ccSubj) req (js_wait js) in
        match r with
        | Fail err => ret (Fail (noResponders_as err ErrJetStreamNotEnabled))
        | OK resp =>
            match Unmarshal_ConsumerResponse json (msg_Data resp) with
            | Fail err => ret (Fail err)
            | OK info =>
                match api_Error (cr_ApiResponse info) with
                | Some e => ret (Fail (errors_New (err_Description e)))
                | None => ret (OK (cr_ConsumerInfo info))
                end
            end
        end
    end.

Definition jsm_AddStream (m : jsm) (cfg : option StreamConfig)
    : M (res (option StreamInfo)) :=
  let js := jsm_js m in
  match cfg with
  | None => ret (Fail ErrStreamNameRequired)
  | Some cfg =>
      if str_eqb (sc_Name cfg) _EMPTY_ then ret (Fail ErrStreamNameRequired)
      else
        match Marshal_StreamConfig mjson cfg with
        | Fail err => ret (Fail err)
        | OK req =>
            let csSubj := apiSubj js (JSApiStreamCreateT (sc_Name cfg)) in
            let* r := nc_Request nc csSubj req (js_wait js) in
            match r with
            | Fail err => ret (Fail err)
            | OK r =>
                match Unmarshal_StreamCreateResponse mjson (msg_Data r) with
                | Fail err => ret (Fail err)
                | OK resp =>
                    match api_Error (scr_ApiResponse resp) with
                    | Some e => ret (Fail (errors_New (err_Description e)))
                    | None => ret (OK (scr_StreamInfo resp))
                    end
                end
            end
        end
  end.

End SecondManager.

(** ** A scripted peer, for the examples *)

Module Sample.

(** [jsonString] of the sources: [s] between double quotes. *)
Definition jsonString (s : string) : string := dquote ++ s ++ dquote.

Definition field (name value : string) : string :=
  jsonString name ++ ":" ++ value.

Definition itoa (z : Z) : string := NilZero.string_of_int (Z.to_int z).

(** Response bodies. *)
Definition ack_ORD_6 : string :=
  "{" ++ field "stream" (jsonString "ORD") ++ "," ++ field "seq" "6" ++ "}".
Definition ack_wrong_last_sequence : string :=
  "{" ++ field "error"
           ("{" ++ field "code" "400" ++ ","
                ++ field "description" (jsonString "wrong last sequence")
                ++ "}") ++ "}".
Definition ack_seq_only : string := "{" ++ field "seq" "6" ++ "}".
Definition names_ORD : string :=
  "{" ++ field "streams" ("[" ++ jsonString "ORD" ++ "]") ++ "}".
Definition consumer_body (stream name deliver filter : string) : string :=
  "{" ++ field "stream_name" (jsonString stream) ++ ","
      ++ field "name" (jsonString name) ++ ","
      ++ field "config"
           ("{" ++ field "deliver_subject" (jsonString deliver) ++ ","
                ++ field "filter_subject" (jsonString filter) ++ "}")
      ++ "}".
Definition error_body (code : Z) (description : string) : string :=
  "{" ++ field "error"
           ("{" ++ field "code" (itoa code) ++ ","
                ++ field "description" (jsonString description) ++ "}")
      ++ "}".

Definition no_error : ApiResponse := mk_ApiResponse _EMPTY_ None.

(** The zero [time.Time], in nanoseconds from the Unix epoch. *)
Definition zero_time : Time := -62135596800000000000.

Definition consumer_value (stream name deliver filter : string)
    : JSApiConsumerResponse :=
  mk_JSApiConsumerResponse no_error
    (Some (mk_ConsumerInfo stream name zero_time
             (mk_ConsumerConfig _EMPTY_ deliver jetstream.DeliverAll 0 None
                jetstream.AckNone 0 0 filter jetstream.ReplayInstant 0
                _EMPTY_ 0 0)
             (mk_SequencePair 0 0) (mk_SequencePair 0 0) 0 0 0 0)).

Definition error_value (code : Z) (description : string) : ApiResponse :=
  mk_ApiResponse _EMPTY_ (Some (mk_ApiError code description)).

Definition invalid : error := ErrForeign "invalid character".

Definition decode {T : Type} (table : gmap string T) (data : string)
    : res T :=
  match table !! data with
  | Some v => OK v
  | None => Fail invalid
  end.

(** What [encoding/json] yields for the bodies above. *)
Definition acks : gmap string PubAckResponse :=
  <[ack_ORD_6 := mk_PubAckResponse no_error (Some (mk_PubAck "ORD" 6 false))]>
  (<[ack_wrong_last_sequence :=
       mk_PubAckResponse (error_value 400 "wrong last sequence") None]>
  (<[ack_seq_only :=
       mk_PubAckResponse no_error (Some (mk_PubAck _EMPTY_ 6 false))]> ∅)).

Definition consumers : gmap string JSApiConsumerResponse :=
  <[consumer_body "S" "C" "d.C" "orders" :=
      consumer_value "S" "C" "d.C" "orders"]>
  (<[consumer_body "S" "P" _EMPTY_ "orders" :=
      consumer_value "S" "P" _EMPTY_ "orders"]>
  (<[consumer_body "ORD" "eph1" "_INBOX.1" "orders" :=
      consumer_value "ORD" "eph1" "_INBOX.1" "orders"]>
  (<[error_body 400 "consumer limit reached" :=
      mk_JSApiConsumerResponse (error_value 400 "consumer limit reached")
        None]> ∅))).

Definition names : gmap string JSApiStreamNamesResponse :=
  <[names_ORD :=
    mk_JSApiStreamNamesResponse no_error (mk_ApiPaged 1 0 1024) ["ORD"]]> ∅.

(** The request encoders, on the fields the examples set. *)
Definition encode_create (req : JSApiCreateConsumerRequest) : res string :=
  let cfg := ccr_Config req in
  OK ("{" ++ field "stream_name" (jsonString (ccr_Stream req)) ++ ","
          ++ field "config"
               ("{" ++ field "durable_name" (jsonString (cfg_Durable cfg))
                    ++ ","
                    ++ field "deliver_subject"
                         (jsonString (cfg_DeliverSubject cfg)) ++ ","
                    ++ field "filter_subject"
                         (jsonString (cfg_FilterSubject cfg)) ++ ","
                    ++ field "max_ack_pending"
                         (itoa (cfg_MaxAckPending cfg)) ++ "}")
          ++ "}").

Definition encode_stream (req : streamRequest) : res string :=
  OK ("{" ++ field "subject" (jsonString (sr_Subject req)) ++ "}").

Definition encode_next (req : NextRequest) : res string :=
  OK ("{" ++ field "batch" (itoa (nr_Batch req)) ++ "}").

Definition json : JSON :=
  mk_JSON (decode acks) (decode consumers) (decode names)
    encode_create encode_stream encode_next.

Definition reply_msg (data : string) : Msg :=
  mk_Msg "_INBOX.reply" _EMPTY_ None data None.

(** A peer that answers a request by its subject alone: [replies] gives
    the body sent back, and a subject without an entry has no responder.
    Publishing and subscribing succeed, and the inbox is fixed. *)
Definition answer (replies : gmap string string) (subj : string) : res Msg :=
  match replies !! subj with
  | Some data => OK (reply_msg data)
  | None => Fail ErrNoResponders
  end.

Definition peer (replies : gmap string string) : Conn :=
  mk_Conn
    (fun _ subj _ _ => answer replies subj)
    (fun _ m _ => answer replies (msg_Subject m))
    (fun _ _ m => answer replies (msg_Subject m))
    (fun _ _ _ => None)
    (fun _ _ _ _ => None)
    (fun _ _ _ => None)
    (fun _ => "_INBOX.1")
    (fun _ => 65536).

Definition ctx : js := mk_js "$JS.API." 5000000000 false.
Definition direct_ctx : js := mk_js "$JS.API." 5000000000 true.

(** A JetStream subscription in push mode and one in pull mode, and a
    delivered message. *)
Definition push_sub : Subscription :=
  mk_Subscription "d.C" _EMPTY_ None (Some 0%nat) true
    (Some (mk_jsSub ctx "C" "S" "d.C" 0)).
Definition pull_sub : Subscription :=
  mk_Subscription "_INBOX.1" _EMPTY_ None (Some 0%nat) true
    (Some (mk_jsSub ctx "P" "S" _EMPTY_ 10)).
Definition delivered (reply : string) (sub : option Subscription) : Msg :=
  mk_Msg "orders" reply None "payload" sub.

Definition ack_subject : string :=
  "$JS.ACK.S.C.1.22.3.1600000000000000000.0".

End Sample.

(** ** A scripted peer for the management calls *)

Module SampleManager.

Definition account_body : string :=
  "{" ++ Sample.field "memory" "0" ++ "," ++ Sample.field "storage" "0"
      ++ "," ++ Sample.field "streams" "1" ++ "}".

Definition account_value : AccountInfoResponse :=
  mk_AccountInfoResponse Sample.no_error
    (Some (mk_AccountStats 0 0 1 (mk_AccountLimits 0 0 0 0))).

Definition accounts : gmap string AccountInfoResponse :=
  <[account_body := account_value]>
  (<[Sample.error_body 503 "jetstream not enabled" :=
       mk_AccountInfoResponse
         (Sample.error_value 503 "jetstream not enabled") None]>
  (<[Sample.error_body 500 "internal error" :=
       mk_AccountInfoResponse (Sample.error_value 500 "internal error")
         None]> ∅)).

Definition ORD_config : StreamConfig :=
  mk_StreamConfig "ORD" ["orders"] Policy.LimitsPolicy 0 0 0
    Policy.DiscardOld 0 0 Policy.FileStorage 1 false _EMPTY_ 0.

Definition ORD_info : StreamInfo :=
  mk_StreamInfo ORD_config Sample.zero_time
    (mk_StreamState 0 0 0 Sample.zero_time 0 Sample.zero_time 0).

Definition stream_body (name : string) : string :=
  "{" ++ Sample.field "config"
           ("{" ++ Sample.field "name" (Sample.jsonString name) ++ "}")
      ++ "}".

(** An answer that holds a type and nothing else. *)
Definition bare_body : string :=
  "{" ++ Sample.field "type" (Sample.jsonString "stream_create_response")
      ++ "}".

Definition created : gmap string JSApiStreamCreateResponse :=
  <[stream_body "ORD" :=
      mk_JSApiStreamCreateResponse Sample.no_error (Some ORD_info)]>
  (<[bare_body :=
       mk_JSApiStreamCreateResponse
         (mk_ApiResponse "stream_create_response" None) None]>
  (<[Sample.error_body 400 "stream name already in use" :=
       mk_JSApiStreamCreateResponse
         (Sample.error_value 400 "stream name already in use") None]> ∅)).

Definition infos : gmap string JSApiStreamInfoResponse :=
  <[stream_body "ORD" :=
      mk_JSApiStreamInfoResponse Sample.no_error (Some ORD_info)]> ∅.

Definition encode_nil_config (stream : string) : res string :=
  OK ("{" ++ Sample.field "stream_name" (Sample.jsonString stream) ++ ","
          ++ Sample.field "config" "null" ++ "}").

Definition encode_config (cfg : StreamConfig) : res string :=
  OK ("{" ++ Sample.field "name" (Sample.jsonString (sc_Name cfg)) ++ "}").

Definition mjson : JSONManager :=
  mk_JSONManager (Sample.decode accounts) encode_nil_config encode_config
    (Sample.decode created) (Sample.decode infos).

(** A consumer answer that holds a type and nothing else, and the
    decoder that reads it. *)
Definition bare_consumer_body : string :=
  "{" ++ Sample.field "type" (Sample.jsonString "consumer_info_response")
      ++ "}".

Definition bare_consumers : gmap string JSApiConsumerResponse :=
  <[bare_consumer_body :=
      mk_JSApiConsumerResponse
        (mk_ApiResponse "consumer_info_response" None) None]> ∅.

Definition json_bare : JSON :=
  mk_JSON (Sample.decode Sample.acks) (Sample.decode bare_consumers)
    (Sample.decode Sample.names) Sample.encode_create Sample.encode_stream
    Sample.encode_next.

(** [json.Marshal] on the names of the policies: the name between double
    quotes. *)
Definition encode_name (s : string) : res string :=
  OK (Policy.jsonString s).

End SampleManager.

(** ** Vocabulary of the statements *)

(** The run from [tr] to [tr'] made one publish request, and [r] is what
    the transport answered. *)
Definition answered (nc : Conn) (tr tr' : Trace) (r : res Msg) : Prop :=
  (exists (m : Msg) (ttl : Duration),
     tr' = (tr ++ [EvRequestMsg m ttl])%list /\
     r = conn_RequestMsg nc tr m ttl) \/
  (exists (m : Msg) (ctx : option Context),
     tr' = (tr ++ [EvRequestMsgWithContext ctx m])%list /\
     r = conn_RequestMsgWithContext nc tr ctx m).

Definition is_Request (ev : Event) : bool :=
  match ev with
  | EvRequest _ _ _ => true
  | _ => false
  end.

Definition is_Subscribe (ev : Event) : bool :=
  match ev with
  | EvSubscribe _ _ _ _ _ => true
  | _ => false
  end.

(** Every run of [m] only adds transport calls, all of them in [P]. *)
Definition emits {A : Type} (P : Event -> Prop) (m : M A) : Prop :=
  forall tr : Trace,
    exists evs : list Event, snd (m tr) = (tr ++ evs)%list /\ Forall P evs.

(** Every run of [m] first makes the call [ev], and after it only calls
    in [P]. *)
Definition starts_with {A : Type} (P : Event -> Prop) (ev : Event) (m : M A)
    : Prop :=
  forall tr : Trace,
    exists rest : list Event,
      snd (m tr) = (tr ++ ev :: rest)%list /\ Forall P rest.

(** The three failures of the create request: the request itself failed
    (no responders read as JetStream not enabled), its answer does not
    decode, or its answer carries a server error. *)
Definition create_failure (json : JSON) (ans : res Msg) : option error :=
  match ans with
  | Fail e => Some (noResponders_as e ErrJetStreamNotEnabled)
  | OK resp =>
      match Unmarshal_ConsumerResponse json (msg_Data resp) with
      | Fail e => Some e
      | OK info =>
          match api_Error (cr_ApiResponse info) with
          | Some e => Some (errors_New (err_Description e))
          | None => None
          end
      end
  end.

(** The transport call [ev] publishes or requests on [subject]. *)
Definition addressed_to (subject : string) (ev : Event) : Prop :=
  match ev with
  | EvPublish s _ => s = subject
  | EvPublishRequest s _ _ => s = subject
  | EvRequest s _ _ => s = subject
  | _ => False
  end.

(** What a publish writes under the header [k], if anything: the message
    id, the expected last message id, the expected stream and the
    expected last sequence, each under its own name and only when set. *)
Definition stamped (o : pubOpts) (k : string) : option (list string) :=
  if decide (k = MsgIdHdr) then
    if decide (po_id o = _EMPTY_) then None else Some [po_id o]
  else if decide (k = ExpectedLastMsgIdHdr) then
    if decide (po_lid o = _EMPTY_) then None else Some [po_lid o]
  else if decide (k = ExpectedStreamHdr) then
    if decide (po_str o = _EMPTY_) then None else Some [po_str o]
  else if decide (k = ExpectedLastSeqHdr) then
    if decide (0 < po_seq o) then Some [FormatUint (po_seq o)] else None
  else None.

(** [var o pubOpts] *)
Definition pubOpts0 : pubOpts :=
  mk_pubOpts None 0 _EMPTY_ _EMPTY_ _EMPTY_ 0.

(** A name made of small letters and underscores, which JSON writes as
    it is. *)
Definition plain_byte (c : ascii) : bool :=
  let n := byte_val c in
  ((97 <=? n) && (n <=? 122)) || (n =? 95).

Fixpoint plain (s : string) : bool :=
  match s with
  | EmptyString => true
  | String c s' => plain_byte c && plain s'
  end.

(** The context [JetStream] starts from. *)
Definition js0 : js := mk_js JSDefaultAPIPrefix defaultRequestWait false.

(** An encoder and a decoder of a policy undo each other: the bytes a
    policy is written as are exactly the bytes read as that policy,
    whatever policy was held before. *)
Definition inverse_codecs (enc : Z -> Policy.encoded)
    (dec : Z -> string -> Z * option Policy.codec_error) : Prop :=
  forall (p q : Z) (data : string),
    enc p = Policy.Bytes data <-> dec q data = (p, None).


(** A decoder that fails leaves the policy held as it was, and reports
    the bytes it could not read. *)
Definition keeps_on_error
    (dec : Z -> string -> Z * option Policy.codec_error) : Prop :=
  forall (p q : Z) (data : string) (e : Policy.codec_error),
    dec q data = (p, Some e) ->
    p = q /\ e = Policy.Errorf_q "can not unmarshal %q" data.

(** An encoder writes the policies in [values] and no other. *)
Definition encodes_exactly (enc : Z -> Policy.encoded) (values : list Z)
    : Prop :=
  forall p : Z, (exists data : string, enc p = Policy.Bytes data) <-> p ∈ values.

(** An answer about a consumer that decodes and holds neither a server
    error nor a consumer info. *)
Definition bare_answer (json : JSON) (resp : Msg) : Prop :=
  exists info : JSApiConsumerResponse,
    Unmarshal_ConsumerResponse json (msg_Data resp) = OK info /\
    api_Error (cr_ApiResponse info) = None /\
    cr_ConsumerInfo info = None.

(** The transport call [ev] stays within the context [c]: a request or a
    publish-request is made on a subject under the prefix of the context,
    a request within its wait, and nothing else is sent. *)
Definition within_context (c : js) (ev : Event) : Prop :=
  match ev with
  | EvRequest s _ t => String.prefix (js_pre c) s = true /\ t = js_wait c
  | EvPublishRequest s _ _ => String.prefix (js_pre c) s = true
  | EvSubscribe _ _ _ _ _ => True
  | EvUnsubscribe _ => True
  | EvNewInbox => True
  | EvRequestMsg _ _ => False
  | EvRequestMsgWithContext _ _ => False
  | EvPublish _ _ => False
  end.

(** * Properties *)

#[local] Arguments String.append !s1 s2 : simpl nomatch.

(** ** [parseNum] *)

Section ParseNum.

Lemma wrap_congr (a b : Z) :
  a mod Int64.modulus = b mod Int64.modulus -> Int64.wrap a = Int64.wrap b.
Proof.
  intros H. unfold Int64.wrap.
  rewrite <- (Zplus_mod_idemp_l a), <- (Zplus_mod_idemp_l b), H.
  reflexivity.
Qed.

Lemma wrap_mod (a : Z) : Int64.wrap a mod Int64.modulus = a mod Int64.modulus.
Proof.
  unfold Int64.wrap.
  rewrite Zminus_mod, Zmod_mod, <- Zminus_mod.
  f_equal. lia.
Qed.

Lemma to_uint64_wrap (a : Z) :
  Int64.to_uint64 (Int64.wrap a) = a mod Int64.modulus.
Proof. apply wrap_mod. Qed.

Lemma wrap_small (a : Z) :
  - Int64.half <= a < Int64.half -> Int64.wrap a = a.
Proof.
  intros H. unfold Int64.wrap.
  rewrite Z.mod_small; [lia|].
  unfold Int64.modulus, Int64.half in *. lia.
Qed.

Lemma decimal_from_congr (d : string) (a b : Z) :
  a mod Int64.modulus = b mod Int64.modulus ->
  decimal_from d a mod Int64.modulus = decimal_from d b mod Int64.modulus.
Proof.
  revert a b. induction d as [|c d IH]; intros a b H; simpl; [exact H|].
  apply IH.
  rewrite (Zplus_mod (a * 10)), (Zplus_mod (b * 10)).
  rewrite (Zmult_mod a), (Zmult_mod b), H. reflexivity.
Qed.

Lemma parseNum_loop_digits (d : string) (n : Z) :
  all_digits d = true ->
  parseNum_loop d n mod Int64.modulus = decimal_from d n mod Int64.modulus.
Proof.
  revert n. induction d as [|c d IH]; intros n H; simpl in *; [reflexivity|].
  apply andb_true_iff in H as [Hc Hd].
  unfold is_digit in Hc. apply andb_true_iff in Hc as [H0 H9].
  replace (byte_val c <? asciiZero) with false by (symmetry; lia).
  replace (asciiNine <? byte_val c) with false by (symmetry; lia).
  simpl. rewrite IH by exact Hd.
  apply decimal_from_congr.
  unfold Int64.add, Int64.mul. rewrite wrap_mod.
  rewrite Zplus_mod, wrap_mod, <- Zplus_mod. reflexivity.
Qed.

Lemma parseNum_loop_range (d : string) (n : Z) :
  - Int64.half <= n < Int64.half ->
  - Int64.half <= parseNum_loop d n < Int64.half.
Proof.
  revert n. induction d as [|c d IH]; intros n H; simpl; [exact H|].
  destruct ((byte_val c <? asciiZero) || (asciiNine <? byte_val c)).
  - unfold Int64.half. lia.
  - apply IH. unfold Int64.add, Int64.wrap.
    pose proof (Z.mod_pos_bound
                  (Int64.wrap (n * 10) + (byte_val c - asciiZero) + Int64.half)
                  Int64.modulus) as Hb.
    unfold Int64.mul, Int64.modulus, Int64.half in *. lia.
Qed.

Lemma parseNum_loop_nondigit (d : string) (n : Z) :
  all_digits d = false -> parseNum_loop d n = -1.
Proof.
  revert n. induction d as [|c d IH]; intros n H; simpl in *; [discriminate|].
  destruct ((byte_val c <? asciiZero) || (asciiNine <? byte_val c)) eqn:E;
    [reflexivity|].
  apply IH. apply orb_false_iff in E as [E0 E9].
  unfold is_digit in H.
  replace (asciiZero <=? byte_val c) with true in H by (symmetry; lia).
  replace (byte_val c <=? asciiNine) with true in H by (symmetry; lia).
  exact H.
Qed.

Lemma parseNum_unparseable (d : string) : unparseable d -> parseNum d = -1.
Proof.
  intros [-> | H]; [reflexivity|].
  destruct d as [|c d]; [discriminate|].
  change (parseNum_loop (String c d) 0 = -1).
  apply parseNum_loop_nondigit, H.
Qed.

Lemma parseNum_digits (d : string) :
  d <> _EMPTY_ -> all_digits d = true ->
  parseNum d = Int64.wrap (decimal d).
Proof.
  intros Hne Hd. destruct d as [|c d]; [exfalso; apply Hne; reflexivity|].
  change (parseNum_loop (String c d) 0 = Int64.wrap (decimal (String c d))).
  rewrite <- (wrap_small (parseNum_loop _ 0)).
  - apply wrap_congr, parseNum_loop_digits, Hd.
  - apply parseNum_loop_range. unfold Int64.half. lia.
Qed.

End ParseNum.

(** ** Tokenizing: the index loop of [MetaData] splits on the separator *)

Section Tokenize.

Local Open Scope nat_scope.

Lemma append_nil_r (s : string) : (s ++ EmptyString)%string = s.
Proof. induction s as [|c s IH]; simpl; [reflexivity | now rewrite IH]. Qed.

Lemma append_assoc (a b c : string) :
  ((a ++ b) ++ c)%string = (a ++ b ++ c)%string.
Proof. induction a as [|x a IH]; simpl; [reflexivity | now rewrite IH]. Qed.

Lemma append_snoc (pre rest : string) (c : ascii) :
  ((pre ++ String c EmptyString) ++ rest)%string
  = (pre ++ String c rest)%string.
Proof. now rewrite append_assoc. Qed.

Lemma length_snoc (pre : string) (c : ascii) :
  String.length (pre ++ String c EmptyString) = S (String.length pre).
Proof. induction pre as [|x pre IH]; simpl; [reflexivity | now rewrite IH]. Qed.

Lemma get_after (pre rest : string) (c : ascii) :
  String.get (String.length pre) (pre ++ String c rest) = Some c.
Proof. induction pre as [|x pre IH]; simpl; [reflexivity | exact IH]. Qed.

Lemma substring_0 (n : nat) (s : string) : substring n 0 s = EmptyString.
Proof.
  revert n. induction s as [|c s IH]; intros [|n]; simpl; try reflexivity.
  apply IH.
Qed.

Lemma substring_succ (s : string) (n m : nat) :
  substring n (S m) s
  = (substring n m s
     ++ match String.get (n + m) s with
        | Some c => String c EmptyString
        | None => EmptyString
        end)%string.
Proof.
  revert n m. induction s as [|c s IH]; intros n m.
  - destruct n, m; reflexivity.
  - destruct n as [|n].
    + destruct m as [|m]; simpl.
      * now rewrite substring_0.
      * f_equal. apply (IH 0 m).
    + simpl. apply IH.
Qed.

Lemma slice_extend (pre rest : string) (c : ascii) (start : nat) :
  start <= String.length pre ->
  slice (pre ++ String c rest) start (S (String.length pre))
  = (slice (pre ++ String c rest) start (String.length pre)
     ++ String c EmptyString)%string.
Proof.
  intros H. unfold slice.
  replace (S (String.length pre) - start)
    with (S (String.length pre - start)) by lia.
  rewrite substring_succ.
  replace (start + (String.length pre - start)) with (String.length pre)
    by lia.
  now rewrite get_after.
Qed.

Lemma slice_empty (s : string) (i : nat) : slice s i i = EmptyString.
Proof. unfold slice. rewrite Nat.sub_diag. apply substring_0. Qed.

(** The loop invariant: with [pre] read and [rest] to go, the tokens
    found at the end are those found so far followed by the split of
    [rest] continuing the token [subject[start:i]]. *)
Lemma token_loop_split (rest pre : string) (start : nat)
    (tokens : list string) :
  start <= String.length pre ->
  (let '(start', tokens') :=
     token_loop (pre ++ rest) (String.length rest) (String.length pre)
       start tokens in
   tokens' ++ [slice (pre ++ rest) start' (String.length (pre ++ rest))])%list
  = (tokens
     ++ split_from (slice (pre ++ rest) start (String.length pre)) rest)%list.
Proof.
  revert pre start tokens.
  induction rest as [|c rest IH]; intros pre start tokens Hs.
  - simpl. now rewrite append_nil_r.
  - simpl token_loop. simpl split_from.
    rewrite get_after.
    pose proof (IH (pre ++ String c EmptyString)%string) as IH'.
    rewrite append_snoc, length_snoc in IH'.
    destruct (decide (Some c = Some btsep)) as [E|E];
      destruct (decide (c = btsep)) as [E'|E']; try congruence.
    + rewrite IH' by lia. rewrite slice_empty.
      now rewrite <- app_assoc.
    + rewrite IH' by lia. now rewrite slice_extend.
Qed.

Lemma tokenize_split (subject : string) :
  tokenize subject = split_from EmptyString subject.
Proof.
  unfold tokenize.
  pose proof (token_loop_split subject EmptyString 0 [] (Nat.le_refl 0)) as H.
  simpl in H. destruct (token_loop subject _ 0 0 []) as [start tokens].
  rewrite H. now rewrite slice_empty.
Qed.

Lemma split_from_nonempty (cur rest : string) : split_from cur rest <> [].
Proof.
  revert cur. induction rest as [|c rest IH]; intros cur; simpl.
  - discriminate.
  - destruct (decide (c = btsep)); [discriminate | apply IH].
Qed.

Lemma split_from_join (cur rest : string) :
  join_dots (split_from cur rest) = (cur ++ rest)%string.
Proof.
  revert cur. induction rest as [|c rest IH]; intros cur; simpl.
  - now rewrite append_nil_r.
  - destruct (decide (c = btsep)) as [->|E].
    + pose proof (split_from_nonempty EmptyString rest) as Hne.
      specialize (IH EmptyString). unfold join_dots in *. simpl.
      destruct (split_from EmptyString rest); [congruence|].
      rewrite IH. reflexivity.
    + rewrite IH. apply append_snoc.
Qed.

Lemma dot_free_snoc (cur : string) (c : ascii) :
  dot_free cur = true -> c <> btsep ->
  dot_free (cur ++ String c EmptyString) = true.
Proof.
  intros H E. induction cur as [|x cur IH]; simpl in *.
  - rewrite bool_decide_eq_false_2 by exact E. reflexivity.
  - apply andb_true_iff in H as [Hx Hc]. rewrite Hx. now apply IH.
Qed.

Lemma split_from_dot_free (cur rest : string) :
  dot_free cur = true ->
  Forall (fun t => dot_free t = true) (split_from cur rest).
Proof.
  revert cur. induction rest as [|c rest IH]; intros cur H; simpl.
  - now constructor.
  - destruct (decide (c = btsep)) as [->|E].
    + constructor; [exact H | now apply IH].
    + apply IH, dot_free_snoc; assumption.
Qed.

Lemma split_from_token (t cur rest : string) :
  dot_free t = true ->
  split_from cur (t ++ rest) = split_from (cur ++ t) rest.
Proof.
  revert cur. induction t as [|c t IH]; intros cur H; simpl in *.
  - now rewrite append_nil_r.
  - apply andb_true_iff in H as [Hc Ht].
    apply negb_true_iff, bool_decide_eq_false in Hc.
    destruct (decide (c = btsep)); [contradiction|].
    rewrite IH by exact Ht. now rewrite append_snoc.
Qed.

(** Splitting undoes joining: tokens without a separator come back. *)
Lemma split_join (ts : list string) :
  ts <> [] -> Forall (fun t => dot_free t = true) ts ->
  split_from EmptyString (join_dots ts) = ts.
Proof.
  induction ts as [|t ts IH]; intros Hne Hall; [congruence|].
  inversion Hall as [|? ? Ht Hts]; subst.
  destruct ts as [|t2 ts].
  - unfold join_dots. simpl.
    rewrite <- (append_nil_r t) at 1.
    now rewrite split_from_token.
  - change (join_dots (t :: t2 :: ts))
      with (t ++ String btsep (join_dots (t2 :: ts)))%string.
    rewrite split_from_token by exact Ht. simpl.
    destruct (decide (btsep = btsep)); [|congruence].
    f_equal. apply IH; [discriminate | exact Hts].
Qed.

Lemma tokenize_join (ts : list string) :
  ts <> [] -> Forall (fun t => dot_free t = true) ts ->
  tokenize (join_dots ts) = ts.
Proof. intros. rewrite tokenize_split. now apply split_join. Qed.

Lemma join_tokenize (subject : string) :
  join_dots (tokenize subject) = subject.
Proof. rewrite tokenize_split. apply split_from_join. Qed.

Lemma tokenize_dot_free (subject : string) :
  Forall (fun t => dot_free t = true) (tokenize subject).
Proof. rewrite tokenize_split. now apply split_from_dot_free. Qed.

End Tokenize.

(** ** The ack codec *)

Section AckCodec.

Variable nc : Conn.

Lemma unparseableb_spec (t : string) :
  unparseableb t = true <-> unparseable t.
Proof.
  unfold unparseableb, unparseable.
  rewrite orb_true_iff, bool_decide_eq_true, negb_true_iff. reflexivity.
Qed.

Lemma parseNum_decoded_time (t : string) : parseNum t = decoded_time t.
Proof.
  unfold decoded_time. destruct (unparseableb t) eqn:E.
  - apply parseNum_unparseable, unparseableb_spec, E.
  - unfold unparseableb in E. apply orb_false_iff in E as [E1 E2].
    apply bool_decide_eq_false in E1. apply negb_false_iff in E2.
    now apply parseNum_digits.
Qed.

Lemma parseNum_decoded_count (t : string) :
  Int64.to_uint64 (parseNum t) = decoded_count t.
Proof.
  rewrite parseNum_decoded_time. unfold decoded_time, decoded_count.
  destruct (unparseableb t); [reflexivity | apply to_uint64_wrap].
Qed.

(** A message that passes [checkReply]: it has a reply subject and its
    subscription carries a JetStream binding. *)
Lemma checkReply_OK (m : Msg) (js : js) (isPullMode : bool) :
  checkReply (Some m) = Some (OK (js, isPullMode)) <->
  msg_Reply m <> _EMPTY_ /\
  exists sub jsi,
    msg_Sub m = Some sub /\ sub_jsi sub = Some jsi /\
    js = jsi_js jsi /\ isPullMode = (0 <? jsi_pull jsi).
Proof.
  unfold checkReply, str_eqb. simpl.
  destruct (bool_decide (msg_Reply m = _EMPTY_)) eqn:E.
  - apply bool_decide_eq_true in E. split; [discriminate|].
    intros [Hne _]. contradiction.
  - apply bool_decide_eq_false in E.
    destruct (msg_Sub m) as [sub|]; simpl.
    + destruct (sub_jsi sub) as [jsi|] eqn:Ej.
      * split.
        -- intros [= <- <-]. split; [exact E|].
           exists sub, jsi. repeat split; [exact Ej].
        -- intros (_ & sub' & jsi' & [= <-] & Hj & -> & ->).
           rewrite Ej in Hj. now injection Hj as <-.
      * split; [discriminate|].
        intros (_ & sub' & jsi' & [= <-] & Hj & _). congruence.
    + split; [discriminate|].
      intros (_ & sub' & jsi' & ? & _). discriminate.
Qed.

Lemma checkReply_no_reply (m : Msg) :
  msg_Reply m = _EMPTY_ -> checkReply (Some m) = Some (Fail ErrMsgNoReply).
Proof.
  intros H. unfold checkReply, str_eqb.
  now rewrite bool_decide_eq_true_2.
Qed.

Lemma checkReply_not_bound (m : Msg) :
  checkReply (Some m) = Some (Fail ErrMsgNotBound) <->
  msg_Reply m <> _EMPTY_ /\ msg_Sub m = None.
Proof.
  unfold checkReply, str_eqb. simpl.
  destruct (bool_decide (msg_Reply m = _EMPTY_)) eqn:E.
  - apply bool_decide_eq_true in E. split; [discriminate|].
    intros [Hne _]. contradiction.
  - apply bool_decide_eq_false in E.
    destruct (msg_Sub m) as [sub|]; simpl.
    + destruct (sub_jsi sub); (split; [discriminate | intros [_ ?]; discriminate]).
    + split; [intros _; now split | reflexivity].
Qed.

(** An acknowledgment stops at the error of [checkReply], before any
    transport call. *)
Lemma ackReply_checkReply_error (m : Msg) (err : error) (ackType : string)
    (sync : bool) (tr : Trace) :
  checkReply (Some m) = Some (Fail err) ->
  ackReply nc (Some m) ackType sync tr = (Some (Some err), tr).
Proof. intros H. unfold ackReply, bind, lift. rewrite H. reflexivity. Qed.

Lemma MetaData_checkReply_error (m : Msg) (err : error) :
  checkReply (Some m) = Some (Fail err) ->
  MetaData (Some m) = Some (Fail err).
Proof. intros H. unfold MetaData. rewrite H. reflexivity. Qed.

End AckCodec.

(** C9.  A message whose reply subject is empty gets the missing-reply
    error from every acknowledgment operation and from [MetaData],
    whether or not it is bound to a subscription, and with no transport
    call; [checkReply] answers with the not-bound error exactly for the
    messages that have a reply subject and no subscription, and on those
    the operations return it. *)
Theorem C9_missing_reply_is_checked_first (nc : Conn) (m : Msg) (tr : Trace) :
  (msg_Reply m = _EMPTY_ ->
   Ack nc (Some m) tr = (Some (Some ErrMsgNoReply), tr) /\
   AckSync nc (Some m) tr = (Some (Some ErrMsgNoReply), tr) /\
   Nak nc (Some m) tr = (Some (Some ErrMsgNoReply), tr) /\
   Term nc (Some m) tr = (Some (Some ErrMsgNoReply), tr) /\
   InProgress nc (Some m) tr = (Some (Some ErrMsgNoReply), tr) /\
   MetaData (Some m) = Some (Fail ErrMsgNoReply)) /\
  (checkReply (Some m) = Some (Fail ErrMsgNotBound) <->
   msg_Reply m <> _EMPTY_ /\ msg_Sub m = None) /\
  (msg_Reply m <> _EMPTY_ -> msg_Sub m = None ->
   Ack nc (Some m) tr = (Some (Some ErrMsgNotBound), tr) /\
   AckSync nc (Some m) tr = (Some (Some ErrMsgNotBound), tr) /\
   Nak nc (Some m) tr = (Some (Some ErrMsgNotBound), tr) /\
   Term nc (Some m) tr = (Some (Some ErrMsgNotBound), tr) /\
   InProgress nc (Some m) tr = (Some (Some ErrMsgNotBound), tr) /\
   MetaData (Some m) = Some (Fail ErrMsgNotBound)).
Proof.
  split; [|split].
  - intros H. apply checkReply_no_reply in H.
    unfold Ack, AckSync, Nak, Term, InProgress.
    repeat split;
      first [ now apply ackReply_checkReply_error
            | now apply MetaData_checkReply_error ].
  - apply checkReply_not_bound.
  - intros Hr Hs.
    assert (checkReply (Some m) = Some (Fail ErrMsgNotBound)) as H
      by now apply checkReply_not_bound.
    unfold Ack, AckSync, Nak, Term, InProgress.
    repeat split;
      first [ now apply ackReply_checkReply_error
            | now apply MetaData_checkReply_error ].
Qed.

(** An unbound message without a reply subject: the missing-reply error. *)
Lemma C9_witness :
  Ack (Sample.peer ∅) (Some (Sample.delivered _EMPTY_ None)) []
  = (Some (Some ErrMsgNoReply), []).
Proof.
  apply (C9_missing_reply_is_checked_first (Sample.peer ∅)
           (Sample.delivered _EMPTY_ None) []).
  reflexivity.
Defined.

(** C10.  On a message of a pull-mode JetStream subscription with a
    reply subject, [InProgress] makes no transport call and returns nil. *)
Theorem C10_in_progress_is_dropped_in_pull_mode (nc : Conn) (m : Msg)
    (sub : Subscription) (jsi : jsSub) (tr : Trace) :
  msg_Reply m <> _EMPTY_ ->
  msg_Sub m = Some sub ->
  sub_jsi sub = Some jsi ->
  0 < jsi_pull jsi ->
  InProgress nc (Some m) tr = (Some None, tr).
Proof.
  intros Hr Hs Hj Hp.
  assert (checkReply (Some m) = Some (OK (jsi_js jsi, true))) as H.
  { apply checkReply_OK. split; [exact Hr|].
    exists sub, jsi. repeat split; try assumption.
    symmetry. now apply Z.ltb_lt. }
  unfold InProgress, ackReply, bind, lift. rewrite H. simpl.
  rewrite Hs. reflexivity.
Qed.

Lemma C10_witness :
  InProgress (Sample.peer ∅)
    (Some (Sample.delivered Sample.ack_subject (Some Sample.pull_sub))) []
  = (Some None, []).
Proof.
  apply (C10_in_progress_is_dropped_in_pull_mode (Sample.peer ∅) _
           Sample.pull_sub (mk_jsSub Sample.ctx "P" "S" _EMPTY_ 10)).
  - discriminate.
  - reflexivity.
  - reflexivity.
  - simpl. lia.
Defined.

(** C6.  On a message of a JetStream subscription with a reply subject:
    in pull mode [Ack] publishes the next-message request [AckNext] to
    the reply subject, [Nak] and [Term] publish the request for a batch
    of one, none of them the signal bytes, and [AckSync] follows its
    publish, when that went through, by a request on the reply subject
    bounded by the context's wait; in push mode the signal bytes
    themselves go to the reply subject, by a publish or, for the
    synchronous variant, by a request bounded by the context's wait. *)
Theorem C6_ack_encoding (nc : Conn) (m : Msg) (sub : Subscription)
    (jsi : jsSub) (tr : Trace) :
  msg_Reply m <> _EMPTY_ ->
  msg_Sub m = Some sub ->
  sub_jsi sub = Some jsi ->
  let reply := msg_Reply m in
  let inbox := sub_Subject sub in
  let wait := js_wait (jsi_js jsi) in
  let next := EvPublishRequest reply inbox AckNext in
  let next1 := EvPublishRequest reply inbox NextBatch1 in
  (0 < jsi_pull jsi ->
   Ack nc (Some m) tr
   = (Some (conn_PublishRequest nc tr reply inbox AckNext), (tr ++ [next])%list) /\
   Nak nc (Some m) tr
   = (Some (conn_PublishRequest nc tr reply inbox NextBatch1), (tr ++ [next1])%list) /\
   Term nc (Some m) tr
   = (Some (conn_PublishRequest nc tr reply inbox NextBatch1), (tr ++ [next1])%list) /\
   AckSync nc (Some m) tr
   = match conn_PublishRequest nc tr reply inbox AckNext with
     | Some err => (Some (Some err), (tr ++ [next])%list)
     | None =>
         (Some (res_err (conn_Request nc ((tr ++ [next])%list) reply _EMPTY_ wait)),
          (tr ++ [next; EvRequest reply _EMPTY_ wait])%list)
     end /\
   AckNext <> AckAck /\ NextBatch1 <> AckNak /\ NextBatch1 <> AckTerm) /\
  (jsi_pull jsi <= 0 ->
   forall ackType : string,
     ackReply nc (Some m) ackType false tr
     = (Some (conn_Publish nc tr reply ackType), (tr ++ [EvPublish reply ackType])%list)
     /\
     ackReply nc (Some m) ackType true tr
     = (Some (res_err (conn_Request nc tr reply ackType wait)),
        (tr ++ [EvRequest reply ackType wait])%list)).
Proof.
  intros Hr Hs Hj reply inbox wait next next1.
  split.
  - intros Hp.
    assert (checkReply (Some m) = Some (OK (jsi_js jsi, true))) as H.
    { apply checkReply_OK. split; [exact Hr|].
      exists sub, jsi. repeat split; try assumption.
      symmetry. now apply Z.ltb_lt. }
    unfold Ack, AckSync, Nak, Term, ackReply, bind, lift.
    rewrite H. simpl. rewrite Hs. simpl.
    repeat split; try discriminate.
    fold reply inbox.
    destruct (conn_PublishRequest nc tr reply inbox AckNext); simpl.
    + reflexivity.
    + now rewrite <- app_assoc.
  - intros Hp ackType.
    assert (checkReply (Some m) = Some (OK (jsi_js jsi, false))) as H.
    { apply checkReply_OK. split; [exact Hr|].
      exists sub, jsi. repeat split; try assumption.
      symmetry. now apply Z.ltb_ge. }
    unfold ackReply, bind, lift. rewrite H. simpl. split; reflexivity.
Qed.

(** [Nak] on a message of a pull-mode subscription. *)
Lemma C6_witness :
  Nak (Sample.peer ∅)
    (Some (Sample.delivered Sample.ack_subject (Some Sample.pull_sub))) []
  = (Some None,
     [EvPublishRequest Sample.ack_subject "_INBOX.1" NextBatch1]).
Proof.
  apply (C6_ack_encoding (Sample.peer ∅)
           (Sample.delivered Sample.ack_subject (Some Sample.pull_sub))
           Sample.pull_sub (mk_jsSub Sample.ctx "P" "S" _EMPTY_ 10) []).
  - discriminate.
  - reflexivity.
  - reflexivity.
  - simpl. lia.
Defined.

(** What [MetaData] returns on a message that passes [checkReply], by
    the tokens of its reply subject. *)
Lemma MetaData_tokens (m : Msg) (x : js * bool) (ts : list string) :
  checkReply (Some m) = Some (OK x) ->
  tokenize (msg_Reply m) = ts ->
  MetaData (Some m) =
  match ts with
  | [t0; t1; t2; t3; t4; t5; t6; t7; t8] =>
      if str_eqb t0 "$JS" && str_eqb t1 "ACK" then
        Some (OK {| md_Consumer := decoded_count t6;
                    md_Stream := decoded_count t5;
                    md_Delivered := decoded_count t4;
                    md_Pending := decoded_count t8;
                    md_Timestamp := decoded_time t7 |})
      else Some (Fail ErrNotJSMessage)
  | _ => Some (Fail ErrNotJSMessage)
  end.
Proof.
  intros H Ht. unfold MetaData. rewrite H, Ht.
  destruct ts as [|t0 [|t1 [|t2 [|t3 [|t4 [|t5 [|t6 [|t7 [|t8 [|t9 ts]]]]]]]]]];
    try reflexivity.
  unfold token, str_neqb. simpl.
  destruct (str_eqb t0 "$JS"), (str_eqb t1 "ACK"); simpl; try reflexivity.
  now rewrite !parseNum_decoded_count, parseNum_decoded_time.
Qed.

(** C2, as the code has it.  For a message of a JetStream subscription
    with a reply subject, [MetaData] splits the reply subject on the
    separator and fails with the not-a-JetStream-message error unless
    there are exactly 9 tokens starting with $JS and ACK; otherwise the
    tokens at positions 4 to 8 give the delivered count, the stream
    sequence, the consumer sequence, the timestamp and the pending count,
    each the number its digits denote modulo 2^64 (the timestamp wrapped
    into the signed 64-bit range); a token that is empty or holds a byte
    that is not a digit makes [parseNum] return -1 and raises no error:
    the unsigned fields then hold the conversion of -1, 2^64 - 1, and the
    timestamp holds -1 nanoseconds. *)
Theorem C2_metadata_decoding (m : Msg) (x : js * bool) :
  checkReply (Some m) = Some (OK x) ->
  (exists ts : list string,
     ts <> [] /\ Forall (fun t => dot_free t = true) ts /\
     msg_Reply m = join_dots ts) /\
  (forall ts : list string,
     ts <> [] -> Forall (fun t => dot_free t = true) ts ->
     msg_Reply m = join_dots ts ->
     MetaData (Some m) =
     match ts with
     | [t0; t1; t2; t3; t4; t5; t6; t7; t8] =>
         if str_eqb t0 "$JS" && str_eqb t1 "ACK" then
           Some (OK {| md_Consumer := decoded_count t6;
                       md_Stream := decoded_count t5;
                       md_Delivered := decoded_count t4;
                       md_Pending := decoded_count t8;
                       md_Timestamp := decoded_time t7 |})
         else Some (Fail ErrNotJSMessage)
     | _ => Some (Fail ErrNotJSMessage)
     end) /\
  (forall t : string,
     unparseable t ->
     parseNum t = -1 /\
     decoded_count t = 18446744073709551615 /\ decoded_time t = -1) /\
  (forall t : string,
     ~ unparseable t ->
     parseNum t = Int64.wrap (decimal t) /\
     decoded_count t = decimal t mod 2 ^ 64 /\
     decoded_time t = Int64.wrap (decimal t)).
Proof.
  intros H. repeat split.
  - exists (tokenize (msg_Reply m)). repeat split.
    + rewrite tokenize_split. apply split_from_nonempty.
    + apply tokenize_dot_free.
    + symmetry. apply join_tokenize.
  - intros ts Hne Hall Hr. apply (MetaData_tokens m x ts H).
    rewrite Hr. now apply tokenize_join.
  - now apply parseNum_unparseable.
  - apply unparseableb_spec in H0. unfold decoded_count. now rewrite H0.
  - apply unparseableb_spec in H0. unfold decoded_time. now rewrite H0.
  - rewrite parseNum_decoded_time. unfold decoded_time.
    destruct (unparseableb t) eqn:E; [|reflexivity].
    apply unparseableb_spec in E. contradiction.
  - unfold decoded_count.
    destruct (unparseableb t) eqn:E; [|reflexivity].
    apply unparseableb_spec in E. contradiction.
  - unfold decoded_time.
    destruct (unparseableb t) eqn:E; [|reflexivity].
    apply unparseableb_spec in E. contradiction.
Qed.

(** A delivered message whose reply subject has the nine tokens. *)
Lemma C2_witness :
  MetaData (Some (Sample.delivered Sample.ack_subject (Some Sample.push_sub)))
  = Some (OK {| md_Consumer := 3; md_Stream := 22; md_Delivered := 1;
                md_Pending := 0; md_Timestamp := 1600000000000000000 |}).
Proof.
  pose proof (C2_metadata_decoding
                (Sample.delivered Sample.ack_subject (Some Sample.push_sub))
                (Sample.ctx, false) eq_refl) as (_ & H & _).
  rewrite (H ["$JS"; "ACK"; "S"; "C"; "1"; "22"; "3";
              "1600000000000000000"; "0"]).
  - reflexivity.
  - discriminate.
  - repeat constructor.
  - reflexivity.
Defined.

(** The delivered count of a reply subject whose token 4 is not a number
    is 18446744073709551615, not -1. *)
Lemma C2_counterexample :
  exists md : MsgMetaData,
    MetaData (Some (Sample.delivered "$JS.ACK.S.C.x.22.3.4.0"
                      (Some Sample.push_sub)))
    = Some (OK md) /\
    md_Delivered md = 18446744073709551615 /\
    md_Delivered md <> -1.
Proof.
  eexists. split; [vm_compute; reflexivity|].
  split; [reflexivity | discriminate].
Qed.

(** ** The publish acknowledger *)

Section Publish.

Variable nc : Conn.
Variable json : JSON.

Lemma answered_unique (tr tr' : Trace) (r1 r2 : res Msg) :
  answered nc tr tr' r1 -> answered nc tr tr' r2 -> r1 = r2.
Proof.
  intros [(m1 & t1 & E1 & ->)|(m1 & c1 & E1 & ->)]
         [(m2 & t2 & E2 & ->)|(m2 & c2 & E2 & ->)];
    rewrite E1 in E2; apply app_inv_head in E2; congruence.
Qed.

Lemma Header_Set_Some (m : Msg) (k v : string) :
  msg_Header m <> None ->
  exists m' : Msg, Header_Set m k v = Some m' /\ msg_Header m' <> None.
Proof.
  intros H. unfold Header_Set. destruct (msg_Header m); [|contradiction].
  eexists. split; [reflexivity | discriminate].
Qed.

Lemma set_stage (b : bool) (m : Msg) (k v : string) (tr : Trace) :
  msg_Header m <> None ->
  exists m' : Msg,
    (if b then lift (Header_Set m k v) else ret m) tr = (Some m', tr) /\
    msg_Header m' <> None.
Proof.
  intros H. destruct b.
  - destruct (Header_Set_Some m k v H) as (m' & -> & H').
    now exists m'.
  - now exists m.
Qed.

(** A publish either stops before the transport, on an option or on the
    clash of a context with a timeout, or makes exactly one request and
    returns what [publish_result] makes of its outcome. *)
Lemma PublishMsg_run (js : js) (m : Msg) (opts : list PubOpt) (tr : Trace) :
  (exists err : error, PublishMsg nc json js m opts tr = (Some (Fail err), tr))
  \/
  (exists (tr' : Trace) (r : res Msg),
     answered nc tr tr' r /\
     PublishMsg nc json js m opts tr = (Some (publish_result json r), tr')).
Proof.
  unfold PublishMsg.
  destruct (configureAll configurePublish opts _) as [o|err] eqn:Ho;
    [|left; now exists err].
  destruct (notNil (po_ctx o) && negb (po_ttl o =? 0));
    [left; now eexists|].
  right.
  destruct opts as [|opt opts].
  - injection Ho as <-. cbn.
    destruct (0 <? js_wait js); eexists _, _; (split; [|reflexivity]).
    + left. now eexists _, _.
    + right. now eexists _, _.
  - set (m1 := if (0 <? length (opt :: opts))%nat && isNil (msg_Header m)
                then mk_Msg (msg_Subject m) (msg_Reply m) (Some ∅)
                       (msg_Data m) (msg_Sub m)
                else m).
    assert (msg_Header m1 <> None) as H1.
    { subst m1. simpl. destruct (msg_Header m) eqn:E; simpl.
      - now rewrite E.
      - discriminate. }
    clearbody m1. unfold bind.
    destruct (set_stage (str_neqb (po_id o) _EMPTY_) m1 MsgIdHdr (po_id o)
                tr H1) as (m2 & -> & H2).
    destruct (set_stage (str_neqb (po_lid o) _EMPTY_) m2
                ExpectedLastMsgIdHdr (po_lid o) tr H2) as (m3 & -> & H3).
    destruct (set_stage (str_neqb (po_str o) _EMPTY_) m3
                ExpectedStreamHdr (po_str o) tr H3) as (m4 & -> & H4).
    destruct (set_stage (0 <? po_seq o) m4 ExpectedLastSeqHdr
                (FormatUint (po_seq o)) tr H4) as (m5 & -> & H5).
    destruct (0 <? _); eexists _, _; (split; [|reflexivity]).
    + left. now eexists _, _.
    + right. now eexists _, _.
Qed.

End Publish.

(** C1, as the code has it.  When the request of a publish call is
    answered by a response: a body that does not decode fails the call
    with the invalid-acknowledgment error; a body carrying an error
    payload fails it with an error made of the server's description; a
    body without acknowledgment fields, or whose stream name is empty
    (whatever its sequence), fails it with the invalid-acknowledgment
    error; in all these cases no PubAck is returned; and every other body
    returns the PubAck it holds: stream, sequence and duplicate flag. *)
Theorem C1_publish_ack_validation (nc : Conn) (json : JSON) (js : js)
    (m : Msg) (opts : list PubOpt) (tr tr' : Trace) (r : res PubAck)
    (resp : Msg) :
  PublishMsg nc json js m opts tr = (Some r, tr') ->
  answered nc tr tr' (OK resp) ->
  let body := msg_Data resp in
  (forall err : error,
     Unmarshal_PubAckResponse json body = Fail err ->
     r = Fail ErrInvalidJSAck) /\
  (forall (pa : PubAckResponse) (e : ApiError),
     Unmarshal_PubAckResponse json body = OK pa ->
     api_Error (par_ApiResponse pa) = Some e ->
     r = Fail (errors_New (err_Description e))) /\
  (forall pa : PubAckResponse,
     Unmarshal_PubAckResponse json body = OK pa ->
     api_Error (par_ApiResponse pa) = None ->
     (par_PubAck pa = None \/
      exists ack : PubAck, par_PubAck pa = Some ack /\ pa_Stream ack = _EMPTY_) ->
     r = Fail ErrInvalidJSAck) /\
  (forall (pa : PubAckResponse) (ack : PubAck),
     Unmarshal_PubAckResponse json body = OK pa ->
     api_Error (par_ApiResponse pa) = None ->
     par_PubAck pa = Some ack ->
     pa_Stream ack <> _EMPTY_ ->
     r = OK ack).
Proof.
  intros Hrun Hans body.
  assert (r = publish_result json (OK resp)) as ->.
  { destruct (PublishMsg_run nc json js m opts tr)
      as [(err & H)|(tr2 & r2 & Ha & H)]; rewrite H in Hrun.
    - injection Hrun as _ <-.
      destruct Hans as [(? & ? & E & _)|(? & ? & E & _)];
        apply (f_equal (@length Event)) in E;
        rewrite length_app in E; simpl in E; lia.
    - injection Hrun as <- <-.
      now rewrite (answered_unique nc tr tr2 _ _ Ha Hans). }
  unfold publish_result. fold body.
  repeat split.
  - intros err ->. reflexivity.
  - intros pa e -> ->. reflexivity.
  - intros pa -> -> [->|(ack & -> & ->)]; reflexivity.
  - intros pa ack -> -> -> Hs. unfold str_eqb.
    now rewrite bool_decide_eq_false_2.
Qed.

(** The publish of the scenario: expected last sequence 5 on the subject
    orders, acknowledged by the stream ORD at sequence 6. *)
Lemma C1_witness :
  fst (Publish (Sample.peer {[ "orders" := Sample.ack_ORD_6 ]}) Sample.json
         Sample.ctx "orders" "payload" [ExpectLastSequence 5] [])
  = Some (OK (mk_PubAck "ORD" 6 false)).
Proof.
  set (nc := Sample.peer {[ "orders" := Sample.ack_ORD_6 ]}).
  destruct (Publish nc Sample.json Sample.ctx "orders" "payload"
              [ExpectLastSequence 5] []) as [[r|] tr'] eqn:E;
    [|vm_compute in E; discriminate].
  simpl. f_equal.
  eapply (C1_publish_ack_validation nc Sample.json Sample.ctx _ _ [] tr' r
            (Sample.reply_msg Sample.ack_ORD_6) E).
  - left. vm_compute in E. injection E as _ <-.
    eexists _, _. split; reflexivity.
  - reflexivity.
  - reflexivity.
  - reflexivity.
  - discriminate.
Defined.

(** A response that has a nonzero sequence and no stream name does not
    lack both, yet the call fails and returns no PubAck. *)
Lemma C1_counterexample :
  let run :=
    Publish (Sample.peer {[ "orders" := Sample.ack_seq_only ]}) Sample.json
      Sample.ctx "orders" "payload" [] [] in
  ~ (forall (pa : PubAckResponse) (ack : PubAck),
       Unmarshal_PubAckResponse Sample.json Sample.ack_seq_only = OK pa ->
       api_Error (par_ApiResponse pa) = None ->
       par_PubAck pa = Some ack ->
       ~ (pa_Stream ack = _EMPTY_ /\ pa_Sequence ack = 0) ->
       fst run = Some (OK ack)).
Proof.
  intros run H.
  specialize (H (mk_PubAckResponse Sample.no_error
                   (Some (mk_PubAck _EMPTY_ 6 false)))
                (mk_PubAck _EMPTY_ 6 false)).
  assert (fst run = Some (Fail ErrInvalidJSAck)) as E
    by (vm_compute; reflexivity).
  rewrite E in H.
  discriminate H; try reflexivity.
  intros [_ ?]. discriminate.
Qed.

(** ** Runs only add transport calls *)

Section Emits.

Context {A B : Type} (P : Event -> Prop).

Lemma emits_ret (a : A) : emits P (ret a).
Proof. intros tr. exists []. split; [now rewrite app_nil_r | constructor]. Qed.

Lemma emits_panic : emits P (@panic A).
Proof. intros tr. exists []. split; [now rewrite app_nil_r | constructor]. Qed.

Lemma emits_lift (o : option A) : emits P (lift o).
Proof. destruct o; [apply emits_ret | apply emits_panic]. Qed.

Lemma emits_call (ev : Event) (answer : Trace -> A) :
  P ev -> emits P (call ev answer).
Proof. intros H tr. exists [ev]. split; [reflexivity | now repeat constructor]. Qed.

Lemma emits_bind (m : M A) (k : A -> M B) :
  emits P m -> (forall a : A, emits P (k a)) -> emits P (bind m k).
Proof.
  intros Hm Hk tr. unfold bind.
  destruct (Hm tr) as (evs & E & HP).
  destruct (m tr) as [[a|] tr1]; simpl in E; subst tr1.
  - destruct (Hk a (tr ++ evs)%list) as (evs' & E' & HP').
    exists (evs ++ evs')%list. rewrite E', app_assoc.
    split; [reflexivity | now apply Forall_app].
  - now exists evs.
Qed.

End Emits.

Lemma emits_weaken {A : Type} (P Q : Event -> Prop) (m : M A) :
  (forall ev : Event, P ev -> Q ev) -> emits P m -> emits Q m.
Proof.
  intros H Hm tr. destruct (Hm tr) as (evs & E & HP).
  exists evs. split; [exact E|]. eapply Forall_impl; eassumption.
Qed.

(** One step of a proof that a run emits only calls in [P]. *)
Ltac emits_step :=
  match goal with
  | |- emits _ (bind _ _) => apply emits_bind; [|intros ?]
  | |- emits _ (ret _) => apply emits_ret
  | |- emits _ panic => apply emits_panic
  | |- emits _ (lift _) => apply emits_lift
  | |- emits _ (call _ _) => apply emits_call; try reflexivity
  | |- emits _ (match ?x with _ => _ end) => destruct x
  | |- emits _ (if ?b then _ else _) => destruct b
  | |- emits _ (let _ := _ in _) => cbv zeta
  end.

Section BinderRuns.

Variable nc : Conn.
Variable json : JSON.

Lemma emits_Poll (sub : Subscription) :
  emits (fun ev => is_Request ev = false /\ is_Subscribe ev = false)
    (Poll nc json sub).
Proof.
  unfold Poll, nc_PublishRequest. repeat emits_step. now split.
Qed.

Lemma emits_resolve (js : js) (subj : string) (o : subOpts) (pull : bool) :
  emits (fun ev => is_Subscribe ev = false) (resolve nc json js subj o pull).
Proof.
  unfold resolve, getConsumerInfo, lookupStreamBySubject, NewInbox, nc_Request.
  repeat emits_step.
Qed.

Lemma emits_bind_consumer (js : js) (o : subOpts) (rs : resolved)
    (sub : Subscription) :
  emits (fun ev => is_Subscribe ev = false)
    (bind_consumer nc json js o rs sub).
Proof.
  unfold bind_consumer, hold, Unsubscribe, nc_Request.
  repeat emits_step.
Qed.

Lemma starts_call {A : Type} (P : Event -> Prop) (ev : Event)
    (answer : Trace -> A) :
  starts_with P ev (call ev answer).
Proof. intros tr. exists []. split; [reflexivity | constructor]. Qed.

Lemma starts_bind {A B : Type} (P : Event -> Prop) (ev : Event) (m : M A)
    (k : A -> M B) :
  starts_with P ev m -> (forall a : A, emits P (k a)) ->
  starts_with P ev (bind m k).
Proof.
  intros Hm Hk tr. unfold bind.
  destruct (Hm tr) as (rest & E & HP).
  destruct (m tr) as [[a|] tr1]; simpl in E; subst tr1.
  - destruct (Hk a (tr ++ ev :: rest)%list) as (evs' & E' & HP').
    exists (rest ++ evs')%list. rewrite E', <- app_assoc.
    split; [reflexivity | now apply Forall_app].
  - now exists rest.
Qed.

(** Off the create path, binding the consumer makes no transport call. *)
Lemma emits_bind_consumer_attached (js : js) (o : subOpts) (rs : resolved)
    (sub : Subscription) (P : Event -> Prop) :
  shouldCreate o = false -> emits P (bind_consumer nc json js o rs sub).
Proof.
  intros H. unfold bind_consumer, hold. rewrite H. repeat emits_step.
Qed.

Lemma shouldAttach_spec (o : subOpts) :
  shouldAttach o = true <->
  (so_stream o <> _EMPTY_ /\ so_consumer o <> _EMPTY_)
  \/ cfg_DeliverSubject (so_cfg o) <> _EMPTY_.
Proof.
  unfold shouldAttach, str_neqb, str_eqb.
  rewrite orb_true_iff, andb_true_iff, !negb_true_iff,
    !bool_decide_eq_false.
  reflexivity.
Qed.

(** Through the API, a call that attaches starts with the consumer-info
    fetch and makes no other request. *)
Lemma attach_starts_with_fetch (js : js) (subj queue : string)
    (cb : option MsgHandler) (ch : option Chan) (opts : list SubOpt)
    (o : subOpts) :
  configureAll configureSubscribe opts subOpts0 = OK o ->
  js_direct js = false ->
  notNil cb && (0 <? so_pull o) = false ->
  shouldAttach o = true ->
  starts_with (fun ev => is_Request ev = false)
    (EvRequest (apiSubj js (JSApiConsumerInfoT (so_stream o) (so_consumer o)))
       _EMPTY_ (js_wait js))
    (subscribe nc json js subj queue cb ch opts).
Proof.
  intros Ho Hd Hclash Ha.
  assert (shouldCreate o = false) as Hc
    by (unfold shouldCreate; now rewrite Ha).
  unfold subscribe. rewrite Ho, Hclash, Hd. simpl.
  unfold resolve. rewrite Hd, Ha. unfold getConsumerInfo, nc_Request.
  repeat (apply starts_bind; [|intros ?]); try apply starts_call.
  - repeat emits_step.
  - unfold NewInbox. repeat emits_step.
  - unfold establish, first_pull, nc_subscribe, hold_pull.
    repeat first
      [ apply emits_bind_consumer_attached; [exact Hc]
      | eapply emits_weaken; [|apply emits_Poll]; [now intros ? [? _]]
      | emits_step ].
Qed.

(** Through the API, a call that creates starts with the stream lookup. *)
Lemma create_starts_with_lookup (js : js) (subj queue : string)
    (cb : option MsgHandler) (ch : option Chan) (opts : list SubOpt)
    (o : subOpts) (j : string) :
  configureAll configureSubscribe opts subOpts0 = OK o ->
  js_direct js = false ->
  notNil cb && (0 <? so_pull o) = false ->
  shouldCreate o = true ->
  Marshal_streamRequest json (mk_streamRequest subj) = OK j ->
  starts_with (fun _ => True)
    (EvRequest (apiSubj js JSApiStreams) j (js_wait js))
    (subscribe nc json js subj queue cb ch opts).
Proof.
  intros Ho Hd Hclash Hc Hj.
  assert (shouldAttach o = false) as Ha
    by (unfold shouldCreate in Hc; now apply negb_true_iff in Hc).
  unfold subscribe. rewrite Ho, Hclash, Hd. simpl.
  unfold resolve. rewrite Hd, Ha. unfold lookupStreamBySubject. rewrite Hj.
  unfold nc_Request, NewInbox, establish, first_pull, nc_subscribe,
    hold_pull.
  repeat (apply starts_bind; [|intros ?]); try apply starts_call.
  all: repeat first
    [ eapply emits_weaken; [|apply emits_bind_consumer]; [now intros]
    | eapply emits_weaken; [|apply emits_Poll]; [now intros]
    | emits_step ].
Qed.

End BinderRuns.

(** C3.  The options alone decide the path: attach exactly when both a
    stream name and a consumer name are given, or a deliver subject is;
    create exactly otherwise, never both; and the decision is made before
    any remote request: through the API the first request of the call is
    the consumer-info fetch when attaching, after which no further request
    is made, and the stream lookup when creating. *)
Theorem C3_attach_or_create (nc : Conn) (json : JSON) (js : js)
    (subj queue : string) (cb : option MsgHandler) (ch : option Chan)
    (opts : list SubOpt) (o : subOpts) :
  configureAll configureSubscribe opts subOpts0 = OK o ->
  let run := subscribe nc json js subj queue cb ch opts in
  let fetch :=
    EvRequest (apiSubj js (JSApiConsumerInfoT (so_stream o) (so_consumer o)))
      _EMPTY_ (js_wait js) in
  let lookup j := EvRequest (apiSubj js JSApiStreams) j (js_wait js) in
  (shouldAttach o = true <->
   (so_stream o <> _EMPTY_ /\ so_consumer o <> _EMPTY_)
   \/ cfg_DeliverSubject (so_cfg o) <> _EMPTY_) /\
  (shouldCreate o = true <->
   ~ ((so_stream o <> _EMPTY_ /\ so_consumer o <> _EMPTY_)
      \/ cfg_DeliverSubject (so_cfg o) <> _EMPTY_)) /\
  shouldCreate o = negb (shouldAttach o) /\
  (js_direct js = false ->
   notNil cb && (0 <? so_pull o) = false ->
   (shouldAttach o = true ->
    starts_with (fun ev => is_Request ev = false) fetch run) /\
   (shouldCreate o = true ->
    forall j : string,
      Marshal_streamRequest json (mk_streamRequest subj) = OK j ->
      starts_with (fun _ => True) (lookup j) run)).
Proof.
  intros Ho run fetch lookup.
  split; [apply shouldAttach_spec|].
  split.
  { unfold shouldCreate. rewrite negb_true_iff, <- not_true_iff_false.
    now rewrite shouldAttach_spec. }
  split; [reflexivity|].
  intros Hd Hclash. split.
  - intros Ha.
    apply (attach_starts_with_fetch nc json js subj queue cb ch opts o);
      assumption.
  - intros Hc j Hj.
    apply (create_starts_with_lookup nc json js subj queue cb ch opts o);
      assumption.
Qed.

(** Attaching to the consumer C of the stream S goes through the
    consumer-info fetch, and makes no other request. *)
Lemma C3_witness :
  starts_with (fun ev => is_Request ev = false)
    (EvRequest "$JS.API.CONSUMER.INFO.S.C" _EMPTY_ 5000000000)
    (subscribe (Sample.peer ∅) Sample.json Sample.ctx "orders" _EMPTY_ None
       (Some 0%nat) [Attach "S" "C"]).
Proof.
  apply (C3_attach_or_create (Sample.peer ∅) Sample.json Sample.ctx "orders"
           _EMPTY_ None (Some 0%nat) [Attach "S" "C"] _ eq_refl);
    reflexivity.
Defined.

(** C7, as the code has it.  Once its options are accepted, a subscribe
    call that combines pull mode with a callback fails with the
    pull-mode-not-allowed error, in direct mode too; a call in direct mode
    whose options imply the create path, and which does not combine pull
    mode with a callback, fails with the direct-mode-required error; both
    before any transport call. *)
Theorem C7_configuration_errors (nc : Conn) (json : JSON) (js : js)
    (subj queue : string) (cb : option MsgHandler) (ch : option Chan)
    (opts : list SubOpt) (o : subOpts) (tr : Trace) :
  configureAll configureSubscribe opts subOpts0 = OK o ->
  let run := subscribe nc json js subj queue cb ch opts tr in
  (cb <> None -> 0 < so_pull o ->
   run = (Some (Fail ErrPullModeNotAllowed), tr)) /\
  (js_direct js = true -> shouldCreate o = true ->
   ~ (cb <> None /\ 0 < so_pull o) ->
   run = (Some (Fail ErrDirectModeRequired), tr)).
Proof.
  intros Ho run. subst run. unfold subscribe. rewrite Ho. split.
  - intros Hcb Hp. destruct cb; [|contradiction]. simpl.
    now replace (0 <? so_pull o) with true by (symmetry; now apply Z.ltb_lt).
  - intros Hd Hc Hn.
    replace (notNil cb && (0 <? so_pull o)) with false.
    + now rewrite Hd, Hc.
    + symmetry. apply andb_false_iff.
      destruct cb; [right | now left].
      apply Z.ltb_ge. destruct (Z.le_gt_cases (so_pull o) 0); [assumption|].
      exfalso. apply Hn. split; [discriminate | lia].
Qed.

(** A direct-mode call without options and without callback. *)
Lemma C7_witness :
  subscribe (Sample.peer ∅) Sample.json Sample.direct_ctx "orders" _EMPTY_
    None (Some 0%nat) [] []
  = (Some (Fail ErrDirectModeRequired), []).
Proof.
  apply (C7_configuration_errors (Sample.peer ∅) Sample.json Sample.direct_ctx
           "orders" _EMPTY_ None (Some 0%nat) [] subOpts0 [] eq_refl).
  - reflexivity.
  - reflexivity.
  - intros [H _]. now apply H.
Defined.

(** A direct-mode call whose options imply the create path, with a
    callback and a batch size: it fails with the pull-mode error, not
    with the direct-mode one. *)
Lemma C7_counterexample :
  let opts := [Pull 5] in
  configureAll configureSubscribe opts subOpts0
  = OK (mk_subOpts _EMPTY_ _EMPTY_ 5 false cfg0) /\
  shouldCreate (mk_subOpts _EMPTY_ _EMPTY_ 5 false cfg0) = true /\
  js_direct Sample.direct_ctx = true /\
  subscribe (Sample.peer ∅) Sample.json Sample.direct_ctx "orders" _EMPTY_
    (Some (UserHandler 0)) None opts []
  = (Some (Fail ErrPullModeNotAllowed), []) /\
  ErrPullModeNotAllowed <> ErrDirectModeRequired.
Proof. repeat split. discriminate. Qed.

Section RunEquations.

Context {A B C : Type}.

Lemma bind_ret_eq (a : A) (k : A -> M B) (tr : Trace) :
  bind (ret a) k tr = k a tr.
Proof. reflexivity. Qed.

Lemma bind_call_eq (ev : Event) (answer : Trace -> A) (k : A -> M B)
    (tr : Trace) :
  bind (call ev answer) k tr = k (answer tr) (tr ++ [ev])%list.
Proof. reflexivity. Qed.

Lemma bind_bind (m : M A) (f : A -> M B) (g : B -> M C) (tr : Trace) :
  bind (bind m f) g tr = bind m (fun a => bind (f a) g) tr.
Proof. unfold bind. destruct (m tr) as [[a|] tr1]; reflexivity. Qed.

End RunEquations.

Section SubscribeRuns.

Variable nc : Conn.
Variable json : JSON.

Lemma isNil_installed (cb : option MsgHandler) (o : subOpts) :
  isNil (installed cb o) = isNil cb.
Proof. unfold installed. destruct cb, (so_mack o); reflexivity. Qed.

(** Past its checks, [subscribe] resolves and then establishes. *)
Lemma subscribe_run (js : js) (subj queue : string) (cb : option MsgHandler)
    (ch : option Chan) (opts : list SubOpt) (o : subOpts) (tr : Trace) :
  configureAll configureSubscribe opts subOpts0 = OK o ->
  notNil cb && (0 <? so_pull o) = false ->
  js_direct js && shouldCreate o = false ->
  subscribe nc json js subj queue cb ch opts tr
  = bind (resolve nc json js subj o (0 <? so_pull o))
      (fun r =>
         match r with
         | Fail err => ret (Fail err)
         | OK rs => establish nc json js queue cb ch o rs
         end) tr.
Proof. intros Ho Hc Hd. unfold subscribe. now rewrite Ho, Hc, Hd. Qed.

(** The fetch of the attach path, answered with the consumer [ci]. *)
Lemma resolve_attach (js : js) (subj : string) (o : subOpts) (pull : bool)
    (tr : Trace) (resp : Msg) (info : JSApiConsumerResponse)
    (ci : ConsumerInfo) :
  js_direct js = false ->
  shouldAttach o = true ->
  let subject :=
    apiSubj js (JSApiConsumerInfoT (so_stream o) (so_consumer o)) in
  let fetch := EvRequest subject _EMPTY_ (js_wait js) in
  let ccfg := ci_Config ci in
  conn_Request nc tr subject _EMPTY_ (js_wait js) = OK resp ->
  Unmarshal_ConsumerResponse json (msg_Data resp) = OK info ->
  api_Error (cr_ApiResponse info) = None ->
  cr_ConsumerInfo info = Some ci ->
  resolve nc json js subj o pull tr
  = if str_neqb (cfg_FilterSubject ccfg) _EMPTY_
       && str_neqb subj (cfg_FilterSubject ccfg)
    then (Some (Fail ErrSubjectMismatch), (tr ++ [fetch])%list)
    else if str_neqb (cfg_DeliverSubject ccfg) _EMPTY_
    then (Some (OK (mk_resolved _EMPTY_ (cfg_DeliverSubject ccfg)
                      (Some ccfg) (so_cfg o))),
          (tr ++ [fetch])%list)
    else (Some (OK (mk_resolved _EMPTY_
                      (conn_NewInbox nc (tr ++ [fetch])%list)
                      (Some ccfg) (so_cfg o))),
          (tr ++ [fetch; EvNewInbox])%list).
Proof.
  intros Hd Ha subject fetch ccfg Hans Hun Herr Hci.
  unfold resolve. rewrite Hd, Ha.
  unfold getConsumerInfo, nc_Request. rewrite bind_bind, bind_call_eq.
  fold subject. rewrite Hans, Hun, Herr, Hci. 
  rewrite bind_ret_eq. unfold lift. rewrite bind_ret_eq. fold ccfg.
  destruct (_ && _); [reflexivity|].
  destruct (str_neqb _ _); [reflexivity|].
  unfold NewInbox. rewrite bind_call_eq. unfold ret.
  now rewrite <- app_assoc.
Qed.

(** Whatever follows, establishing starts with the local subscription. *)
Lemma establish_starts (js : js) (queue : string) (cb : option MsgHandler)
    (ch : option Chan) (o : subOpts) (rs : resolved) :
  starts_with (fun _ => True)
    (EvSubscribe (rs_deliver rs) queue (installed cb o) ch (isNil cb))
    (establish nc json js queue cb ch o rs).
Proof.
  unfold establish, first_pull. rewrite isNil_installed.
  unfold nc_subscribe, hold_pull.
  repeat (apply starts_bind; [|intros ?]); try apply starts_call.
  all: repeat first
    [ eapply emits_weaken; [|apply emits_bind_consumer]; [now intros]
    | eapply emits_weaken; [|apply emits_Poll]; [now intros]
    | emits_step ].
Qed.

End SubscribeRuns.

Lemma str_neqb_true (a b : string) : str_neqb a b = true <-> a <> b.
Proof.
  unfold str_neqb, str_eqb. now rewrite negb_true_iff, bool_decide_eq_false.
Qed.

Lemma str_neqb_false (a b : string) : str_neqb a b = false <-> a = b.
Proof.
  unfold str_neqb, str_eqb. now rewrite negb_false_iff, bool_decide_eq_true.
Qed.

(** C8.  On the attach path the call first fetches the consumer's info
    on the consumer-info subject built from the stream and consumer
    names, and makes no other request, so no create-consumer request;
    when the fetch is answered with a consumer whose filter subject is
    non-empty and differs from the requested subject, the call fails
    with the subject-mismatch error right after the fetch; otherwise the
    local subscription is made on the consumer's deliver subject, or on an
    inbox generated at that point when that subject is empty. *)
Theorem C8_attach_path (nc : Conn) (json : JSON) (js : js)
    (subj queue : string) (cb : option MsgHandler) (ch : option Chan)
    (opts : list SubOpt) (o : subOpts) :
  configureAll configureSubscribe opts subOpts0 = OK o ->
  js_direct js = false ->
  shouldAttach o = true ->
  notNil cb && (0 <? so_pull o) = false ->
  let run := subscribe nc json js subj queue cb ch opts in
  let subject :=
    apiSubj js (JSApiConsumerInfoT (so_stream o) (so_consumer o)) in
  let fetch := EvRequest subject _EMPTY_ (js_wait js) in
  starts_with (fun ev => is_Request ev = false) fetch run /\
  forall (tr : Trace) (resp : Msg) (info : JSApiConsumerResponse)
         (ci : ConsumerInfo),
    conn_Request nc tr subject _EMPTY_ (js_wait js) = OK resp ->
    Unmarshal_ConsumerResponse json (msg_Data resp) = OK info ->
    api_Error (cr_ApiResponse info) = None ->
    cr_ConsumerInfo info = Some ci ->
    let filter := cfg_FilterSubject (ci_Config ci) in
    let deliver := cfg_DeliverSubject (ci_Config ci) in
    (filter <> _EMPTY_ -> subj <> filter ->
     run tr = (Some (Fail ErrSubjectMismatch), (tr ++ [fetch])%list)) /\
    (~ (filter <> _EMPTY_ /\ subj <> filter) ->
     (deliver <> _EMPTY_ ->
      exists rest : list Event,
        snd (run tr)
        = (tr ++ fetch
              :: EvSubscribe deliver queue (installed cb o) ch (isNil cb)
              :: rest)%list) /\
     (deliver = _EMPTY_ ->
      exists rest : list Event,
        snd (run tr)
        = (tr ++ fetch :: EvNewInbox
              :: EvSubscribe (conn_NewInbox nc (tr ++ [fetch])%list) queue
                   (installed cb o) ch (isNil cb)
              :: rest)%list)).
Proof.
  intros Ho Hd Ha Hclash run subject fetch.
  split.
  { apply (attach_starts_with_fetch nc json js subj queue cb ch opts o);
      assumption. }
  intros tr resp info ci Hans Hun Herr Hci filter deliver.
  assert (run tr =
          bind (resolve nc json js subj o (0 <? so_pull o))
            (fun r =>
               match r with
               | Fail err => ret (Fail err)
               | OK rs => establish nc json js queue cb ch o rs
               end) tr) as Hrun.
  { apply subscribe_run; [assumption..|]. now rewrite Hd. }
  unfold bind in Hrun.
  rewrite (resolve_attach nc json js subj o _ tr resp info ci Hd Ha Hans Hun
             Herr Hci) in Hrun.
  fold fetch filter deliver in Hrun.
  split; [|intros Hok; split].
  - intros Hf Hs. rewrite Hrun.
    apply str_neqb_true in Hf, Hs. now rewrite Hf, Hs.
  - intros Hdel. rewrite Hrun.
    replace (str_neqb filter _EMPTY_ && str_neqb subj filter) with false.
    2:{ symmetry. apply andb_false_iff.
        destruct (str_neqb filter _EMPTY_) eqn:E1; [|now left].
        destruct (str_neqb subj filter) eqn:E2; [|now right].
        apply str_neqb_true in E1, E2. exfalso. now apply Hok. }
    apply str_neqb_true in Hdel. rewrite Hdel.
    destruct (establish_starts nc json js queue cb ch o
                (mk_resolved _EMPTY_ deliver (Some (ci_Config ci)) (so_cfg o))
                (tr ++ [fetch])%list) as (rest & E & _).
    exists rest. rewrite <- app_assoc in E. exact E.
  - intros Hdel. rewrite Hrun.
    replace (str_neqb filter _EMPTY_ && str_neqb subj filter) with false.
    2:{ symmetry. apply andb_false_iff.
        destruct (str_neqb filter _EMPTY_) eqn:E1; [|now left].
        destruct (str_neqb subj filter) eqn:E2; [|now right].
        apply str_neqb_true in E1, E2. exfalso. now apply Hok. }
    apply str_neqb_false in Hdel. rewrite Hdel.
    destruct (establish_starts nc json js queue cb ch o
                (mk_resolved _EMPTY_ (conn_NewInbox nc (tr ++ [fetch])%list)
                   (Some (ci_Config ci)) (so_cfg o))
                (tr ++ [fetch; EvNewInbox])%list) as (rest & E & _).
    exists rest. rewrite <- app_assoc in E. exact E.
Qed.

(** Attaching to the consumer C, which filters on orders, with the
    subject billing. *)
Lemma C8_witness :
  subscribe
    (Sample.peer {[ "$JS.API.CONSUMER.INFO.S.C"
                    := Sample.consumer_body "S" "C" "d.C" "orders" ]})
    Sample.json Sample.ctx "billing" _EMPTY_ None (Some 0%nat)
    [Attach "S" "C"] []
  = (Some (Fail ErrSubjectMismatch),
     [EvRequest "$JS.API.CONSUMER.INFO.S.C" _EMPTY_ 5000000000]).
Proof.
  set (nc := Sample.peer _).
  pose proof (C8_attach_path nc Sample.json Sample.ctx "billing" _EMPTY_ None
                (Some 0%nat) [Attach "S" "C"] _ eq_refl eq_refl eq_refl
                eq_refl) as [_ H].
  refine (proj1 (H [] (Sample.reply_msg
                         (Sample.consumer_body "S" "C" "d.C" "orders"))
                   (Sample.consumer_value "S" "C" "d.C" "orders") _
                   eq_refl eq_refl eq_refl eq_refl) _ _);
    discriminate.
Defined.

Section Inversion.

Context {A B : Type}.

Lemma bind_inv (m : M A) (k : A -> M B) (tr tr' : Trace) (b : B) :
  bind m k tr = (Some b, tr') ->
  exists (a : A) (tr1 : Trace), m tr = (Some a, tr1) /\ k a tr1 = (Some b, tr').
Proof.
  unfold bind. destruct (m tr) as [[a|] tr1]; [|discriminate].
  intros H. now exists a, tr1.
Qed.

Lemma ret_inv (a a' : A) (tr tr' : Trace) :
  ret a tr = (Some a', tr') -> a = a' /\ tr = tr'.
Proof. unfold ret. now intros [= -> ->]. Qed.

Lemma lift_inv (o : option A) (a : A) (tr tr' : Trace) :
  lift o tr = (Some a, tr') -> o = Some a /\ tr = tr'.
Proof. destruct o; simpl; [now intros [= -> ->] | discriminate]. Qed.

Lemma bind_lift_some (a : A) (k : A -> M B) (tr : Trace) :
  bind (lift (Some a)) k tr = k a tr.
Proof. reflexivity. Qed.

End Inversion.

Section BindingRuns.

Variable nc : Conn.
Variable json : JSON.

(** [Poll] either refuses the subscription, without a transport call,
    or publishes one next-message request. *)
Lemma Poll_run (sub : Subscription) (tr : Trace) :
  (exists b : jsSub,
     sub_jsi sub = Some b /\ jsi_deliver b = _EMPTY_ /\ jsi_pull b <> 0 /\
     let next :=
       apiSubj (jsi_js b) (JSApiRequestNextT (jsi_stream b) (jsi_consumer b)) in
     let req :=
       match Marshal_NextRequest json (mk_NextRequest None (jsi_pull b) false)
       with
       | OK data => data
       | Fail _ => _EMPTY_
       end in
     Poll nc json sub tr
     = (Some (conn_PublishRequest nc tr next (sub_Subject sub) req),
        (tr ++ [EvPublishRequest next (sub_Subject sub) req])%list))
  \/
  ((sub_jsi sub = None \/
    exists b : jsSub,
      sub_jsi sub = Some b /\ (jsi_deliver b <> _EMPTY_ \/ jsi_pull b = 0)) /\
   Poll nc json sub tr = (Some (Some ErrTypeSubscription), tr)).
Proof.
  unfold Poll. destruct (sub_jsi sub) as [b|]; [|right; split; [now left | reflexivity]].
  destruct (str_neqb (jsi_deliver b) _EMPTY_) eqn:Ed; simpl.
  - right. split; [|reflexivity]. right. exists b. split; [reflexivity|].
    left. now apply str_neqb_true.
  - destruct (jsi_pull b =? 0) eqn:Ep.
    + right. split; [|reflexivity]. right. exists b. split; [reflexivity|].
      right. now apply Z.eqb_eq.
    + left. exists b. repeat split.
      * now apply str_neqb_false.
      * now apply Z.eqb_neq.
Qed.

(** What a successful consumer binding leaves in the subscription. *)
Lemma bind_consumer_OK (js : js) (o : subOpts) (rs : resolved)
    (sub sub' : Subscription) (jsi : jsSub) (tr tr' : Trace) :
  sub_jsi sub = Some jsi ->
  bind_consumer nc json js o rs sub tr = (Some (OK sub'), tr') ->
  exists b : jsSub,
    sub' = with_jsi sub b /\
    jsi_js b = jsi_js jsi /\ jsi_pull b = jsi_pull jsi /\
    (shouldCreate o = false ->
     tr' = tr /\
     jsi_stream b = so_stream o /\ jsi_consumer b = so_consumer o /\
     (js_direct js = true ->
      jsi_deliver b = cfg_DeliverSubject (so_cfg o)) /\
     (js_direct js = false ->
      exists ccfg : ConsumerConfig,
        rs_ccfg rs = Some ccfg /\ jsi_deliver b = cfg_DeliverSubject ccfg)) /\
    (shouldCreate o = true ->
     exists (subject j : string) (resp : Msg) (info : JSApiConsumerResponse)
            (ci : ConsumerInfo),
       tr' = (tr ++ [EvRequest subject j (js_wait js)])%list /\
       conn_Request nc tr subject j (js_wait js) = OK resp /\
       Unmarshal_ConsumerResponse json (msg_Data resp) = OK info /\
       api_Error (cr_ApiResponse info) = None /\
       cr_ConsumerInfo info = Some ci /\
       jsi_stream b = ci_Stream ci /\ jsi_consumer b = ci_Name ci /\
       jsi_deliver b = cfg_DeliverSubject (ci_Config ci)).
Proof.
  intros Hj. unfold bind_consumer.
  destruct (shouldCreate o) eqn:Hc.
  - destruct (Marshal_CreateConsumerRequest json _) as [j|]; [|discriminate].
    set (subject := apiSubj js _).
    unfold nc_Request. rewrite bind_call_eq.
    destruct (conn_Request nc tr subject j (js_wait js)) as [resp|] eqn:Hans;
      [|discriminate].
    destruct (Unmarshal_ConsumerResponse json (msg_Data resp)) as [info|]
      eqn:Hun; [|discriminate].
    destruct (api_Error (cr_ApiResponse info)) eqn:Herr; [discriminate|].
    destruct (cr_ConsumerInfo info) as [ci|] eqn:Hci; [|discriminate].
    rewrite bind_lift_some. unfold hold. rewrite Hj.
    rewrite bind_bind, bind_lift_some, !bind_ret_eq. intros [= <- <-].
    eexists. split; [reflexivity|]. repeat split; try discriminate.
    intros _. now exists subject, j, resp, info, ci.
  - destruct (js_direct js) eqn:Hd.
    + rewrite bind_ret_eq. unfold hold. rewrite Hj.
      rewrite bind_bind, bind_lift_some, !bind_ret_eq. intros [= <- <-].
      eexists. split; [reflexivity|]. repeat split; try discriminate.
    + destruct (rs_ccfg rs) as [ccfg|] eqn:Hcc; [|discriminate].
      rewrite bind_bind, bind_lift_some, bind_ret_eq. unfold hold. rewrite Hj.
      rewrite bind_bind, bind_lift_some, !bind_ret_eq. intros [= <- <-].
      eexists. split; [reflexivity|]. repeat split; try discriminate.
      intros _. now exists ccfg.
Qed.

(** What a successful attach through the API has fetched. *)
Lemma resolve_attach_OK (js : js) (subj : string) (o : subOpts)
    (pull : bool) (rs : resolved) (tr tr1 : Trace) :
  js_direct js = false ->
  shouldAttach o = true ->
  resolve nc json js subj o pull tr = (Some (OK rs), tr1) ->
  exists (resp : Msg) (info : JSApiConsumerResponse) (ci : ConsumerInfo),
    conn_Request nc tr
      (apiSubj js (JSApiConsumerInfoT (so_stream o) (so_consumer o)))
      _EMPTY_ (js_wait js) = OK resp /\
    Unmarshal_ConsumerResponse json (msg_Data resp) = OK info /\
    api_Error (cr_ApiResponse info) = None /\
    cr_ConsumerInfo info = Some ci /\
    rs_ccfg rs = Some (ci_Config ci).
Proof.
  intros Hd Ha. unfold resolve. rewrite Hd, Ha.
  unfold getConsumerInfo, nc_Request. rewrite bind_bind, bind_call_eq.
  destruct (conn_Request nc tr _ _EMPTY_ (js_wait js)) as [resp|] eqn:Hans;
    [|discriminate].
  destruct (Unmarshal_ConsumerResponse json (msg_Data resp)) as [info|]
    eqn:Hun; [|discriminate].
  destruct (api_Error (cr_ApiResponse info)) eqn:Herr; [discriminate|].
  rewrite bind_ret_eq.
  destruct (cr_ConsumerInfo info) as [ci|] eqn:Hci; [|discriminate].
  rewrite bind_lift_some.
  destruct (_ && _); [discriminate|].
  destruct (str_neqb _ _).
  - intros [= <- <-]. now exists resp, info, ci.
  - unfold NewInbox. rewrite bind_call_eq. intros [= <- <-].
    now exists resp, info, ci.
Qed.

(** What a successful [establish] went through. *)
Lemma establish_OK (js : js) (queue : string) (cb : option MsgHandler)
    (ch : option Chan) (o : subOpts) (rs : resolved) (sub : Subscription)
    (tr tr' : Trace) :
  establish nc json js queue cb ch o rs tr = (Some (OK sub), tr') ->
  let local :=
    EvSubscribe (rs_deliver rs) queue (installed cb o) ch (isNil cb) in
  let sub0 :=
    mk_Subscription (rs_deliver rs) queue (installed cb o) ch (isNil cb)
      (Some (mk_jsSub js _EMPTY_ _EMPTY_ _EMPTY_ 0)) in
  exists (sub1 : Subscription) (tr2 : Trace) (evs : list Event),
    bind_consumer nc json js o rs sub0 (tr ++ [local])%list
    = (Some (OK sub1), tr2) /\
    tr' = (tr2 ++ evs)%list /\
    Forall (fun ev => is_Request ev = false /\ is_Subscribe ev = false) evs /\
    if 0 <? so_pull o then
      exists b : jsSub,
        sub_jsi sub1 = Some b /\
        sub = with_jsi sub1
                (mk_jsSub (jsi_js b) (jsi_consumer b) (jsi_stream b)
                   (jsi_deliver b) (so_pull o))
    else sub = sub1.
Proof.
  intros H local sub0. unfold establish in H.
  rewrite isNil_installed in H.
  unfold nc_subscribe in H. rewrite bind_call_eq in H.
  destruct (conn_subscribe nc tr (rs_deliver rs) queue); [discriminate|].
  apply bind_inv in H as (r & tr2 & Hb & H).
  destruct r as [sub1|]; [|discriminate].
  exists sub1, tr2. fold local sub0 in Hb. unfold first_pull in H.
  destruct (0 <? so_pull o).
  - apply bind_inv in H as (sub2 & tr3 & Hh & H).
    unfold hold_pull in Hh. apply bind_inv in Hh as (b & tr4 & Hl & Hh).
    apply lift_inv in Hl as [Hl <-]. apply ret_inv in Hh as [<- <-].
    apply bind_inv in H as (e & tr5 & Hp & H).
    apply ret_inv in H as [[= <-] <-].
    destruct (emits_Poll nc json (with_jsi sub1
                (mk_jsSub (jsi_js b) (jsi_consumer b) (jsi_stream b)
                   (jsi_deliver b) (so_pull o))) tr2) as (evs & E & HP).
    rewrite Hp in E. simpl in E. exists evs.
    repeat split; try assumption. now exists b.
  - apply ret_inv in H as [[= <-] <-]. exists [].
    repeat split; [assumption | now rewrite app_nil_r | constructor].
Qed.

(** A call that returns a subscription went past the checks. *)
Lemma subscribe_OK (js : js) (subj queue : string) (cb : option MsgHandler)
    (ch : option Chan) (opts : list SubOpt) (o : subOpts)
    (sub : Subscription) (tr tr' : Trace) :
  configureAll configureSubscribe opts subOpts0 = OK o ->
  subscribe nc json js subj queue cb ch opts tr = (Some (OK sub), tr') ->
  notNil cb && (0 <? so_pull o) = false /\
  js_direct js && shouldCreate o = false /\
  exists (rs : resolved) (evs : list Event),
    resolve nc json js subj o (0 <? so_pull o) tr
    = (Some (OK rs), (tr ++ evs)%list) /\
    Forall (fun ev => is_Subscribe ev = false) evs /\
    establish nc json js queue cb ch o rs (tr ++ evs)%list
    = (Some (OK sub), tr').
Proof.
  intros Ho. unfold subscribe. rewrite Ho.
  destruct (notNil cb && (0 <? so_pull o)); [discriminate|].
  destruct (js_direct js && shouldCreate o); [discriminate|].
  intros H. apply bind_inv in H as (r & tr1 & Hr & H).
  destruct r as [rs|]; [|discriminate].
  destruct (emits_resolve nc json js subj o (0 <? so_pull o) tr)
    as (evs & E & HP).
  rewrite Hr in E. simpl in E. subst tr1.
  repeat split. now exists rs, evs.
Qed.

End BindingRuns.

(** C5, as the code has it.  After a successful subscribe the binding
    stores the requested batch size in pull mode and zero in push mode,
    and as its deliver subject the one reported for the consumer, which
    is not checked against the mode: in direct mode the deliver subject
    given by the caller (empty when none was given), on the attach path
    the configured deliver subject of the fetched consumer, on the create
    path the deliver subject in the answer to the create request.  [Poll]
    publishes one next-message request exactly on a binding with an empty
    deliver subject and a nonzero batch size, and on every other
    subscription fails with the subscription-type error without any
    transport call. *)
Theorem C5_binding_and_poll (nc : Conn) (json : JSON) (js : js)
    (subj queue : string) (cb : option MsgHandler) (ch : option Chan)
    (opts : list SubOpt) (o : subOpts) (sub : Subscription) (tr tr' : Trace) :
  configureAll configureSubscribe opts subOpts0 = OK o ->
  subscribe nc json js subj queue cb ch opts tr = (Some (OK sub), tr') ->
  (exists b : jsSub,
     sub_jsi sub = Some b /\
     jsi_pull b = (if 0 <? so_pull o then so_pull o else 0) /\
     (js_direct js = true ->
      jsi_deliver b = cfg_DeliverSubject (so_cfg o)) /\
     (js_direct js = false -> shouldAttach o = true ->
      exists (resp : Msg) (info : JSApiConsumerResponse) (ci : ConsumerInfo),
        conn_Request nc tr
          (apiSubj js (JSApiConsumerInfoT (so_stream o) (so_consumer o)))
          _EMPTY_ (js_wait js) = OK resp /\
        Unmarshal_ConsumerResponse json (msg_Data resp) = OK info /\
        cr_ConsumerInfo info = Some ci /\
        jsi_deliver b = cfg_DeliverSubject (ci_Config ci)) /\
     (shouldCreate o = true ->
      exists (pre post : list Event) (subject j : string) (resp : Msg)
             (info : JSApiConsumerResponse) (ci : ConsumerInfo),
        tr' = (tr ++ pre ++ EvRequest subject j (js_wait js) :: post)%list /\
        Forall (fun ev => is_Request ev = false) post /\
        conn_Request nc (tr ++ pre)%list subject j (js_wait js) = OK resp /\
        Unmarshal_ConsumerResponse json (msg_Data resp) = OK info /\
        cr_ConsumerInfo info = Some ci /\
        jsi_deliver b = cfg_DeliverSubject (ci_Config ci))) /\
  (forall (s : Subscription) (t : Trace),
     (exists b : jsSub,
        sub_jsi s = Some b /\ jsi_deliver b = _EMPTY_ /\ jsi_pull b <> 0 /\
        let next :=
          apiSubj (jsi_js b)
            (JSApiRequestNextT (jsi_stream b) (jsi_consumer b)) in
        let req :=
          match
            Marshal_NextRequest json (mk_NextRequest None (jsi_pull b) false)
          with
          | OK data => data
          | Fail _ => _EMPTY_
          end in
        Poll nc json s t
        = (Some (conn_PublishRequest nc t next (sub_Subject s) req),
           (t ++ [EvPublishRequest next (sub_Subject s) req])%list))
     \/
     ((sub_jsi s = None \/
       exists b : jsSub,
         sub_jsi s = Some b /\ (jsi_deliver b <> _EMPTY_ \/ jsi_pull b = 0)) /\
      Poll nc json s t = (Some (Some ErrTypeSubscription), t))).
Proof.
  intros Ho Hrun. split; [|apply Poll_run].
  destruct (subscribe_OK nc json js subj queue cb ch opts o sub tr tr' Ho Hrun)
    as (Hclash & Hdc & rs & evs & Hres & Hevs & Hest).
  apply establish_OK in Hest as (sub1 & tr2 & evs2 & Hbc & -> & Hevs2 & Hsub).
  eapply bind_consumer_OK in Hbc as (b1 & -> & Hjs & Hpull & Hatt & Hcre);
    [|reflexivity].
  simpl in Hpull.
  assert (exists b : jsSub,
            sub_jsi sub = Some b /\
            jsi_pull b = (if 0 <? so_pull o then so_pull o else 0) /\
            jsi_deliver b = jsi_deliver b1) as (b & Hb & Hbp & Hbd).
  { destruct (0 <? so_pull o).
    - destruct Hsub as (b & [= <-] & ->). now eexists.
    - subst sub. now exists b1. }
  exists b. rewrite Hbd. repeat split; try assumption.
  - intros Hd. destruct (shouldCreate o) eqn:Hc.
    + now rewrite Hd in Hdc.
    + now apply Hatt.
  - intros Hd Ha.
    assert (shouldCreate o = false) as Hc
      by (unfold shouldCreate; now rewrite Ha).
    destruct (Hatt Hc) as (_ & _ & _ & _ & Hnd).
    destruct (Hnd Hd) as (ccfg & Hcc & Hdel).
    destruct (resolve_attach_OK nc json js subj o _ rs tr _ Hd Ha Hres)
      as (resp & info & ci & Hans & Hun & _ & Hci & Hcc').
    exists resp, info, ci. repeat split; try assumption. congruence.
  - intros Hc.
    destruct (Hcre Hc)
      as (subject & j & resp & info & ci & -> & Hans & Hun & _ & Hci & _ & _
          & Hdel).
    eexists (evs ++ [_])%list, evs2, subject, j, resp, info, ci.
    rewrite (app_assoc tr). repeat split; try eassumption.
    + now rewrite <- !app_assoc.
    + eapply Forall_impl; [exact Hevs2|]. now intros ev [? _].
    + now rewrite app_assoc.
Qed.

(** A push subscription created on the stream ORD: the binding stores the
    deliver subject of the create answer. *)
Lemma C5_witness :
  exists (sub : Subscription) (tr' : Trace) (b : jsSub),
    subscribe
      (Sample.peer
         (<["$JS.API.STREAM.NAMES" := Sample.names_ORD]>
          {[ "$JS.API.CONSUMER.CREATE.ORD"
             := Sample.consumer_body "ORD" "eph1" "_INBOX.1" "orders" ]}))
      Sample.json Sample.ctx "orders" _EMPTY_ None (Some 0%nat) [] []
    = (Some (OK sub), tr') /\
    sub_jsi sub = Some b /\ jsi_pull b = 0 /\ jsi_deliver b = "_INBOX.1".
Proof.
  set (nc := Sample.peer _).
  destruct (subscribe nc Sample.json Sample.ctx "orders" _EMPTY_ None
              (Some 0%nat) [] []) as [[[sub|]|] tr'] eqn:E;
    try (vm_compute in E; discriminate).
  destruct (C5_binding_and_poll nc Sample.json Sample.ctx "orders" _EMPTY_
              None (Some 0%nat) [] subOpts0 sub [] tr' eq_refl E)
    as [(b & Hb & Hp & _) _].
  exists sub, tr', b. repeat split; try assumption.
  vm_compute in E. injection E as <- <-.
  injection Hb as <-. reflexivity.
Defined.

(** Attaching in direct mode without a deliver subject succeeds with a
    push-mode binding whose deliver subject is empty. *)
Lemma C5_counterexample :
  ~ (forall (sub : Subscription) (tr' : Trace) (b : jsSub),
       subscribe (Sample.peer ∅) Sample.json Sample.direct_ctx "orders"
         _EMPTY_ None (Some 0%nat) [Attach "S" "C"] []
       = (Some (OK sub), tr') ->
       sub_jsi sub = Some b ->
       (0 < jsi_pull b -> jsi_deliver b = _EMPTY_) /\
       (~ 0 < jsi_pull b -> jsi_deliver b <> _EMPTY_)).
Proof.
  intros H.
  destruct (H _ _ (mk_jsSub Sample.direct_ctx "C" "S" _EMPTY_ 0)
              eq_refl eq_refl) as [_ Hpush].
  apply Hpush; [simpl; lia | reflexivity].
Qed.

(** Attaching with a batch size to a consumer that pushes to d.C succeeds
    with a pull-mode binding whose deliver subject is not empty; the first
    pull is refused and the refusal is dropped. *)
Lemma pull_binding_with_deliver_subject :
  subscribe
    (Sample.peer {[ "$JS.API.CONSUMER.INFO.S.C"
                    := Sample.consumer_body "S" "C" "d.C" "orders" ]})
    Sample.json Sample.ctx "orders" _EMPTY_ None (Some 0%nat)
    [Attach "S" "C"; Pull 10] []
  = (Some (OK (mk_Subscription "d.C" _EMPTY_ None (Some 0%nat) true
                 (Some (mk_jsSub Sample.ctx "C" "S" "d.C" 10)))),
     [EvRequest "$JS.API.CONSUMER.INFO.S.C" _EMPTY_ 5000000000;
      EvSubscribe "d.C" _EMPTY_ None (Some 0%nat) true]).
Proof. vm_compute. reflexivity. Qed.

(** ** Failures of the consumer create *)

Section CreateFailures.

Variable nc : Conn.
Variable json : JSON.

(** A list splits in one way around its only local subscription. *)
Lemma split_at_Subscribe (l1 l2 pre post : list Event) (x y : Event) :
  Forall (fun ev => is_Subscribe ev = false) l1 ->
  is_Subscribe y = true ->
  Forall (fun ev => is_Subscribe ev = false) l2 ->
  (l1 ++ x :: l2 = pre ++ y :: post)%list ->
  is_Subscribe x = true ->
  pre = l1 /\ y = x /\ post = l2.
Proof.
  intros H1 Hy H2. revert pre.
  induction H1 as [|e l1 He H1 IH]; intros pre E Hx; simpl in E.
  - destruct pre as [|p pre]; simpl in E.
    + injection E as -> ->. now repeat split.
    + injection E as -> E. exfalso.
      assert (Forall (fun ev => is_Subscribe ev = false) (pre ++ y :: post))
        as HF by now rewrite <- E.
      apply Forall_app in HF as [_ HF]. inversion HF. congruence.
  - destruct pre as [|p pre]; simpl in E.
    + injection E as -> _. congruence.
    + injection E as -> E. destruct (IH pre E Hx) as (-> & -> & ->).
      now repeat split.
Qed.

(** Every run of the consumer binding: it makes no transport call, or it
    is on the create path and sends the create request; then one of the
    three failures returns its error after unsubscribing, and without
    them nothing more is called and no error is returned. *)
Lemma bind_consumer_run (js : js) (o : subOpts) (rs : resolved)
    (sub : Subscription) (tr : Trace) :
  let run := bind_consumer nc json js o rs sub tr in
  snd run = tr \/
  (shouldCreate o = true /\
   exists subject j : string,
     let request := EvRequest subject j (js_wait js) in
     match create_failure json (conn_Request nc tr subject j (js_wait js)) with
     | Some err =>
         run = (Some (Fail err), (tr ++ [request; EvUnsubscribe sub])%list)
     | None =>
         snd run = (tr ++ [request])%list /\
         forall err : error, fst run <> Some (Fail err)
     end).
Proof.
  unfold bind_consumer.
  destruct (shouldCreate o) eqn:Hc.
  - destruct (Marshal_CreateConsumerRequest json _) as [j|]; [|now left].
    set (subject := apiSubj js _).
    right. split; [reflexivity|]. exists subject, j.
    unfold nc_Request, Unsubscribe, create_failure. rewrite bind_call_eq.
    destruct (conn_Request nc tr subject j (js_wait js)) as [resp|e].
    + destruct (Unmarshal_ConsumerResponse json (msg_Data resp)) as [info|e].
      * destruct (api_Error (cr_ApiResponse info)) as [e|].
        -- rewrite bind_call_eq. unfold ret. now rewrite <- app_assoc.
        -- destruct (cr_ConsumerInfo info) as [ci|]; [|now split].
           rewrite bind_lift_some. unfold hold.
           destruct (sub_jsi sub); [|now split].
           rewrite bind_bind, bind_lift_some, !bind_ret_eq. now split.
      * rewrite bind_call_eq. unfold ret. now rewrite <- app_assoc.
    + rewrite bind_call_eq. unfold ret. now rewrite <- app_assoc.
  - left. unfold hold.
    destruct (js_direct js).
    + rewrite bind_ret_eq.
      destruct (sub_jsi sub); [|reflexivity].
      now rewrite bind_bind, bind_lift_some, !bind_ret_eq.
    + destruct (rs_ccfg rs); [|reflexivity].
      rewrite bind_bind, bind_lift_some, bind_ret_eq.
      destruct (sub_jsi sub); [|reflexivity].
      now rewrite bind_bind, bind_lift_some, !bind_ret_eq.
Qed.

(** The first pull adds no request and no subscription, and returns no
    error. *)
Lemma first_pull_run (o : subOpts) (sub : Subscription) (tr : Trace) :
  let run := first_pull nc json o sub tr in
  exists evs : list Event,
    snd run = (tr ++ evs)%list /\
    Forall (fun ev => is_Request ev = false /\ is_Subscribe ev = false) evs /\
    forall err : error, fst run <> Some (Fail err).
Proof.
  unfold first_pull. destruct (0 <? so_pull o).
  - unfold hold_pull. destruct (sub_jsi sub) as [b|].
    + rewrite bind_bind, bind_lift_some, bind_ret_eq.
      set (sub2 := with_jsi sub _).
      destruct (emits_Poll nc json sub2 tr) as (evs & E & H).
      unfold bind.
      destruct (Poll nc json sub2 tr) as [[e|] tr3]; simpl in E; subst tr3;
        exists evs; repeat split; try assumption; discriminate.
    + exists []. rewrite app_nil_r. repeat split; [constructor | discriminate].
  - exists []. rewrite app_nil_r. repeat split; [constructor | discriminate].
Qed.

(** Every run of [establish]: after the local subscription, either no
    request is made, or the create request is, and then the three
    failures return their error after unsubscribing, the last call of
    the run, while without them no error is returned. *)
Lemma establish_run (js : js) (queue : string) (cb : option MsgHandler)
    (ch : option Chan) (o : subOpts) (rs : resolved) (tr : Trace) :
  let run := establish nc json js queue cb ch o rs tr in
  let local :=
    EvSubscribe (rs_deliver rs) queue (installed cb o) ch (isNil cb) in
  let sub0 :=
    mk_Subscription (rs_deliver rs) queue (installed cb o) ch (isNil cb)
      (Some (mk_jsSub js _EMPTY_ _EMPTY_ _EMPTY_ 0)) in
  exists evs : list Event,
    snd run = (tr ++ local :: evs)%list /\
    Forall (fun ev => is_Subscribe ev = false) evs /\
    (Forall (fun ev => is_Request ev = false) evs \/
     (shouldCreate o = true /\
      exists (subject j : string) (rest : list Event),
        evs = EvRequest subject j (js_wait js) :: rest /\
        match
          create_failure json
            (conn_Request nc (tr ++ [local])%list subject j (js_wait js))
        with
        | Some err => fst run = Some (Fail err) /\ rest = [EvUnsubscribe sub0]
        | None => forall err : error, fst run <> Some (Fail err)
        end)).
Proof.
  intros run local sub0. subst run. unfold establish.
  rewrite isNil_installed. unfold nc_subscribe. rewrite bind_call_eq.
  fold local.
  destruct (conn_subscribe nc tr (rs_deliver rs) queue).
  { exists []. repeat split; [constructor | left; constructor]. }
  fold sub0. unfold bind.
  pose proof (bind_consumer_run js o rs sub0 (tr ++ [local])%list) as Hb.
  pose proof (emits_bind_consumer nc json js o rs sub0 (tr ++ [local])%list)
    as (evs & E & Hevs).
  destruct (bind_consumer nc json js o rs sub0 (tr ++ [local])%list)
    as [r tr2]. simpl in Hb, E.
  assert (forall l : list Event,
            tr2 = ((tr ++ [local]) ++ l)%list -> l = evs) as Hsame.
  { intros l El. rewrite E in El. now apply app_inv_head in El. }
  destruct r as [[sub1|err]|].
  - (* the binding succeeded *)
    destruct (first_pull_run o sub1 tr2) as (evs2 & E2 & H2 & Hne).
    destruct (first_pull nc json o sub1 tr2) as [r1 tr3].
    simpl in E2, Hne |- *. subst tr3.
    exists (evs ++ evs2)%list. split; [now rewrite E, <- !app_assoc|]. split.
    { apply Forall_app. split; [exact Hevs|].
      eapply Forall_impl; [exact H2|]. now intros ev [_ ?]. }
    destruct Hb as [Hb|(Hc & subject & j & Hb)].
    + left. rewrite <- (Hsame []) by now rewrite app_nil_r. simpl.
      eapply Forall_impl; [exact H2|]. now intros ev [? _].
    + right. split; [exact Hc|].
      destruct (create_failure json _) eqn:Hf; [discriminate|].
      destruct Hb as [Hb _]. rewrite <- (Hsame _ Hb).
      exists subject, j, evs2. rewrite Hf. split; [reflexivity|]. exact Hne.
  - (* the binding failed *)
    exists evs. simpl. split; [now rewrite E, <- app_assoc|].
    split; [exact Hevs|].
    destruct Hb as [Hb|(Hc & subject & j & Hb)].
    + left. rewrite <- (Hsame []) by now rewrite app_nil_r. constructor.
    + right. split; [exact Hc|].
      destruct (create_failure json _) as [err'|] eqn:Hf.
      * injection Hb as -> Hb. rewrite <- (Hsame _ Hb).
        exists subject, j, [EvUnsubscribe sub0]. rewrite Hf. now repeat split.
      * destruct Hb as [_ Hb]. now specialize (Hb err).
  - (* the binding panicked *)
    exists evs. simpl. split; [now rewrite E, <- app_assoc|].
    split; [exact Hevs|].
    destruct Hb as [Hb|(Hc & subject & j & Hb)].
    + left. rewrite <- (Hsame []) by now rewrite app_nil_r. constructor.
    + right. split; [exact Hc|].
      destruct (create_failure json _) eqn:Hf; [discriminate|].
      destruct Hb as [Hb _]. rewrite <- (Hsame _ Hb).
      exists subject, j, []. rewrite Hf. split; [reflexivity | discriminate].
Qed.

(** The one failure of the create path that sends nothing: when the
    create request cannot be encoded, [subscribe] returns the encoder's
    error at once, and the local subscription stays. *)
Lemma encoding_failure_keeps_subscription (js : js) (queue : string)
    (cb : option MsgHandler) (ch : option Chan) (o : subOpts)
    (rs : resolved) (err : error) (tr : Trace) :
  shouldCreate o = true ->
  conn_subscribe nc tr (rs_deliver rs) queue = None ->
  let local :=
    EvSubscribe (rs_deliver rs) queue (installed cb o) ch (isNil cb) in
  let sub0 :=
    mk_Subscription (rs_deliver rs) queue (installed cb o) ch (isNil cb)
      (Some (mk_jsSub js _EMPTY_ _EMPTY_ _EMPTY_ 0)) in
  Marshal_CreateConsumerRequest json (create_request nc rs sub0) = Fail err ->
  establish nc json js queue cb ch o rs tr
  = (Some (Fail err), (tr ++ [local])%list).
Proof.
  intros Hc Hs local sub0 Hm. unfold establish.
  rewrite isNil_installed. unfold nc_subscribe.
  rewrite bind_call_eq, Hs. fold sub0 local.
  unfold bind_consumer. rewrite Hc, Hm. reflexivity.
Qed.

Lemma create_failure_cases (ans : res Msg) (err : error) :
  create_failure json ans = Some err <->
  (exists e : error,
     ans = Fail e /\ err = noResponders_as e ErrJetStreamNotEnabled) \/
  (exists resp : Msg,
     ans = OK resp /\
     Unmarshal_ConsumerResponse json (msg_Data resp) = Fail err) \/
  (exists (resp : Msg) (info : JSApiConsumerResponse) (e : ApiError),
     ans = OK resp /\
     Unmarshal_ConsumerResponse json (msg_Data resp) = OK info /\
     api_Error (cr_ApiResponse info) = Some e /\
     err = errors_New (err_Description e)).
Proof.
  unfold create_failure. split.
  - destruct ans as [resp|e].
    + destruct (Unmarshal_ConsumerResponse json (msg_Data resp))
        as [info|e] eqn:Hun.
      * destruct (api_Error (cr_ApiResponse info)) as [e|] eqn:He;
          [|discriminate].
        intros [= <-]. right. right. now exists resp, info, e.
      * intros [= <-]. right. left. now exists resp.
    + intros [= <-]. left. now exists e.
  - intros [(e & -> & ->)|[(resp & -> & ->)|(resp & info & e & -> & -> & -> & ->)]];
      reflexivity.
Qed.

End CreateFailures.

(** C4.  A request that follows the local subscription in a run of
    [subscribe] is the create-consumer request of the create path.  When
    it fails (the request itself, with no responders read as JetStream
    not enabled; the decoding of its answer; or a server error in its
    answer), the call returns that error and the one transport call it
    still makes, before returning, unsubscribes the local subscription;
    and an error returned after that request is always one of these
    three. *)
Theorem C4_unsubscribe_after_create_failure (nc : Conn) (json : JSON)
    (js : js) (subj queue : string) (cb : option MsgHandler)
    (ch : option Chan) (opts : list SubOpt) (tr : Trace)
    (pre rest : list Event) (s q : string) (c : option MsgHandler)
    (h : option Chan) (b : bool) (subject j : string) (t : Duration) :
  let run := subscribe nc json js subj queue cb ch opts tr in
  snd run
  = (tr ++ pre ++ EvSubscribe s q c h b :: EvRequest subject j t :: rest)%list ->
  let local :=
    mk_Subscription s q c h b (Some (mk_jsSub js _EMPTY_ _EMPTY_ _EMPTY_ 0)) in
  let ans :=
    conn_Request nc (tr ++ pre ++ [EvSubscribe s q c h b])%list subject j t in
  (exists o : subOpts,
     configureAll configureSubscribe opts subOpts0 = OK o /\
     shouldCreate o = true) /\
  (forall e : error,
     ans = Fail e ->
     fst run = Some (Fail (noResponders_as e ErrJetStreamNotEnabled)) /\
     rest = [EvUnsubscribe local]) /\
  (forall (resp : Msg) (e : error),
     ans = OK resp ->
     Unmarshal_ConsumerResponse json (msg_Data resp) = Fail e ->
     fst run = Some (Fail e) /\ rest = [EvUnsubscribe local]) /\
  (forall (resp : Msg) (info : JSApiConsumerResponse) (e : ApiError),
     ans = OK resp ->
     Unmarshal_ConsumerResponse json (msg_Data resp) = OK info ->
     api_Error (cr_ApiResponse info) = Some e ->
     fst run = Some (Fail (errors_New (err_Description e))) /\
     rest = [EvUnsubscribe local]) /\
  (forall err : error,
     fst run = Some (Fail err) ->
     (exists e : error,
        ans = Fail e /\ err = noResponders_as e ErrJetStreamNotEnabled) \/
     (exists resp : Msg,
        ans = OK resp /\
        Unmarshal_ConsumerResponse json (msg_Data resp) = Fail err) \/
     (exists (resp : Msg) (info : JSApiConsumerResponse) (e : ApiError),
        ans = OK resp /\
        Unmarshal_ConsumerResponse json (msg_Data resp) = OK info /\
        api_Error (cr_ApiResponse info) = Some e /\
        err = errors_New (err_Description e))).
Proof.
  intros run Htr local ans.
  assert (forall evs : list Event,
            Forall (fun ev => is_Subscribe ev = false) evs ->
            snd run = (tr ++ evs)%list -> False) as Hno.
  { intros evs Hevs E. rewrite E in Htr. apply app_inv_head in Htr.
    rewrite Htr in Hevs. apply Forall_app in Hevs as [_ Hevs].
    inversion Hevs. discriminate. }
  assert (snd run = tr -> False) as Hno0.
  { intros E. apply (Hno []); [constructor | now rewrite app_nil_r]. }
  subst run. unfold subscribe in *.
  destruct (configureAll configureSubscribe opts subOpts0) as [o|];
    [|now exfalso].
  destruct (notNil cb && (0 <? so_pull o)); [now exfalso|].
  destruct (js_direct js && shouldCreate o); [now exfalso|].
  unfold bind in *.
  destruct (emits_resolve nc json js subj o (0 <? so_pull o) tr)
    as (evs & E & Hevs).
  destruct (resolve nc json js subj o (0 <? so_pull o) tr) as [[[rs|]|] tr1];
    simpl in E; subst tr1; try (exfalso; now apply (Hno evs)).
  destruct (establish_run nc json js queue cb ch o rs (tr ++ evs)%list)
    as (evs2 & E2 & Hevs2 & Hcases).
  set (out := establish nc json js queue cb ch o rs (tr ++ evs)%list) in *.
  rewrite E2, <- app_assoc in Htr. apply app_inv_head in Htr.
  destruct (split_at_Subscribe evs evs2 pre (EvRequest subject j t :: rest)
              _ (EvSubscribe s q c h b) Hevs eq_refl Hevs2 Htr eq_refl)
    as (-> & [= -> -> -> -> ->] & <-).
  destruct Hcases as [Hcases|(Hc & subject' & j' & rest' & [= <- <- -> <-] & Hf)].
  { inversion Hcases. discriminate. }
  assert (ans = conn_Request nc
                  ((tr ++ evs) ++
                   [EvSubscribe (rs_deliver rs) queue (installed cb o) ch
                      (isNil cb)])%list
                  subject j (js_wait js)) as Hans
    by (subst ans; now rewrite <- app_assoc).
  rewrite <- Hans in Hf. clearbody ans out.
  split; [now exists o|].
  assert (forall err : error,
            create_failure json ans = Some err ->
            fst out = Some (Fail err) /\ rest = [EvUnsubscribe local]) as Hfwd.
  { intros err Hsome. rewrite Hsome in Hf. exact Hf. }
  split; [|split; [|split]].
  - intros e He. apply Hfwd, create_failure_cases. left. now exists e.
  - intros resp e He Hun. apply Hfwd, create_failure_cases.
    right. left. now exists resp.
  - intros resp info e He Hun Herr. apply Hfwd, create_failure_cases.
    right. right. now exists resp, info, e.
  - intros err Herr. apply create_failure_cases.
    destruct (create_failure json ans) as [err'|].
    + destruct Hf as [Hf _]. congruence.
    + now specialize (Hf err).
Qed.

(** The stream ORD is found, the create request is answered with a server
    error: the call fails with its description, having unsubscribed the
    inbox subscription. *)
Lemma C4_witness :
  exists (pre : list Event) (subject j : string),
    subscribe
      (Sample.peer
         (<["$JS.API.STREAM.NAMES" := Sample.names_ORD]>
          {[ "$JS.API.CONSUMER.CREATE.ORD"
             := Sample.error_body 400 "consumer limit reached" ]}))
      Sample.json Sample.ctx "orders" _EMPTY_ None (Some 0%nat) [] []
    = (Some (Fail (errors_New "consumer limit reached")),
       pre ++ [EvSubscribe "_INBOX.1" _EMPTY_ None (Some 0%nat) true;
               EvRequest subject j 5000000000;
               EvUnsubscribe
                 (mk_Subscription "_INBOX.1" _EMPTY_ None (Some 0%nat) true
                    (Some (mk_jsSub Sample.ctx _EMPTY_ _EMPTY_ _EMPTY_ 0)))])%list.
Proof.
  set (nc := Sample.peer _).
  destruct (subscribe nc Sample.json Sample.ctx "orders" _EMPTY_ None
              (Some 0%nat) [] []) as [r tr'] eqn:E.
  pose proof E as E'. vm_compute in E'.
  match type of E' with
  | (_, [?e1; ?e2; ?e3; EvRequest ?sj ?jj ?tt; ?e5]) = _ =>
      injection E' as _ Etr;
      pose proof (C4_unsubscribe_after_create_failure nc Sample.json
                    Sample.ctx "orders" _EMPTY_ None (Some 0%nat) [] []
                    [e1; e2] [e5] "_INBOX.1" _EMPTY_ None (Some 0%nat) true
                    sj jj tt) as H;
      exists [e1; e2], sj, jj
  end.
  rewrite E in H. specialize (H (eq_sym Etr)).
  destruct H as (_ & _ & _ & H & _).
  destruct (H (Sample.reply_msg (Sample.error_body 400 "consumer limit reached"))
              (mk_JSApiConsumerResponse
                 (Sample.error_value 400 "consumer limit reached") None)
              (mk_ApiError 400 "consumer limit reached")
              eq_refl eq_refl eq_refl) as [Hr Hrest].
  simpl in Hr. rewrite Hr. f_equal. rewrite <- Etr. reflexivity.
Defined.

(** ** Scenarios *)

(** The subject router: the prefix is prepended unless it is empty. *)
Lemma apiSubj_prefix (js : js) (suffix : string) :
  apiSubj js suffix
  = if decide (js_pre js = _EMPTY_) then suffix
    else (js_pre js ++ suffix)%string.
Proof.
  unfold apiSubj, str_eqb.
  destruct (decide (js_pre js = _EMPTY_)) as [E|E].
  - now rewrite bool_decide_eq_true_2.
  - now rewrite bool_decide_eq_false_2.
Qed.

(** A publish answered with a server error returns its description. *)
Example publish_wrong_last_sequence :
  Publish (Sample.peer {[ "orders" := Sample.ack_wrong_last_sequence ]})
    Sample.json Sample.ctx "orders" "payload" [ExpectLastSequence 5] []
  = (Some (Fail (errors_New "wrong last sequence")),
     [EvRequestMsg
        (mk_Msg "orders" _EMPTY_
           (Some {[ "Nats-Expected-Last-Sequence" := ["5"] ]})
           "payload" None)
        5000000000]).
Proof. vm_compute. reflexivity. Qed.

(** A publish on a subject without a stream behind it. *)
Example publish_no_stream_response :
  fst (Publish (Sample.peer ∅) Sample.json Sample.ctx "orders" "payload" [] [])
  = Some (Fail ErrNoStreamResponse).
Proof. vm_compute. reflexivity. Qed.

(** A context together with a timeout is refused before the transport. *)
Example publish_context_and_timeout :
  Publish (Sample.peer ∅) Sample.json Sample.ctx "orders" "payload"
    [ContextOpt 1%nat; MaxWait 1000] []
  = (Some (Fail ErrContextAndTimeout), []).
Proof. vm_compute. reflexivity. Qed.

(** Binding with a batch size of 10 to the pull consumer P of the stream
    S: one next-message request for 10 messages is published at bind
    time, with the subscription's own subject as the return address. *)
Example pull_binder_first_request :
  subscribe
    (Sample.peer {[ "$JS.API.CONSUMER.INFO.S.P"
                    := Sample.consumer_body "S" "P" _EMPTY_ "orders" ]})
    Sample.json Sample.ctx "orders" _EMPTY_ None (Some 0%nat)
    [Attach "S" "P"; Pull 10] []
  = (Some (OK (mk_Subscription "_INBOX.1" _EMPTY_ None (Some 0%nat) true
                 (Some (mk_jsSub Sample.ctx "P" "S" _EMPTY_ 10)))),
     [EvRequest "$JS.API.CONSUMER.INFO.S.P" _EMPTY_ 5000000000;
      EvNewInbox;
      EvSubscribe "_INBOX.1" _EMPTY_ None (Some 0%nat) true;
      EvPublishRequest "$JS.API.CONSUMER.MSG.NEXT.S.P" "_INBOX.1"
        ("{" ++ Sample.field "batch" "10" ++ "}")%string]).
Proof. vm_compute. reflexivity. Qed.

(** A batch size of zero is refused when the options are applied. *)
Example pull_zero_refused :
  subscribe (Sample.peer ∅) Sample.json Sample.ctx "orders" _EMPTY_ None
    (Some 0%nat) [Pull 0] []
  = (Some (Fail batch_size_0), []).
Proof. vm_compute. reflexivity. Qed.

(** A callback without manual ack is installed wrapped, and the create
    request of a push subscription carries the inbox as deliver subject. *)
Example push_create_with_callback :
  snd (subscribe
         (Sample.peer
            (<["$JS.API.STREAM.NAMES" := Sample.names_ORD]>
             {[ "$JS.API.CONSUMER.CREATE.ORD"
                := Sample.consumer_body "ORD" "eph1" "_INBOX.1" "orders" ]}))
         Sample.json Sample.ctx "orders" _EMPTY_ (Some (UserHandler 7)) None
         [] [])
  = [EvRequest "$JS.API.STREAM.NAMES"
       ("{" ++ Sample.field "subject" (Sample.jsonString "orders") ++ "}")%string
       5000000000;
     EvNewInbox;
     EvSubscribe "_INBOX.1" _EMPTY_ (Some (AckAfter (UserHandler 7))) None
       false;
     EvRequest "$JS.API.CONSUMER.CREATE.ORD"
       (match
          Sample.encode_create
            (mk_JSApiCreateConsumerRequest "ORD"
               (mk_ConsumerConfig _EMPTY_ "_INBOX.1" jetstream.DeliverAll 0
                  None jetstream.AckExplicit 0 0 "orders"
                  jetstream.ReplayInstant 0 _EMPTY_ 0 65536))
        with
        | OK j => j
        | Fail _ => _EMPTY_
        end)
       5000000000].
Proof. vm_compute. reflexivity. Qed.

(** Metadata of a reply subject with too few tokens, and of one whose
    markers are wrong. *)
Example metadata_short_subject :
  MetaData (Some (Sample.delivered "$JS.ACK.S.C.1.22.3"
                    (Some Sample.push_sub)))
  = Some (Fail ErrNotJSMessage).
Proof. vm_compute. reflexivity. Qed.

Example metadata_wrong_marker :
  MetaData (Some (Sample.delivered "$JS.NAK.S.C.1.22.3.4.0"
                    (Some Sample.push_sub)))
  = Some (Fail ErrNotJSMessage).
Proof. vm_compute. reflexivity. Qed.

(** A digit string beyond 64 bits wraps: 2^64 + 5 is read as 5. *)
Example metadata_wraps :
  parseNum "18446744073709551621" = 5.
Proof. vm_compute. reflexivity. Qed.

(** A message of a subscription made outside JetStream. *)
Example ack_not_js_message :
  Ack (Sample.peer ∅)
    (Some (Sample.delivered "reply"
             (Some (mk_Subscription "orders" _EMPTY_ None (Some 0%nat) true
                      None)))) []
  = (Some (Some ErrNotJSMessage), []).
Proof. vm_compute. reflexivity. Qed.

(** Acknowledging on a nil message panics on its first read. *)
Example ack_nil_message :
  Ack (Sample.peer ∅) None [] = (None, []).
Proof. reflexivity. Qed.

(** * Further properties *)

(** ** Numbers in reply subjects *)

Section DecimalText.

Lemma is_digit_value (c : ascii) :
  is_digit c = true -> 0 <= byte_val c - asciiZero <= 9.
Proof.
  unfold is_digit, asciiZero, asciiNine. intros H.
  apply andb_true_iff in H as [H1 H2].
  apply Z.leb_le in H1, H2. lia.
Qed.

(** A string of digits continues [n] by as many decimal places as it
    has bytes. *)
Lemma decimal_from_bounds (d : string) (n : Z) :
  all_digits d = true -> 0 <= n ->
  n * 10 ^ Z.of_nat (String.length d) <= decimal_from d n
  < (n + 1) * 10 ^ Z.of_nat (String.length d).
Proof.
  revert n. induction d as [|c d IH]; intros n H Hn.
  - simpl. lia.
  - simpl in H. apply andb_true_iff in H as [Hc Hd].
    apply is_digit_value in Hc.
    cbn [decimal_from String.length].
    specialize (IH (n * 10 + (byte_val c - asciiZero)) Hd ltac:(lia)).
    rewrite Nat2Z.inj_succ, Z.pow_succ_r by lia.
    assert (0 < 10 ^ Z.of_nat (String.length d)) by (apply Z.pow_pos_nonneg; lia).
    nia.
Qed.

Lemma decimal_from_of_uint_acc (d : Decimal.uint) (acc : positive) :
  decimal_from (NilEmpty.string_of_uint d) (Z.pos acc)
  = Z.pos (Pos.of_uint_acc d acc).
Proof.
  revert acc.
  induction d; intros acc;
    cbn [NilEmpty.string_of_uint decimal_from Pos.of_uint_acc];
    [reflexivity | rewrite <- IHd; f_equal; unfold asciiZero ..].
  all: match goal with
       | |- context [byte_val ?c] =>
           let v := eval vm_compute in (byte_val c) in
           change (byte_val c) with v
       end; lia.
Qed.

Lemma decimal_of_uint (d : Decimal.uint) :
  decimal (NilEmpty.string_of_uint d) = Z.of_N (Pos.of_uint d).
Proof.
  unfold decimal.
  induction d; cbn [NilEmpty.string_of_uint decimal_from Pos.of_uint];
    [reflexivity | exact IHd | ..];
    apply decimal_from_of_uint_acc.
Qed.

Lemma all_digits_of_uint (d : Decimal.uint) :
  all_digits (NilEmpty.string_of_uint d) = true.
Proof. induction d; simpl; auto. Qed.

Lemma to_uint_not_Nil (n : N) : N.to_uint n <> Decimal.Nil.
Proof.
  intros E. pose proof (DecimalN.Unsigned.of_to n) as H.
  rewrite E in H. simpl in H. subst n. discriminate.
Qed.

Lemma FormatUint_text (n : Z) :
  FormatUint n = NilEmpty.string_of_uint (N.to_uint (Z.to_N n)).
Proof.
  unfold FormatUint, NilZero.string_of_uint.
  pose proof (to_uint_not_Nil (Z.to_N n)) as H.
  destruct (N.to_uint (Z.to_N n)); [contradiction | reflexivity ..].
Qed.

Lemma FormatUint_digits (n : Z) :
  all_digits (FormatUint n) = true /\ FormatUint n <> _EMPTY_.
Proof.
  rewrite FormatUint_text. split; [apply all_digits_of_uint|].
  pose proof (to_uint_not_Nil (Z.to_N n)) as H.
  destruct (N.to_uint (Z.to_N n)); [contradiction | discriminate ..].
Qed.

Lemma decimal_FormatUint (n : Z) : 0 <= n -> decimal (FormatUint n) = n.
Proof.
  intros H. rewrite FormatUint_text, decimal_of_uint.
  change (Pos.of_uint (N.to_uint (Z.to_N n)))
    with (N.of_uint (N.to_uint (Z.to_N n))).
  rewrite DecimalN.Unsigned.of_to. now apply Z2N.id.
Qed.

End DecimalText.

(** X1.  On a non-empty string of at most eighteen digits [parseNum]
    returns the number the digits denote, without wrap-around: a value
    from 0 to 10^18 - 1, never the sentinel. *)
Theorem parseNum_exact (d : string) :
  d <> _EMPTY_ -> all_digits d = true -> (String.length d <= 18)%nat ->
  parseNum d = decimal d /\ 0 <= parseNum d < 10 ^ 18.
Proof.
  intros Hne Hd Hlen.
  pose proof (decimal_from_bounds d 0 Hd ltac:(lia)) as Hb.
  fold (decimal d) in Hb.
  assert (10 ^ Z.of_nat (String.length d) <= 10 ^ 18) as Hp
    by (apply Z.pow_le_mono_r; lia).
  assert (0 <= decimal d < 10 ^ 18) as Hr by lia.
  rewrite (parseNum_digits d Hne Hd), wrap_small.
  - now split.
  - unfold Int64.half. lia.
Qed.

Lemma parseNum_exact_witness :
  parseNum "160000000000000000" = 160000000000000000 /\
  0 <= parseNum "160000000000000000" < 10 ^ 18.
Proof.
  apply (parseNum_exact "160000000000000000").
  - discriminate.
  - reflexivity.
  - simpl. lia.
Defined.

Section ReadBack.

Lemma parseNum_FormatUint_wrap (n : Z) :
  0 <= n -> parseNum (FormatUint n) = Int64.wrap n.
Proof.
  intros H. destruct (FormatUint_digits n) as [Hd Hne].
  now rewrite (parseNum_digits _ Hne Hd), decimal_FormatUint.
Qed.

Lemma parseNum_FormatUint_uint64 (n : Z) :
  0 <= n < Int64.modulus -> Int64.to_uint64 (parseNum (FormatUint n)) = n.
Proof.
  intros H. rewrite parseNum_FormatUint_wrap, to_uint64_wrap by lia.
  now apply Z.mod_small.
Qed.

Lemma parseNum_FormatUint_int64 (n : Z) :
  0 <= n < Int64.half -> parseNum (FormatUint n) = n.
Proof.
  intros H. rewrite parseNum_FormatUint_wrap by lia.
  apply wrap_small. unfold Int64.half in *. lia.
Qed.

Lemma digits_dot_free (d : string) : all_digits d = true -> dot_free d = true.
Proof.
  induction d as [|c d IH]; [reflexivity|]. simpl. intros H.
  apply andb_true_iff in H as [Hc Hd]. rewrite (IH Hd), andb_true_r.
  apply negb_true_iff, bool_decide_eq_false. intros ->. discriminate.
Qed.

End ReadBack.

(** X2.  The decimal text [strconv.FormatUint] writes for an unsigned
    64-bit number is read back by [parseNum]: converted to [uint64], as
    [MetaData] does, the result is the number, and below 2^63 the
    [int64] returned is the number itself. *)
Theorem parseNum_FormatUint (n : Z) :
  0 <= n < Int64.modulus ->
  Int64.to_uint64 (parseNum (FormatUint n)) = n /\
  (n < Int64.half -> parseNum (FormatUint n) = n).
Proof.
  intros H. split.
  - now apply parseNum_FormatUint_uint64.
  - intros Hh. apply parseNum_FormatUint_int64. lia.
Qed.

Lemma parseNum_FormatUint_witness :
  Int64.to_uint64 (parseNum (FormatUint 18446744073709551615))
  = 18446744073709551615.
Proof.
  refine (proj1 (parseNum_FormatUint 18446744073709551615 _)).
  unfold Int64.modulus. lia.
Defined.

(** X3.  [MetaData] reads back the numbers of a reply subject written in
    the ack format: for a message of a JetStream subscription whose reply
    subject is $JS.ACK, a stream and a consumer name without separator,
    and the decimal texts of the delivered count, the stream sequence,
    the consumer sequence, the timestamp and the pending count, it
    returns exactly these five numbers, the counts being any unsigned
    64-bit numbers and the timestamp any number of nanoseconds from 0 up
    to 2^63 - 1. *)
Theorem MetaData_reads_back (m : Msg) (x : js * bool)
    (stream consumer : string) (delivered sseq cseq ts pending : Z) :
  checkReply (Some m) = Some (OK x) ->
  dot_free stream = true -> dot_free consumer = true ->
  0 <= delivered < Int64.modulus -> 0 <= sseq < Int64.modulus ->
  0 <= cseq < Int64.modulus -> 0 <= ts < Int64.half ->
  0 <= pending < Int64.modulus ->
  msg_Reply m
  = join_dots ["$JS"; "ACK"; stream; consumer; FormatUint delivered;
               FormatUint sseq; FormatUint cseq; FormatUint ts;
               FormatUint pending] ->
  MetaData (Some m)
  = Some (OK {| md_Consumer := cseq; md_Stream := sseq;
                md_Delivered := delivered; md_Pending := pending;
                md_Timestamp := ts |}).
Proof.
  intros Hc Hs Hco Hd Hss Hcs Hts Hp Hr.
  rewrite (MetaData_tokens m x _ Hc eq_refl), Hr, tokenize_join.
  - simpl.
    rewrite <- !parseNum_decoded_count, <- parseNum_decoded_time.
    rewrite !parseNum_FormatUint_uint64 by assumption.
    now rewrite parseNum_FormatUint_int64.
  - discriminate.
  - repeat constructor; try assumption;
      apply digits_dot_free, FormatUint_digits.
Qed.

Lemma MetaData_reads_back_witness :
  MetaData (Some (Sample.delivered Sample.ack_subject (Some Sample.push_sub)))
  = Some (OK {| md_Consumer := 3; md_Stream := 22; md_Delivered := 1;
                md_Pending := 0; md_Timestamp := 1600000000000000000 |}).
Proof.
  apply (MetaData_reads_back _ (Sample.ctx, false) "S" "C" 1 22 3
           1600000000000000000 0);
    try reflexivity; unfold Int64.modulus, Int64.half; lia.
Defined.

(** ** Where acknowledgments go *)

(** X4.  On a message that is not nil an acknowledgment never panics,
    and whatever its kind and the mode, every transport call it makes
    publishes or requests on the reply subject of the message; there are
    at most two such calls, and at most one unless the acknowledgment is
    synchronous. *)
Theorem acks_go_to_the_reply_subject (nc : Conn) (m : Msg)
    (ackType : string) (sync : bool) (tr : Trace) :
  exists (evs : list Event) (err : option error),
    ackReply nc (Some m) ackType sync tr = (Some err, (tr ++ evs)%list) /\
    Forall (addressed_to (msg_Reply m)) evs /\
    (length evs <= if sync then 2 else 1)%nat.
Proof.
  unfold ackReply.
  destruct (checkReply (Some m)) as [[[js pull]|err]|] eqn:Hc.
  3: { destruct m as [s r h d sub]. unfold checkReply in Hc. simpl in Hc.
       destruct (str_eqb r _EMPTY_); [discriminate|].
       destruct sub as [sub|]; [|discriminate].
       simpl in Hc. now destruct (sub_jsi sub). }
  2: { exists [], (Some err). rewrite app_nil_r.
       repeat split; [constructor | destruct sync; simpl; lia]. }
  rewrite bind_lift_some, bind_lift_some.
  destruct pull.
  - apply checkReply_OK in Hc as (_ & sub & jsi & Hs & _).
    rewrite Hs, bind_lift_some.
    unfold nc_PublishRequest, nc_Request.
    destruct (bytes_Equal ackType AckAck);
      [|destruct (bytes_Equal ackType AckNak || bytes_Equal ackType AckTerm)];
      rewrite ?bind_call_eq, ?bind_ret_eq.
    1, 2: destruct sync; simpl;
      [ destruct (isNil _); rewrite ?bind_call_eq; unfold ret; simpl;
        rewrite <- ?app_assoc; eexists _, _; (split; [reflexivity|]);
        (split; [repeat constructor | simpl; lia])
      | unfold ret; eexists _, _; (split; [reflexivity|]);
        (split; [repeat constructor | simpl; lia]) ].
    destruct sync; simpl; rewrite ?bind_call_eq; unfold ret; simpl.
    + eexists _, _; (split; [reflexivity|]).
      split; [repeat constructor | simpl; lia].
    + exists [], None. rewrite app_nil_r.
      repeat split; [constructor | simpl; lia].
  - unfold nc_Request, nc_Publish. destruct sync.
    + rewrite bind_call_eq. unfold ret. simpl. eexists _, _.
      split; [reflexivity|]. split; [repeat constructor | simpl; lia].
    + unfold call. simpl. eexists _, _. split; [reflexivity|].
      split; [repeat constructor | simpl; lia].
Qed.

(** ** The request of a publish *)

Section PublishRequest.

Variable nc : Conn.
Variable json : JSON.

Lemma str_neqb_decide (a b : string) :
  str_neqb a b = if decide (a = b) then false else true.
Proof.
  destruct (decide (a = b)) as [E|E].
  - now apply str_neqb_false.
  - now apply str_neqb_true.
Qed.

Lemma ltb_decide (a b : Z) : (a <? b) = if decide (a < b) then true else false.
Proof.
  destruct (decide (a < b)) as [E|E].
  - now apply Z.ltb_lt.
  - apply Z.ltb_ge. lia.
Qed.

(** One of the four header writes, on a message whose header map
    exists. *)
Lemma stage_header (b : bool) (m : Msg) (k v : string) (h : Header)
    (tr : Trace) :
  msg_Header m = Some h ->
  (if b then lift (Header_Set m k v) else ret m) tr
  = (Some (mk_Msg (msg_Subject m) (msg_Reply m)
             (Some (if b then <[k := [v]]> h else h)) (msg_Data m)
             (msg_Sub m)), tr).
Proof.
  intros H. destruct b.
  - unfold Header_Set. now rewrite H.
  - destruct m. simpl in *. now subst.
Qed.

(** The options of a publish never fail. *)
Lemma configurePublish_total (opts : list PubOpt) (o0 : pubOpts) :
  exists o : pubOpts, configureAll configurePublish opts o0 = OK o.
Proof.
  revert o0. induction opts as [|opt opts IH]; intros o0; simpl.
  - now exists o0.
  - destruct o0, opt; simpl; apply IH.
Qed.

(** The request of a publish past the clash test: the message sent and
    the call that sends it. *)
Lemma PublishMsg_sends (js : js) (m : Msg) (opts : list PubOpt) (o : pubOpts)
    (tr : Trace) :
  configureAll configurePublish opts pubOpts0 = OK o ->
  notNil (po_ctx o) && negb (po_ttl o =? 0) = false ->
  let ttl :=
    if (po_ttl o =? 0) && isNil (po_ctx o) then js_wait js else po_ttl o in
  exists m' : Msg,
    PublishMsg nc json js m opts tr
    = (if 0 <? ttl
       then (Some (publish_result json (conn_RequestMsg nc tr m' ttl)),
             (tr ++ [EvRequestMsg m' ttl])%list)
       else (Some (publish_result json
                     (conn_RequestMsgWithContext nc tr (po_ctx o) m')),
             (tr ++ [EvRequestMsgWithContext (po_ctx o) m'])%list)) /\
    msg_Subject m' = msg_Subject m /\ msg_Reply m' = msg_Reply m /\
    msg_Data m' = msg_Data m /\ msg_Sub m' = msg_Sub m /\
    match opts with
    | [] => msg_Header m' = msg_Header m
    | _ :: _ =>
        exists h' : Header,
          msg_Header m' = Some h' /\
          forall k : string,
            h' !! k = match stamped o k with
                      | Some v => Some v
                      | None => default ∅ (msg_Header m) !! k
                      end
    end.
Proof.
  intros Ho Hclash ttl. unfold PublishMsg. fold pubOpts0. rewrite Ho, Hclash.
  fold ttl.
  destruct opts as [|opt opts].
  - injection Ho as <-. exists m. subst ttl. cbn.
    destruct (0 <? js_wait js); repeat split; reflexivity.
  - set (m1 := if (0 <? length (opt :: opts))%nat && isNil (msg_Header m)
                then mk_Msg (msg_Subject m) (msg_Reply m) (Some ∅)
                       (msg_Data m) (msg_Sub m)
                else m).
    assert (msg_Header m1 = Some (default ∅ (msg_Header m)) /\
            msg_Subject m1 = msg_Subject m /\ msg_Reply m1 = msg_Reply m /\
            msg_Data m1 = msg_Data m /\ msg_Sub m1 = msg_Sub m)
      as (H1 & Hs & Hr & Hd & Hb).
    { subst m1. simpl. destruct (msg_Header m) eqn:E; simpl; now rewrite ?E. }
    clearbody m1. unfold bind.
    rewrite (stage_header _ m1 _ _ _ tr H1).
    rewrite (stage_header _ (mk_Msg _ _ _ _ _) _ _ _ tr eq_refl).
    rewrite (stage_header _ (mk_Msg _ _ _ _ _) _ _ _ tr eq_refl).
    rewrite (stage_header _ (mk_Msg _ _ _ _ _) _ _ _ tr eq_refl).
    cbn [msg_Subject msg_Reply msg_Data msg_Sub msg_Header].
    eexists. split.
    { unfold nc_RequestMsg, nc_RequestMsgWithContext, call, ret.
      destruct (0 <? ttl); reflexivity. }
    cbn [msg_Subject msg_Reply msg_Data msg_Sub msg_Header].
    repeat (split; [assumption|]).
    eexists. split; [reflexivity|]. intros k.
    rewrite !str_neqb_decide, ltb_decide. unfold stamped.
    repeat match goal with
           | |- context [decide ?P] => destruct (decide P)
           end;
      rewrite ?lookup_insert;
      repeat match goal with
             | |- context [decide ?P] => destruct (decide P)
             end;
      subst; try reflexivity; try discriminate; try contradiction;
      try congruence.
Qed.

End PublishRequest.

(** X5.  What a publish sends, by its options.  With both a context and
    a timeout set the call fails with the context-and-timeout error
    before the transport.  Otherwise it makes one request: with the
    timeout given, or the context's wait when neither a timeout nor a
    context is given, when that timeout is positive, and else with the
    context given (nil when none was).  The message sent has the subject,
    reply, data and subscription of the caller's message; without
    options its header is the caller's, and with options it holds, under
    the four header names, the message id, the expected last message id,
    the expected stream and the decimal text of the expected last
    sequence, each only when set, and under every other name what the
    caller's header held. *)
Theorem PublishMsg_request (nc : Conn) (json : JSON) (js : js) (m : Msg)
    (opts : list PubOpt) (o : pubOpts) (tr : Trace) :
  configureAll configurePublish opts pubOpts0 = OK o ->
  let run := PublishMsg nc json js m opts tr in
  let ttl :=
    if decide (po_ttl o = 0 /\ po_ctx o = None) then js_wait js
    else po_ttl o in
  (po_ctx o <> None -> po_ttl o <> 0 ->
   run = (Some (Fail ErrContextAndTimeout), tr)) /\
  (~ (po_ctx o <> None /\ po_ttl o <> 0) ->
   exists m' : Msg,
     snd run
     = (tr ++ [if decide (0 < ttl) then EvRequestMsg m' ttl
               else EvRequestMsgWithContext (po_ctx o) m'])%list /\
     msg_Subject m' = msg_Subject m /\ msg_Reply m' = msg_Reply m /\
     msg_Data m' = msg_Data m /\ msg_Sub m' = msg_Sub m /\
     match opts with
     | [] => msg_Header m' = msg_Header m
     | _ :: _ =>
         exists h' : Header,
           msg_Header m' = Some h' /\
           forall k : string,
             h' !! k = match stamped o k with
                       | Some v => Some v
                       | None => default ∅ (msg_Header m) !! k
                       end
     end).
Proof.
  intros Ho run ttl. split.
  - intros Hc Ht. subst run. unfold PublishMsg. fold pubOpts0. rewrite Ho.
    destruct (po_ctx o); [|contradiction].
    apply Z.eqb_neq in Ht. now rewrite Ht.
  - intros Hn.
    assert (notNil (po_ctx o) && negb (po_ttl o =? 0) = false) as Hclash.
    { apply andb_false_iff.
      destruct (po_ctx o); [right | now left].
      apply negb_false_iff, Z.eqb_eq.
      destruct (decide (po_ttl o = 0)); [assumption|].
      exfalso. apply Hn. split; [discriminate | assumption]. }
    destruct (PublishMsg_sends nc json js m opts o tr Ho Hclash)
      as (m' & Hrun & Hrest).
    exists m'. split; [|exact Hrest].
    subst run. rewrite Hrun.
    assert ((if (po_ttl o =? 0) && isNil (po_ctx o) then js_wait js
             else po_ttl o) = ttl) as ->.
    { subst ttl. destruct (decide (po_ttl o = 0 /\ po_ctx o = None))
        as [[E1 E2]|E].
      - now rewrite E1, E2.
      - destruct (po_ttl o =? 0) eqn:E1; [|reflexivity].
        destruct (po_ctx o); [reflexivity|].
        apply Z.eqb_eq in E1. exfalso. now apply E. }
    rewrite ltb_decide. now destruct (decide (0 < ttl)).
Qed.

(** A publish on the subject orders with a message id and an expected
    last sequence. *)
Lemma PublishMsg_request_witness :
  exists (m' : Msg) (h' : Header),
    snd (Publish (Sample.peer ∅) Sample.json Sample.ctx "orders" "payload"
           [MsgId "a1"; ExpectLastSequence 5] [])
    = [EvRequestMsg m' 5000000000] /\
    msg_Subject m' = "orders" /\ msg_Data m' = "payload" /\
    msg_Header m' = Some h' /\
    h' !! MsgIdHdr = Some ["a1"] /\ h' !! ExpectedLastSeqHdr = Some ["5"] /\
    h' !! ExpectedStreamHdr = None.
Proof.
  destruct (PublishMsg_request (Sample.peer ∅) Sample.json Sample.ctx
              (mk_Msg "orders" _EMPTY_ None "payload" None)
              [MsgId "a1"; ExpectLastSequence 5] _ [] eq_refl) as [_ H].
  destruct H as (m' & Hrun & Hs & _ & Hd & _ & h' & Hh & Hk).
  { intros [_ Ht]. now apply Ht. }
  exists m', h'. repeat split; try assumption.
  - apply (Hk MsgIdHdr).
  - apply (Hk ExpectedLastSeqHdr).
  - apply (Hk ExpectedStreamHdr).
Defined.

(** X6.  A publish always returns.  Its options never fail, and it never
    panics: whenever one of the four headers is to be written, an option
    was given, and with an option given the header map of the message
    has been made if it was nil. *)
Theorem PublishMsg_never_panics (nc : Conn) (json : JSON) (js : js)
    (m : Msg) (opts : list PubOpt) (tr : Trace) :
  (exists o : pubOpts, configureAll configurePublish opts pubOpts0 = OK o) /\
  (exists r : res PubAck, fst (PublishMsg nc json js m opts tr) = Some r).
Proof.
  split; [apply configurePublish_total|].
  destruct (PublishMsg_run nc json js m opts tr)
    as [(err & H)|(tr' & r & _ & H)]; rewrite H; simpl; eauto.
Qed.

(** ** The consumer binder, further *)

Section Binder.

Variable nc : Conn.
Variable json : JSON.

(** Only a batch size of zero makes an option fail. *)
Lemma configureSubscribe_Fail (opts : list SubOpt) (o0 : subOpts)
    (err : error) :
  configureAll configureSubscribe opts o0 = Fail err -> err = batch_size_0.
Proof.
  revert o0. induction opts as [|opt opts IH]; intros o0; simpl;
    [discriminate|].
  destruct (configureSubscribe opt o0) as [o1|e] eqn:E; [apply IH|].
  intros [= <-]. destruct o0, opt; simpl in E; try discriminate;
    destruct (batchSize =? 0); now inversion E.
Qed.

Lemma configureSubscribe_zero (opts : list SubOpt) (o0 : subOpts) :
  (Pull 0 ∈ opts \/
   exists stream consumer : string, PullDirect stream consumer 0 ∈ opts) ->
  configureAll configureSubscribe opts o0 = Fail batch_size_0.
Proof.
  revert o0. induction opts as [|opt opts IH]; intros o0 H.
  - destruct H as [H|(s & c & H)]; inversion H.
  - simpl. destruct (configureSubscribe opt o0) as [o1|e] eqn:E.
    + apply IH.
      destruct H as [H|(s & c & H)]; apply elem_of_cons in H as [<-|H];
        try (destruct o0; simpl in E; discriminate); eauto.
    + f_equal.
      apply (configureSubscribe_Fail [opt] o0). simpl. now rewrite E.
Qed.

Lemma configureAll_app {O Opts : Type} (configure : O -> Opts -> res Opts)
    (l1 l2 : list O) (o0 : Opts) :
  configureAll configure (l1 ++ l2) o0
  = match configureAll configure l1 o0 with
    | OK o => configureAll configure l2 o
    | Fail err => Fail err
    end.
Proof.
  revert o0. induction l1 as [|x l1 IH]; intros o0; simpl; [reflexivity|].
  destruct (configure x o0); [apply IH | reflexivity].
Qed.

(** The run of [subscribe] past the options does not depend on a batch
    size that is not positive. *)
Lemma subscribe_without_pull (js : js) (subj queue : string)
    (cb : option MsgHandler) (ch : option Chan) (opts1 opts2 : list SubOpt)
    (stream consumer : string) (p1 p2 : Z) (mack : bool)
    (cfg : ConsumerConfig) (tr : Trace) :
  configureAll configureSubscribe opts1 subOpts0
  = OK (mk_subOpts stream consumer p1 mack cfg) ->
  configureAll configureSubscribe opts2 subOpts0
  = OK (mk_subOpts stream consumer p2 mack cfg) ->
  p1 <= 0 -> p2 <= 0 ->
  subscribe nc json js subj queue cb ch opts1 tr
  = subscribe nc json js subj queue cb ch opts2 tr.
Proof.
  intros H1 H2 Hp1 Hp2. unfold subscribe. rewrite H1, H2.
  unfold establish, first_pull, installed, shouldCreate, shouldAttach,
    resolve, bind_consumer, shouldCreate, shouldAttach.
  cbn [so_pull so_cfg so_stream so_consumer so_mack].
  apply Z.ltb_ge in Hp1, Hp2. rewrite Hp1, Hp2. reflexivity.
Qed.

End Binder.

(** X7.  Batch sizes at the edges.  A batch size of zero, given through
    [Pull] or [PullDirect] anywhere among the options, fails the call
    with the batch-size error before any transport call.  A negative
    batch size is accepted and then ignored: added to options that ask
    for no pull, [Pull] with a negative size changes nothing in the run
    of the call, which binds in push mode. *)
Theorem batch_sizes_at_the_edges (nc : Conn) (json : JSON) (js : js)
    (subj queue : string) (cb : option MsgHandler) (ch : option Chan)
    (opts : list SubOpt) (tr : Trace) :
  ((Pull 0 ∈ opts \/
    exists stream consumer : string, PullDirect stream consumer 0 ∈ opts) ->
   subscribe nc json js subj queue cb ch opts tr
   = (Some (Fail batch_size_0), tr)) /\
  (forall (o : subOpts) (n : Z),
     configureAll configureSubscribe opts subOpts0 = OK o ->
     so_pull o <= 0 -> n < 0 ->
     subscribe nc json js subj queue cb ch (opts ++ [Pull n]) tr
     = subscribe nc json js subj queue cb ch opts tr).
Proof.
  split.
  - intros H. unfold subscribe.
    now rewrite (configureSubscribe_zero opts subOpts0 H).
  - intros [stream consumer pull mack cfg] n Ho Hp Hn. simpl in Hp.
    apply (subscribe_without_pull nc json js subj queue cb ch _ _
             stream consumer n pull mack cfg).
    + rewrite configureAll_app, Ho. simpl.
      replace (n =? 0) with false by (symmetry; apply Z.eqb_neq; lia).
      reflexivity.
    + exact Ho.
    + lia.
    + exact Hp.
Qed.

(** X8.  The stream lookup returns a stream exactly when its request on
    the stream-names subject, carrying the encoded subject, is answered
    by a body that decodes without server error and lists exactly one
    stream, which is the one returned; it makes no other transport
    call. *)
Theorem lookup_needs_exactly_one_stream (nc : Conn) (json : JSON) (js : js)
    (subj : string) (tr : Trace) :
  let run := lookupStreamBySubject nc json js subj tr in
  (forall stream : string,
     fst run = Some (OK stream) <->
     exists (j : string) (resp : Msg) (slr : JSApiStreamNamesResponse),
       Marshal_streamRequest json (mk_streamRequest subj) = OK j /\
       conn_Request nc tr (apiSubj js JSApiStreams) j (js_wait js) = OK resp /\
       Unmarshal_StreamNamesResponse json (msg_Data resp) = OK slr /\
       api_Error (snr_ApiResponse slr) = None /\
       snr_Streams slr = [stream]) /\
  (snd run = tr \/
   exists j : string,
     Marshal_streamRequest json (mk_streamRequest subj) = OK j /\
     snd run = (tr ++ [EvRequest (apiSubj js JSApiStreams) j (js_wait js)])%list).
Proof.
  intros run. subst run. unfold lookupStreamBySubject.
  destruct (Marshal_streamRequest json (mk_streamRequest subj)) as [j|e].
  2: { split; [|now left]. intros stream. split; [discriminate|].
       intros (? & ? & ? & ? & _). discriminate. }
  unfold nc_Request. rewrite bind_call_eq.
  set (subject := apiSubj js JSApiStreams).
  split.
  - intros stream.
    destruct (conn_Request nc tr subject j (js_wait js)) as [resp|e] eqn:Hans.
    2: { split; [discriminate|].
         intros (j0 & resp0 & slr0 & [= <-] & HB & _). congruence. }
    destruct (Unmarshal_StreamNamesResponse json (msg_Data resp))
      as [slr|e] eqn:Hun.
    2: { split; [discriminate|].
         intros (j0 & resp0 & slr0 & [= <-] & HB & HC & _). congruence. }
    destruct (api_Error (snr_ApiResponse slr)) as [e|] eqn:He; simpl.
    { split; [discriminate|].
      intros (j0 & resp0 & slr0 & [= <-] & HB & HC & HD & _). congruence. }
    destruct (snr_Streams slr) as [|s1 [|s2 l]] eqn:Hs; simpl.
    + split; [discriminate|].
      intros (j0 & resp0 & slr0 & [= <-] & HB & HC & HD & HE). congruence.
    + split.
      * intros [= <-]. now exists j, resp, slr.
      * intros (j0 & resp0 & slr0 & [= <-] & HB & HC & HD & HE). congruence.
    + split; [discriminate|].
      intros (j0 & resp0 & slr0 & [= <-] & HB & HC & HD & HE). congruence.
  - right. exists j. split; [reflexivity|].
    destruct (conn_Request nc tr subject j (js_wait js)) as [resp|e];
      [|reflexivity].
    destruct (Unmarshal_StreamNamesResponse json (msg_Data resp));
      [|reflexivity].
    now destruct (_ || _).
Qed.



Section LocalSubscription.

Variable nc : Conn.
Variable json : JSON.

(** Manual acknowledgment is on exactly when the option was given. *)
Lemma configureSubscribe_mack (opts : list SubOpt) (o0 o : subOpts) :
  configureAll configureSubscribe opts o0 = OK o ->
  so_mack o = true <-> (so_mack o0 = true \/ ManualAck ∈ opts).
Proof.
  revert o0. induction opts as [|opt opts IH]; intros o0; simpl.
  - intros [= <-]. split; [now left|].
    intros [H|H]; [exact H | inversion H].
  - destruct (configureSubscribe opt o0) as [o1|] eqn:E; [|discriminate].
    intros H. rewrite (IH o1 H).
    assert (so_mack o1 = true <-> so_mack o0 = true \/ opt = ManualAck) as ->.
    { destruct o0, opt; simpl in E;
        try (destruct (batchSize =? 0); [discriminate|]);
        injection E as <-; simpl;
        (split; [intros Hm|intros [Hm|Hm]]); try discriminate; auto. }
    rewrite elem_of_cons. split.
    + intros [[?|?]|?]; auto.
    + intros [?|[?|?]]; auto.
Qed.

(** The calls of a run of [subscribe], around its local subscription. *)
Lemma subscribe_local (js : js) (subj queue : string)
    (cb : option MsgHandler) (ch : option Chan) (opts : list SubOpt)
    (tr : Trace) (pre post : list Event) (ev : Event) :
  is_Subscribe ev = true ->
  snd (subscribe nc json js subj queue cb ch opts tr)
  = (tr ++ pre ++ ev :: post)%list ->
  exists (o : subOpts) (rs : resolved),
    configureAll configureSubscribe opts subOpts0 = OK o /\
    js_direct js && shouldCreate o = false /\
    resolve nc json js subj o (0 <? so_pull o) tr
    = (Some (OK rs), (tr ++ pre)%list) /\
    Forall (fun e => is_Subscribe e = false) pre /\
    Forall (fun e => is_Subscribe e = false) post /\
    ev = EvSubscribe (rs_deliver rs) queue (installed cb o) ch (isNil cb) /\
    snd (establish nc json js queue cb ch o rs (tr ++ pre)%list)
    = ((tr ++ pre) ++ ev :: post)%list.
Proof.
  intros Hev Htr.
  assert (forall evs : list Event,
            Forall (fun e => is_Subscribe e = false) evs ->
            snd (subscribe nc json js subj queue cb ch opts tr)
            = (tr ++ evs)%list -> False) as Hno.
  { intros evs Hevs E. rewrite E in Htr. apply app_inv_head in Htr.
    rewrite Htr in Hevs. apply Forall_app in Hevs as [_ Hevs].
    inversion Hevs. congruence. }
  assert (snd (subscribe nc json js subj queue cb ch opts tr) = tr -> False)
    as Hno0.
  { intros E. apply (Hno []); [constructor | now rewrite app_nil_r]. }
  unfold subscribe in *.
  destruct (configureAll configureSubscribe opts subOpts0) as [o|];
    [|now exfalso].
  destruct (notNil cb && (0 <? so_pull o)); [now exfalso|].
  destruct (js_direct js && shouldCreate o) eqn:Hdc; [now exfalso|].
  unfold bind in *.
  destruct (emits_resolve nc json js subj o (0 <? so_pull o) tr)
    as (evs & E & Hevs).
  destruct (resolve nc json js subj o (0 <? so_pull o) tr) as [[[rs|]|] tr1]
    eqn:Hres;
    simpl in E; subst tr1; try (exfalso; now apply (Hno evs)).
  destruct (establish_run nc json js queue cb ch o rs (tr ++ evs)%list)
    as (evs2 & E2 & Hevs2 & _).
  rewrite E2, <- app_assoc in Htr. apply app_inv_head in Htr.
  destruct (split_at_Subscribe evs evs2 pre post _ ev Hevs Hev Hevs2 Htr
              eq_refl) as (-> & -> & ->).
  exists o, rs. repeat split; try assumption; reflexivity.
Qed.

End LocalSubscription.

(** X10.  A call makes at most one local subscription, with the queue
    and the channel of the caller, synchronous exactly when no callback
    was given; the callback installed is the caller's when [ManualAck]
    is among the options, and otherwise the caller's wrapped into one
    that acknowledges each message after handling it. *)
Theorem local_subscription_shape (nc : Conn) (json : JSON) (js : js)
    (subj queue : string) (cb : option MsgHandler) (ch : option Chan)
    (opts : list SubOpt) (tr : Trace) (pre post : list Event)
    (s q : string) (c : option MsgHandler) (h : option Chan) (b : bool) :
  snd (subscribe nc json js subj queue cb ch opts tr)
  = (tr ++ pre ++ EvSubscribe s q c h b :: post)%list ->
  q = queue /\ h = ch /\ b = isNil cb /\
  (ManualAck ∈ opts -> c = cb) /\
  (ManualAck ∉ opts -> c = AckAfter <$> cb) /\
  Forall (fun ev => is_Subscribe ev = false) (pre ++ post).
Proof.
  intros Htr.
  destruct (subscribe_local nc json js subj queue cb ch opts tr pre post
              (EvSubscribe s q c h b) eq_refl Htr)
    as (o & rs & Ho & _ & _ & Hpre & Hpost & [= -> -> -> -> ->] & _).
  pose proof (configureSubscribe_mack opts subOpts0 o Ho) as Hm.
  simpl in Hm. repeat split.
  - intros Hin. unfold installed.
    replace (so_mack o) with true by (symmetry; apply Hm; now right).
    now rewrite andb_false_r.
  - intros Hnin. unfold installed.
    destruct (so_mack o) eqn:E.
    + exfalso. apply Hnin. destruct (proj1 Hm eq_refl); [discriminate|assumption].
    + now destruct cb.
  - now apply Forall_app.
Qed.

(** A callback without manual acknowledgment, on a new consumer of the
    stream ORD: it is installed wrapped, on an asynchronous
    subscription. *)
Lemma local_subscription_shape_witness :
  exists (pre post : list Event) (c : option MsgHandler) (b : bool),
    snd (subscribe
           (Sample.peer
              (<["$JS.API.STREAM.NAMES" := Sample.names_ORD]>
               {[ "$JS.API.CONSUMER.CREATE.ORD"
                  := Sample.consumer_body "ORD" "eph1" "_INBOX.1" "orders" ]}))
           Sample.json Sample.ctx "orders" _EMPTY_ (Some (UserHandler 7))
           None [] [])
    = (pre ++ EvSubscribe "_INBOX.1" _EMPTY_ c None b :: post)%list /\
    c = Some (AckAfter (UserHandler 7)) /\ b = false.
Proof.
  set (nc := Sample.peer _).
  destruct (subscribe nc Sample.json Sample.ctx "orders" _EMPTY_
              (Some (UserHandler 7)) None [] []) as [r tr'] eqn:E.
  pose proof E as E'. vm_compute in E'.
  match type of E' with
  | (_, [?e1; ?e2; EvSubscribe ?s ?q ?c ?h ?b; ?e4]) = _ =>
      injection E' as _ Etr;
      pose proof (local_subscription_shape nc Sample.json Sample.ctx "orders"
                    _EMPTY_ (Some (UserHandler 7)) None [] [] [e1; e2] [e4]
                    s q c h b) as H;
      exists [e1; e2], [e4], c, b
  end.
  rewrite E in H. specialize (H (eq_sym Etr)).
  destruct H as (_ & _ & Hb & _ & Hc & _).
  split; [now rewrite <- Etr|].
  split; [apply Hc; inversion 1 | exact Hb].
Defined.

Section CreateRequest.

Variable nc : Conn.
Variable json : JSON.

(** No option touches the ack policy, the ack wait, the delivery limit,
    the filter subject, the replay policy, the rate limit, the sampling
    or the two pending bounds of the configuration. *)
Lemma configureSubscribe_keeps (opts : list SubOpt) (o0 o : subOpts) :
  configureAll configureSubscribe opts o0 = OK o ->
  cfg_AckPolicy (so_cfg o) = cfg_AckPolicy (so_cfg o0) /\
  cfg_AckWait (so_cfg o) = cfg_AckWait (so_cfg o0) /\
  cfg_MaxDeliver (so_cfg o) = cfg_MaxDeliver (so_cfg o0) /\
  cfg_FilterSubject (so_cfg o) = cfg_FilterSubject (so_cfg o0) /\
  cfg_ReplayPolicy (so_cfg o) = cfg_ReplayPolicy (so_cfg o0) /\
  cfg_RateLimit (so_cfg o) = cfg_RateLimit (so_cfg o0) /\
  cfg_SampleFrequency (so_cfg o) = cfg_SampleFrequency (so_cfg o0) /\
  cfg_MaxWaiting (so_cfg o) = cfg_MaxWaiting (so_cfg o0) /\
  cfg_MaxAckPending (so_cfg o) = cfg_MaxAckPending (so_cfg o0).
Proof.
  revert o0. induction opts as [|opt opts IH]; intros o0; simpl.
  - intros [= <-]. now repeat split.
  - destruct (configureSubscribe opt o0) as [o1|] eqn:E; [|discriminate].
    intros H. specialize (IH o1 H).
    assert (cfg_AckPolicy (so_cfg o1) = cfg_AckPolicy (so_cfg o0) /\
            cfg_AckWait (so_cfg o1) = cfg_AckWait (so_cfg o0) /\
            cfg_MaxDeliver (so_cfg o1) = cfg_MaxDeliver (so_cfg o0) /\
            cfg_FilterSubject (so_cfg o1) = cfg_FilterSubject (so_cfg o0) /\
            cfg_ReplayPolicy (so_cfg o1) = cfg_ReplayPolicy (so_cfg o0) /\
            cfg_RateLimit (so_cfg o1) = cfg_RateLimit (so_cfg o0) /\
            cfg_SampleFrequency (so_cfg o1) = cfg_SampleFrequency (so_cfg o0) /\
            cfg_MaxWaiting (so_cfg o1) = cfg_MaxWaiting (so_cfg o0) /\
            cfg_MaxAckPending (so_cfg o1) = cfg_MaxAckPending (so_cfg o0))
      as H1.
    { destruct o0, opt; simpl in E;
        try (destruct (batchSize =? 0); [discriminate|]);
        injection E as <-; now repeat split. }
    destruct IH as (?&?&?&?&?&?&?&?&?), H1 as (?&?&?&?&?&?&?&?&?).
    repeat split; congruence.
Qed.

(** Through the API, off the attach path, resolving is the stream lookup
    followed by a new inbox. *)
Lemma resolve_create (js : js) (subj : string) (o : subOpts) (pull : bool)
    (rs : resolved) (tr tr1 : Trace) :
  js_direct js = false -> shouldAttach o = false ->
  resolve nc json js subj o pull tr = (Some (OK rs), tr1) ->
  exists (stream : string) (tr0 : Trace),
    lookupStreamBySubject nc json js subj tr = (Some (OK stream), tr0) /\
    tr1 = (tr0 ++ [EvNewInbox])%list /\
    let deliver := conn_NewInbox nc tr0 in
    rs = mk_resolved stream deliver None
           (set_FilterSubject
              (if negb pull then set_DeliverSubject (so_cfg o) deliver
               else so_cfg o) subj).
Proof.
  intros Hd Ha. unfold resolve. rewrite Hd, Ha. intros H.
  apply bind_inv in H as (r & tr0 & Hl & H).
  destruct r as [stream|]; [|discriminate].
  unfold NewInbox in H. rewrite bind_call_eq in H.
  apply ret_inv in H as [[= <-] <-]. now exists stream, tr0.
Qed.

(** On the create path, past the encoding of the request, what follows
    the local subscription starts with the create request. *)
Lemma create_starts_with_request (js : js) (o : subOpts) (rs : resolved)
    (sub : Subscription) (j : string) :
  shouldCreate o = true ->
  let req := create_request nc rs sub in
  let cfg := ccr_Config req in
  let stream := ccr_Stream req in
  Marshal_CreateConsumerRequest json req = OK j ->
  starts_with (fun _ => True)
    (EvRequest
       (apiSubj js
          (if str_neqb (cfg_Durable cfg) _EMPTY_
           then JSApiDurableCreateT stream (cfg_Durable cfg)
           else JSApiConsumerCreateT stream)) j (js_wait js))
    (bind (bind_consumer nc json js o rs sub)
       (fun r => match r with
                 | Fail err => ret (Fail err)
                 | OK sub => first_pull nc json o sub
                 end)).
Proof.
  intros Hc req cfg stream Hj. unfold bind_consumer.
  fold req. rewrite Hc, Hj. fold cfg stream.
  unfold nc_Request, first_pull, hold_pull, hold, Unsubscribe.
  repeat (apply starts_bind; [|intros ?]); try apply starts_call.
  all: repeat first
    [ eapply emits_weaken; [|apply emits_Poll]; [now intros]
    | emits_step ].
Qed.

(** A request right after the local subscription is the create request,
    encoded from the configuration [subscribe] completed. *)
Lemma establish_create_request (js : js) (queue : string)
    (cb : option MsgHandler) (ch : option Chan) (o : subOpts) (rs : resolved)
    (tr : Trace) (ev : Event) (subject j : string) (t : Duration)
    (rest : list Event) :
  snd (establish nc json js queue cb ch o rs tr)
  = (tr ++ ev :: EvRequest subject j t :: rest)%list ->
  let sub0 :=
    mk_Subscription (rs_deliver rs) queue (installed cb o) ch (isNil cb)
      (Some (mk_jsSub js _EMPTY_ _EMPTY_ _EMPTY_ 0)) in
  let req := create_request nc rs sub0 in
  let cfg := ccr_Config req in
  let stream := ccr_Stream req in
  shouldCreate o = true /\
  Marshal_CreateConsumerRequest json req = OK j /\
  subject
  = apiSubj js
      (if str_neqb (cfg_Durable cfg) _EMPTY_
       then JSApiDurableCreateT stream (cfg_Durable cfg)
       else JSApiConsumerCreateT stream) /\
  t = js_wait js.
Proof.
  intros H sub0 req cfg stream. unfold establish in H.
  rewrite isNil_installed in H. unfold nc_subscribe in H.
  rewrite bind_call_eq in H.
  destruct (conn_subscribe nc tr (rs_deliver rs) queue).
  { simpl in H. apply app_inv_head in H. discriminate. }
  fold sub0 in H.
  destruct (shouldCreate o) eqn:Hc.
  - destruct (Marshal_CreateConsumerRequest json req) as [j'|e] eqn:Hj.
    + destruct (create_starts_with_request js o rs sub0 j' Hc Hj
                  (tr ++ [EvSubscribe (rs_deliver rs) queue (installed cb o)
                            ch (isNil cb)])%list) as (rest' & E & _).
      rewrite E, <- app_assoc in H. apply app_inv_head in H.
      injection H as _ <- <- <- _. now repeat split.
    + exfalso. unfold bind, bind_consumer in H. fold req in H.
      rewrite Hc, Hj in H. simpl in H.
      apply app_inv_head in H. discriminate.
  - exfalso.
    assert (emits (fun e => is_Request e = false)
              (bind (bind_consumer nc json js o rs sub0)
                 (fun r => match r with
                           | Fail err => ret (Fail err)
                           | OK sub => first_pull nc json o sub
                           end))) as He.
    { unfold first_pull, hold_pull.
      repeat first
        [ apply emits_bind_consumer_attached; [exact Hc]
        | eapply emits_weaken; [|apply emits_Poll]; [now intros ? [? _]]
        | emits_step ]. }
    destruct (He (tr ++ [EvSubscribe (rs_deliver rs) queue (installed cb o)
                           ch (isNil cb)])%list) as (evs & E & Hevs).
    rewrite E, <- app_assoc in H. apply app_inv_head in H.
    injection H as _ H. rewrite H in Hevs. inversion Hevs. discriminate.
Qed.

End CreateRequest.

(** X11.  The consumer a call creates.  A request that follows the local
    subscription in a run of [subscribe] is the create request: the
    options were accepted, the lookup of the subject found the stream
    the request names, and the request encodes a configuration with the
    durable name, the deliver policy and the start sequence or time of
    the options, the subject as filter subject, explicit
    acknowledgment, the pending limit of the local subscription as
    max-ack-pending, and as deliver subject the subject of the local
    subscription in push mode and none in pull mode, every other field
    being zero; it is sent, within the wait of the context, on the
    durable-create subject of the stream and the durable name when one is
    given, and else on the create subject of the stream. *)
Theorem create_request_contents (nc : Conn) (json : JSON) (js : js)
    (subj queue : string) (cb : option MsgHandler) (ch : option Chan)
    (opts : list SubOpt) (tr : Trace) (pre rest : list Event) (s q : string)
    (c : option MsgHandler) (h : option Chan) (b : bool)
    (subject j : string) (t : Duration) :
  snd (subscribe nc json js subj queue cb ch opts tr)
  = (tr ++ pre ++ EvSubscribe s q c h b :: EvRequest subject j t :: rest)%list ->
  exists (o : subOpts) (stream : string),
    configureAll configureSubscribe opts subOpts0 = OK o /\
    fst (lookupStreamBySubject nc json js subj tr) = Some (OK stream) /\
    let local :=
      mk_Subscription s q c h b (Some (mk_jsSub js _EMPTY_ _EMPTY_ _EMPTY_ 0)) in
    let durable := cfg_Durable (so_cfg o) in
    let cfg :=
      mk_ConsumerConfig durable (if 0 <? so_pull o then _EMPTY_ else s)
        (cfg_DeliverPolicy (so_cfg o)) (cfg_OptStartSeq (so_cfg o))
        (cfg_OptStartTime (so_cfg o)) jetstream.AckExplicit 0 0 subj
        jetstream.ReplayInstant 0 _EMPTY_ 0 (conn_PendingLimits nc local) in
    Marshal_CreateConsumerRequest json
      (mk_JSApiCreateConsumerRequest stream cfg) = OK j /\
    subject
    = apiSubj js
        (if decide (durable = _EMPTY_) then JSApiConsumerCreateT stream
         else JSApiDurableCreateT stream durable) /\
    t = js_wait js.
Proof.
  intros Htr.
  destruct (subscribe_local nc json js subj queue cb ch opts tr pre
              (EvRequest subject j t :: rest) (EvSubscribe s q c h b)
              eq_refl Htr)
    as (o & rs & Ho & Hdc & Hres & _ & _ & Hev & Hest).
  rewrite <- app_assoc in Hest.
  rewrite (app_assoc tr pre) in Hest.
  destruct (establish_create_request nc json js queue cb ch o rs _ _ _ _ _ _
              Hest) as (Hc & Hj & Hsubject & Ht).
  assert (js_direct js = false) as Hd
    by (rewrite Hc, andb_true_r in Hdc; exact Hdc).
  assert (shouldAttach o = false) as Ha
    by (unfold shouldCreate in Hc; now apply negb_true_iff in Hc).
  destruct (resolve_create nc json js subj o _ rs tr _ Hd Ha Hres)
    as (stream & tr0 & Hl & _ & Hrs).
  exists o, stream. split; [exact Ho|]. split; [now rewrite Hl|].
  destruct (configureSubscribe_keeps opts subOpts0 o Ho)
    as (Hack & Hwait & Hmax & Hfilter & Hreplay & Hrate & Hsample & Hwaiting
        & Hpending).
  assert (cfg_DeliverSubject (so_cfg o) = _EMPTY_) as Hdel.
  { unfold shouldAttach in Ha. apply orb_false_iff in Ha as [_ Ha].
    now apply str_neqb_false in Ha. }
  injection Hev as -> -> -> -> ->.
  cbv zeta in Hrs. subst rs.
  destruct o as [ostream oconsumer opull omack
                   [durable odeliver policy seq time ack wait maxd filter
                      replay rate sample waiting pending]].
  simpl in Hack, Hwait, Hmax, Hfilter, Hreplay, Hrate, Hsample, Hwaiting,
    Hpending, Hdel.
  subst ack wait maxd filter replay rate sample waiting pending odeliver.
  cbn [so_pull so_cfg cfg_Durable cfg_DeliverPolicy cfg_OptStartSeq
         cfg_OptStartTime].
  assert (forall (A : Type) (x y : A),
            (if str_neqb durable _EMPTY_ then x else y)
            = (if decide (durable = _EMPTY_) then y else x)) as Hif.
  { intros A x y. rewrite str_neqb_decide.
    now destruct (decide (durable = _EMPTY_)). }
  repeat split.
  - rewrite <- Hj. f_equal.
    unfold create_request. cbn.
    now destruct (0 <? opull).
  - rewrite Hsubject, <- Hif. f_equal.
    unfold create_request. cbn.
    now destruct (0 <? opull).
  - exact Ht.
Qed.

(** A durable consumer on the stream ORD, delivering from the last
    message. *)
Lemma create_request_contents_witness :
  exists (j : string) (pre rest : list Event),
    snd (subscribe
           (Sample.peer {[ "$JS.API.STREAM.NAMES" := Sample.names_ORD ]})
           Sample.json Sample.ctx "orders" _EMPTY_ None (Some 0%nat)
           [Durable "dur1"; DeliverLast] [])
    = (pre ++ EvSubscribe "_INBOX.1" _EMPTY_ None (Some 0%nat) true
           :: EvRequest "$JS.API.CONSUMER.DURABLE.CREATE.ORD.dur1" j
                5000000000
           :: rest)%list /\
    Sample.encode_create
      (mk_JSApiCreateConsumerRequest "ORD"
         (mk_ConsumerConfig "dur1" "_INBOX.1" jetstream.DeliverLast 0 None
            jetstream.AckExplicit 0 0 "orders" jetstream.ReplayInstant 0
            _EMPTY_ 0 65536))
    = OK j.
Proof.
  set (nc := Sample.peer _).
  destruct (subscribe nc Sample.json Sample.ctx "orders" _EMPTY_ None
              (Some 0%nat) [Durable "dur1"; DeliverLast] []) as [r tr'] eqn:E.
  pose proof E as E'. vm_compute in E'.
  match type of E' with
  | (_, [?e1; ?e2; ?e3; EvRequest ?sj ?jj ?tt; ?e5]) = _ =>
      injection E' as _ Etr;
      pose proof (create_request_contents nc Sample.json Sample.ctx "orders"
                    _EMPTY_ None (Some 0%nat) [Durable "dur1"; DeliverLast]
                    [] [e1; e2] [e5] "_INBOX.1" _EMPTY_ None (Some 0%nat)
                    true sj jj tt) as H;
      exists jj, [e1; e2], [e5]
  end.
  rewrite E in H.
  destruct (H (eq_sym Etr)) as (o & stream & Ho & Hl & Hj & _).
  vm_compute in Ho. injection Ho as <-.
  vm_compute in Hl. injection Hl as <-.
  split; [now rewrite <- Etr | exact Hj].
Defined.

(** ** The context constructor *)

Section Context.

Lemma length_append (a b : string) :
  String.length (a ++ b) = (String.length a + String.length b)%nat.
Proof. induction a as [|c a IH]; simpl; [reflexivity | now rewrite IH]. Qed.

Lemma substring_all (b : string) : substring 0 (String.length b) b = b.
Proof. induction b as [|c b IH]; simpl; [reflexivity | now rewrite IH]. Qed.

Lemma substring_tail (a b : string) :
  substring (String.length a) (String.length b) (a ++ b) = b.
Proof. induction a as [|c a IH]; simpl; [apply substring_all | exact IH]. Qed.

Lemma HasSuffix_append (a b : string) : HasSuffix (a ++ b) b = true.
Proof.
  unfold HasSuffix. rewrite length_append. apply andb_true_iff. split.
  - apply Nat.leb_le. lia.
  - replace (String.length a + String.length b - String.length b)%nat
      with (String.length a) by lia.
    rewrite substring_tail. unfold str_eqb. now apply bool_decide_eq_true.
Qed.

Lemma HasSuffix_dot_nonempty (s : string) :
  HasSuffix s "." = true -> s <> _EMPTY_.
Proof. intros H ->. discriminate. Qed.

(** Options only ever leave a prefix that ends with a dot. *)
Lemma configureJSContext_prefix (opts : list JSOpt.t) (c0 c : js) :
  configureAll configureJSContext opts c0 = OK c ->
  HasSuffix (js_pre c0) "." = true -> HasSuffix (js_pre c) "." = true.
Proof.
  revert c0. induction opts as [|opt opts IH]; intros c0; simpl.
  - now intros [= <-].
  - intros H H0. destruct opt; simpl in H; apply (IH _ H); simpl;
      try exact H0.
    destruct (HasSuffix pre ".") eqn:E; simpl; [exact E|].
    apply HasSuffix_append.
Qed.

Lemma configureJSContext_total (opts : list JSOpt.t) (c0 : js) :
  exists c : js, configureAll configureJSContext opts c0 = OK c.
Proof.
  revert c0. induction opts as [|opt opts IH]; intros c0; simpl.
  - now exists c0.
  - destruct opt; simpl; apply IH.
Qed.

(** Direct mode is on exactly when the option was given. *)
Lemma configureJSContext_direct (opts : list JSOpt.t) (c0 c : js) :
  configureAll configureJSContext opts c0 = OK c ->
  js_direct c = true <-> (js_direct c0 = true \/ JSOpt.DirectOnly ∈ opts).
Proof.
  revert c0. induction opts as [|opt opts IH]; intros c0; simpl.
  - intros [= <-]. split; [now left|].
    intros [H|H]; [exact H | inversion H].
  - intros H. rewrite elem_of_cons.
    destruct opt; simpl in H; rewrite (IH _ H); simpl.
    + split; [intros [?|?]; auto | intros [?|[?|?]]; auto; discriminate].
    + split; auto.
    + split; [intros [?|?]; auto | intros [?|[?|?]]; auto; discriminate].
Qed.

(** The context the options make, and whether it is direct. *)
Lemma context_probe_direct (opts : list JSOpt.t) :
  exists c : js,
    configureAll configureJSContext opts js0 = OK c /\
    (js_direct c = true <-> (js_direct js0 = true \/ JSOpt.DirectOnly ∈ opts)).
Proof.
  destruct (configureJSContext_total opts js0) as (c & Hc). exists c.
  split; [exact Hc | now apply configureJSContext_direct].
Qed.

End Context.

(** X12.  Every context that [JetStream] returns has a prefix that ends
    with a dot, whatever prefix was asked for, the empty one included;
    so the prefix is never empty, and an API subject of the context is
    always the prefix followed by the subject. *)
Theorem context_prefix_ends_with_a_dot (nc : Conn) (mjson : JSONManager)
    (opts : list JSOpt.t) (tr tr' : Trace) (c : js) :
  JetStream nc mjson opts tr = (Some (OK c), tr') ->
  HasSuffix (js_pre c) "." = true /\
  forall subj : string, apiSubj c subj = (js_pre c ++ subj)%string.
Proof.
  intros H.
  assert (configureAll configureJSContext opts js0 = OK c) as Hc.
  { unfold JetStream in H. fold js0 in H.
    destruct (configureAll configureJSContext opts js0) as [c1|];
      [|discriminate].
    destruct (js_direct c1); [now injection H as -> _|].
    unfold nc_Request in H. rewrite bind_call_eq in H.
    destruct (conn_Request nc tr _ _ _); [|discriminate].
    destruct (Unmarshal_AccountInfoResponse mjson _) as [info|];
      [|discriminate].
    destruct (api_Error (air_ApiResponse info)) as [e|].
    - destruct (err_Code e =? 503); [discriminate|]. now injection H as -> _.
    - now injection H as -> _. }
  pose proof (configureJSContext_prefix opts js0 c Hc eq_refl) as Hp.
  split; [exact Hp|]. intros subj.
  rewrite apiSubj_prefix.
  destruct (decide (js_pre c = _EMPTY_)) as [E|E]; [|reflexivity].
  now apply HasSuffix_dot_nonempty in Hp.
Qed.

(** A context for the account prefix without its final dot. *)
Lemma context_prefix_ends_with_a_dot_witness :
  exists c : js,
    fst (JetStream
           (Sample.peer {[ "$JS.hub.API.INFO" := SampleManager.account_body ]})
           SampleManager.mjson [JSOpt.APIPrefix "$JS.hub.API"] [])
    = Some (OK c) /\
    js_pre c = "$JS.hub.API." /\
    apiSubj c "STREAM.NAMES" = "$JS.hub.API.STREAM.NAMES".
Proof.
  set (nc := Sample.peer _).
  destruct (JetStream nc SampleManager.mjson [JSOpt.APIPrefix "$JS.hub.API"] [])
    as [[[c|]|] tr'] eqn:E; try (vm_compute in E; discriminate).
  exists c. split; [reflexivity|].
  destruct (context_prefix_ends_with_a_dot nc SampleManager.mjson _ _ _ _ E)
    as [_ H].
  vm_compute in E. injection E as <- _.
  split; [reflexivity | apply H].
Defined.

(** X13.  With [DirectOnly] among its options [JetStream] returns a
    direct context without any transport call; without it, it makes
    exactly one call, the account-info request: on the prefix of the
    options followed by INFO, without payload, within the wait of the
    options. *)
Theorem context_probe (nc : Conn) (mjson : JSONManager) (opts : list JSOpt.t)
    (tr : Trace) :
  exists c : js,
    configureAll configureJSContext opts js0 = OK c /\
    (JSOpt.DirectOnly ∈ opts ->
     js_direct c = true /\
     JetStream nc mjson opts tr = (Some (OK c), tr)) /\
    (JSOpt.DirectOnly ∉ opts ->
     js_direct c = false /\
     snd (JetStream nc mjson opts tr)
     = (tr ++ [EvRequest (js_pre c ++ JSApiAccountInfo)%string _EMPTY_
                 (js_wait c)])%list).
Proof.
  destruct (configureJSContext_total opts js0) as (c & Hc). exists c.
  pose proof (configureJSContext_direct opts js0 c Hc) as Hd.
  pose proof (configureJSContext_prefix opts js0 c Hc eq_refl) as Hp.
  split; [exact Hc|]. unfold JetStream. fold js0. rewrite Hc. split.
  - intros Hin.
    assert (js_direct c = true) as E by (apply Hd; now right).
    now rewrite E.
  - intros Hnin.
    assert (js_direct c = false) as E.
    { destruct (js_direct c); [|reflexivity].
      destruct (proj1 Hd eq_refl); [discriminate | contradiction]. }
    rewrite E. split; [reflexivity|].
    unfold nc_Request. rewrite bind_call_eq.
    rewrite apiSubj_prefix.
    destruct (decide (js_pre c = _EMPTY_)) as [E0|E0];
      [now apply HasSuffix_dot_nonempty in Hp|].
    destruct (conn_Request nc tr _ _ _); [|reflexivity].
    destruct (Unmarshal_AccountInfoResponse mjson _) as [info|];
      [|reflexivity].
    destruct (api_Error (air_ApiResponse info)) as [e|]; [|reflexivity].
    now destruct (err_Code e =? 503).
Qed.

(** X14.  The account-info probe fails the construction in three cases
    only: the request fails (no responders read as JetStream not
    enabled), its answer does not decode, or its answer carries a server
    error whose code is 503, read as JetStream not enabled.  A server
    error with any other code is ignored, and the context is
    returned. *)
Theorem context_refused_on_503_only (nc : Conn) (mjson : JSONManager)
    (opts : list JSOpt.t) (c : js) (tr : Trace) :
  configureAll configureJSContext opts js0 = OK c ->
  js_direct c = false ->
  let run := JetStream nc mjson opts tr in
  let ans :=
    conn_Request nc tr (apiSubj c JSApiAccountInfo) _EMPTY_ (js_wait c) in
  (fst run = Some (OK c) <->
   exists (resp : Msg) (info : AccountInfoResponse),
     ans = OK resp /\
     Unmarshal_AccountInfoResponse mjson (msg_Data resp) = OK info /\
     forall e : ApiError,
       api_Error (air_ApiResponse info) = Some e -> err_Code e <> 503) /\
  (forall err : error,
     fst run = Some (Fail err) <->
     (exists e : error,
        ans = Fail e /\ err = noResponders_as e ErrJetStreamNotEnabled) \/
     (exists resp : Msg,
        ans = OK resp /\
        Unmarshal_AccountInfoResponse mjson (msg_Data resp) = Fail err) \/
     (exists (resp : Msg) (info : AccountInfoResponse) (e : ApiError),
        ans = OK resp /\
        Unmarshal_AccountInfoResponse mjson (msg_Data resp) = OK info /\
        api_Error (air_ApiResponse info) = Some e /\ err_Code e = 503 /\
        err = ErrJetStreamNotEnabled)).
Proof.
  intros Hc Hd run ans. subst run. unfold JetStream. fold js0.
  rewrite Hc, Hd. unfold nc_Request. rewrite bind_call_eq. fold ans.
  destruct ans as [resp|e0] eqn:Hans.
  2: { split.
       - split; [discriminate|]. intros (? & ? & ? & _). discriminate.
       - intros err. split.
         + intros [= <-]. left. now exists e0.
         + intros [(e & [= <-] & ->)|[(? & ? & _)|(? & ? & ? & ? & _)]];
             [reflexivity | discriminate ..]. }
  destruct (Unmarshal_AccountInfoResponse mjson (msg_Data resp))
    as [info|e1] eqn:Hun.
  2: { split.
       - split; [discriminate|].
         intros (? & ? & [= <-] & ? & _). congruence.
       - intros err. split.
         + intros [= <-]. right. left. now exists resp.
         + intros [(? & ? & _)|[(? & [= <-] & ?)|(? & ? & ? & [= <-] & ? & _)]];
             [discriminate | simpl; congruence | congruence]. }
  destruct (api_Error (air_ApiResponse info)) as [e|] eqn:He.
  - destruct (err_Code e =? 503) eqn:Hcode.
    + apply Z.eqb_eq in Hcode. split.
      * split; [discriminate|].
        intros (resp' & info' & [= <-] & Hun' & Hno).
        rewrite Hun in Hun'. injection Hun' as <-.
        now destruct (Hno e He).
      * intros err. split.
        -- intros [= <-]. right. right. now exists resp, info, e.
        -- intros [(? & ? & _)|[(? & [= <-] & ?)|(? & ? & ? & _ & _ & _ & _ & ->)]];
             [discriminate | congruence | reflexivity].
    + apply Z.eqb_neq in Hcode. split.
      * split; [|reflexivity]. intros _. exists resp, info.
        repeat split; try assumption. intros e' He'. congruence.
      * intros err. split; [discriminate|].
        intros [(? & ? & _)|[(? & [= <-] & ?)|(? & info' & e' & [= <-] & Hun' & He' & Hc' & _)]];
          [discriminate | congruence |].
        rewrite Hun in Hun'. injection Hun' as <-. congruence.
  - split.
    + split; [|reflexivity]. intros _. exists resp, info.
      repeat split; try assumption. intros e' He'. congruence.
    + intros err. split; [discriminate|].
      intros [(? & ? & _)|[(? & [= <-] & ?)|(? & info' & e' & [= <-] & Hun' & He' & _)]];
        [discriminate | congruence |].
      rewrite Hun in Hun'. injection Hun' as <-. congruence.
Qed.

(** A server that answers the probe with an error of code 500: the
    context is returned all the same. *)
Lemma context_refused_on_503_only_witness :
  fst (JetStream
         (Sample.peer
            {[ "$JS.API.INFO" := Sample.error_body 500 "internal error" ]})
         SampleManager.mjson [] [])
  = Some (OK js0).
Proof.
  apply (context_refused_on_503_only _ SampleManager.mjson [] js0 [] eq_refl
           eq_refl).
  eexists _, _. split; [reflexivity|]. split; [reflexivity|].
  intros e [= <-]. discriminate.
Defined.

(** ** Management calls *)

(** X15.  The management calls of the two source files.  [AddConsumer]
    is the same call in both.  The two [AddStream] make the same
    transport calls and return the same errors and the same stream info,
    except on an answer that decodes with neither a server error nor a
    stream info: the manager of the second source file returns a nil
    info with a nil error, and js.go, which dereferences the info,
    panics.  The former never panics. *)
Theorem management_revisions (nc : Conn) (json : JSON) (mjson : JSONManager)
    (js : js) (cfg : option StreamConfig) (tr : Trace) :
  let new := JetStreamManager.AddStream nc mjson js cfg tr in
  let old := jsm_AddStream nc mjson (Manager js) cfg tr in
  (forall (stream : string) (ccfg : option ConsumerConfig),
     jsm_AddConsumer nc json mjson (Manager js) stream ccfg tr
     = JetStreamManager.AddConsumer nc json mjson js stream ccfg tr) /\
  snd new = snd old /\
  (exists r : res (option StreamInfo), fst old = Some r) /\
  (forall err : error,
     fst old = Some (Fail err) <-> fst new = Some (Fail err)) /\
  (forall si : StreamInfo,
     fst old = Some (OK (Some si)) <-> fst new = Some (OK si)) /\
  (fst old = Some (OK None) <-> fst new = None).
Proof.
  intros new old. subst new old. split; [reflexivity|].
  unfold JetStreamManager.AddStream, jsm_AddStream, Manager. simpl.
  destruct cfg as [cfg|].
  2: { simpl. repeat split; eauto; intros; congruence. }
  destruct (str_eqb (sc_Name cfg) _EMPTY_).
  { simpl. repeat split; eauto; intros; congruence. }
  destruct (Marshal_StreamConfig mjson cfg) as [req|e].
  2: { simpl. repeat split; eauto; intros; congruence. }
  unfold nc_Request. rewrite !bind_call_eq.
  destruct (conn_Request nc tr _ req (js_wait js)) as [r|e].
  2: { simpl. repeat split; eauto; intros; congruence. }
  destruct (Unmarshal_StreamCreateResponse mjson (msg_Data r)) as [resp|e].
  2: { simpl. repeat split; eauto; intros; congruence. }
  destruct (api_Error (scr_ApiResponse resp)) as [e|].
  { simpl. repeat split; eauto; intros; congruence. }
  destruct (scr_StreamInfo resp) as [si|]; simpl;
    repeat split; eauto; intros; congruence.
Qed.

(** X16.  With no JetStream server behind the connection, every request
    ending in the no-responders error, the calls differ in what they
    report: [JetStream] (unless direct) and [AddConsumer] return the
    JetStream-not-enabled error, while [AddStream] and [StreamInfo] hand
    back the no-responders error unchanged. *)
Theorem management_without_responders (nc : Conn) (json : JSON)
    (mjson : JSONManager) (js : js) (tr : Trace) :
  (forall (t : Trace) (subj data : string) (wait : Duration),
     conn_Request nc t subj data wait = Fail ErrNoResponders) ->
  (forall opts : list JSOpt.t,
     JSOpt.DirectOnly ∉ opts ->
     fst (JetStream nc mjson opts tr) = Some (Fail ErrJetStreamNotEnabled)) /\
  (forall (stream j : string) (cfg : ConsumerConfig),
     stream <> _EMPTY_ ->
     Marshal_CreateConsumerRequest json
       (mk_JSApiCreateConsumerRequest stream cfg) = OK j ->
     fst (JetStreamManager.AddConsumer nc json mjson js stream (Some cfg) tr)
     = Some (Fail ErrJetStreamNotEnabled)) /\
  (forall (cfg : StreamConfig) (j : string),
     sc_Name cfg <> _EMPTY_ ->
     Marshal_StreamConfig mjson cfg = OK j ->
     fst (JetStreamManager.AddStream nc mjson js (Some cfg) tr)
     = Some (Fail ErrNoResponders)) /\
  (forall stream : string,
     fst (JetStreamManager.StreamInfo nc mjson js stream tr)
     = Some (Fail ErrNoResponders)).
Proof.
  intros Hnone. repeat split.
  - intros opts Hnin.
    destruct (context_probe_direct opts) as (c & Hc & Hd).
    unfold JetStream. fold js0. rewrite Hc.
    replace (js_direct c) with false.
    + unfold nc_Request. now rewrite bind_call_eq, Hnone.
    + destruct (js_direct c); [|reflexivity].
      destruct (proj1 Hd eq_refl); [discriminate | contradiction].
  - intros stream j cfg Hs Hj. unfold JetStreamManager.AddConsumer.
    apply str_neqb_true in Hs. unfold str_neqb in Hs.
    apply negb_true_iff in Hs. rewrite Hs, Hj.
    rewrite bind_lift_some. unfold nc_Request.
    now rewrite bind_call_eq, Hnone.
  - intros cfg j Hs Hj. unfold JetStreamManager.AddStream.
    apply str_neqb_true in Hs. unfold str_neqb in Hs.
    apply negb_true_iff in Hs. rewrite Hs, Hj.
    unfold nc_Request. now rewrite bind_call_eq, Hnone.
  - intros stream. unfold JetStreamManager.StreamInfo, nc_Request.
    now rewrite bind_call_eq, Hnone.
Qed.

(** A connection to a server without JetStream. *)
Lemma management_without_responders_witness :
  fst (JetStream (Sample.peer ∅) SampleManager.mjson [] [])
  = Some (Fail ErrJetStreamNotEnabled) /\
  fst (JetStreamManager.AddStream (Sample.peer ∅) SampleManager.mjson
         Sample.ctx (Some SampleManager.ORD_config) [])
  = Some (Fail ErrNoResponders).
Proof.
  destruct (management_without_responders (Sample.peer ∅) Sample.json
              SampleManager.mjson Sample.ctx [])
    as (H1 & _ & H3 & _).
  { reflexivity. }
  split.
  - apply H1. inversion 1.
  - eapply (H3 SampleManager.ORD_config); [discriminate | reflexivity].
Defined.

(** X17.  The request of each management call.  [StreamInfo] makes one
    request whatever the stream name, the empty one included, on the
    stream-info subject of the name, without payload.  [AddStream] makes
    no call for a nil configuration, an empty name or a configuration
    that does not encode, and else one request on the stream-create
    subject of the name, carrying the encoded configuration.
    [AddConsumer] makes no call for an empty stream name, a nil
    configuration or a request that does not encode, and else one
    request carrying the encoded request, on the durable-create subject
    of the stream and the durable name when the configuration has one,
    and on the create subject of the stream when it has none.  Each
    request waits for the wait of the context. *)
Theorem management_requests (nc : Conn) (json : JSON) (mjson : JSONManager)
    (js : js) (tr : Trace) :
  (forall stream : string,
     snd (JetStreamManager.StreamInfo nc mjson js stream tr)
     = (tr ++ [EvRequest (apiSubj js (JSApiStreamInfoT stream)) _EMPTY_
                 (js_wait js)])%list) /\
  (forall cfg : option StreamConfig,
     snd (JetStreamManager.AddStream nc mjson js cfg tr)
     = match cfg with
       | None => tr
       | Some c =>
           if decide (sc_Name c = _EMPTY_) then tr
           else
             match Marshal_StreamConfig mjson c with
             | Fail _ => tr
             | OK j =>
                 (tr ++ [EvRequest (apiSubj js (JSApiStreamCreateT (sc_Name c)))
                           j (js_wait js)])%list
             end
       end) /\
  (forall (stream : string) (cfg : option ConsumerConfig),
     snd (JetStreamManager.AddConsumer nc json mjson js stream cfg tr)
     = match cfg with
       | None => tr
       | Some c =>
           if decide (stream = _EMPTY_) then tr
           else
             match
               Marshal_CreateConsumerRequest json
                 (mk_JSApiCreateConsumerRequest stream c)
             with
             | Fail _ => tr
             | OK j =>
                 (tr ++ [EvRequest
                           (apiSubj js
                              (if decide (cfg_Durable c = _EMPTY_)
                               then JSApiConsumerCreateT stream
                               else JSApiDurableCreateT stream (cfg_Durable c)))
                           j (js_wait js)])%list
             end
       end).
Proof.
  split; [|split].
  - intros stream. unfold JetStreamManager.StreamInfo, nc_Request.
    rewrite bind_call_eq.
    destruct (conn_Request nc tr _ _ _) as [r|]; [|reflexivity].
    destruct (Unmarshal_StreamInfoResponse mjson _) as [resp|]; [|reflexivity].
    destruct (api_Error (sir_ApiResponse resp)); [reflexivity|].
    now destruct (sir_StreamInfo resp).
  - intros [c|]; [|reflexivity]. unfold JetStreamManager.AddStream, str_eqb.
    destruct (decide (sc_Name c = _EMPTY_)) as [E|E].
    { now rewrite bool_decide_eq_true_2. }
    rewrite bool_decide_eq_false_2 by exact E.
    destruct (Marshal_StreamConfig mjson c) as [j|]; [|reflexivity].
    unfold nc_Request. rewrite bind_call_eq.
    destruct (conn_Request nc tr _ _ _) as [r|]; [|reflexivity].
    destruct (Unmarshal_StreamCreateResponse mjson _) as [resp|];
      [|reflexivity].
    destruct (api_Error (scr_ApiResponse resp)); [reflexivity|].
    now destruct (scr_StreamInfo resp).
  - intros stream cfg. unfold JetStreamManager.AddConsumer, str_eqb.
    destruct (decide (stream = _EMPTY_)) as [E|E].
    { rewrite bool_decide_eq_true_2 by exact E. now destruct cfg. }
    rewrite bool_decide_eq_false_2 by exact E.
    destruct cfg as [c|]; cbv zeta.
    2: { now destruct (Marshal_nil_config mjson stream). }
    destruct (Marshal_CreateConsumerRequest json _) as [j|]; [|reflexivity].
    rewrite (bind_lift_some c). unfold nc_Request. rewrite bind_call_eq.
    rewrite str_neqb_decide.
    assert (forall (A : Type) (x y : A),
              (if (if decide (cfg_Durable c = _EMPTY_) then false else true)
               then x else y)
              = (if decide (cfg_Durable c = _EMPTY_) then y else x)) as ->
      by (intros; now destruct (decide (cfg_Durable c = _EMPTY_))).
    destruct (conn_Request nc tr _ _ _) as [r|]; [|reflexivity].
    destruct (Unmarshal_ConsumerResponse json _) as [info|]; [|reflexivity].
    now destruct (api_Error (cr_ApiResponse info)).
Qed.

(** X18.  The create block of [subscribe] does what [AddConsumer] does
    with the request [subscribe] completed.  When the request cannot be
    encoded both return the encoder's error without a transport call.
    Otherwise both send the same create request: an error of
    [AddConsumer] is the error of [subscribe], which first unsubscribes
    its local subscription; a consumer info returned by [AddConsumer] is
    what [subscribe] stores in the binding, stream, name and deliver
    subject; and where [AddConsumer] returns neither info nor error, on
    an answer without both, [subscribe] panics. *)
Theorem create_path_is_AddConsumer (nc : Conn) (json : JSON)
    (mjson : JSONManager) (js : js) (o : subOpts) (rs : resolved)
    (sub : Subscription) (jsi : jsSub) (tr : Trace) :
  shouldCreate o = true ->
  sub_jsi sub = Some jsi ->
  let req := create_request nc rs sub in
  ccr_Stream req <> _EMPTY_ ->
  let add :=
    JetStreamManager.AddConsumer nc json mjson js (ccr_Stream req)
      (Some (ccr_Config req)) tr in
  let bound := bind_consumer nc json js o rs sub tr in
  match Marshal_CreateConsumerRequest json req with
  | Fail err =>
      add = (Some (Fail err), tr) /\ bound = (Some (Fail err), tr)
  | OK j =>
      match fst add with
      | Some (Fail err) =>
          bound = (Some (Fail err), (snd add ++ [EvUnsubscribe sub])%list)
      | Some (OK (Some ci)) =>
          bound
          = (Some (OK (with_jsi sub
                         (mk_jsSub (jsi_js jsi) (ci_Name ci) (ci_Stream ci)
                            (cfg_DeliverSubject (ci_Config ci))
                            (jsi_pull jsi)))),
             snd add)
      | Some (OK None) => bound = (None, snd add)
      | None => False
      end
  end.
Proof.
  intros Hc Hj req Hs add bound. subst add bound.
  unfold JetStreamManager.AddConsumer, bind_consumer. fold req. rewrite Hc.
  apply str_neqb_true in Hs. unfold str_neqb in Hs.
  apply negb_true_iff in Hs. rewrite Hs. cbv zeta.
  change (mk_JSApiCreateConsumerRequest (ccr_Stream req) (ccr_Config req))
    with req.
  destruct (Marshal_CreateConsumerRequest json req) as [j|e];
    [|now split].
  rewrite (bind_lift_some (ccr_Config req)). unfold nc_Request, Unsubscribe.
  rewrite !bind_call_eq.
  destruct (conn_Request nc tr _ j (js_wait js)) as [resp|e].
  2: { simpl. rewrite bind_call_eq. reflexivity. }
  destruct (Unmarshal_ConsumerResponse json (msg_Data resp)) as [info|e].
  2: { simpl. rewrite bind_call_eq. reflexivity. }
  destruct (api_Error (cr_ApiResponse info)) as [e|].
  { simpl. rewrite bind_call_eq. reflexivity. }
  destruct (cr_ConsumerInfo info) as [ci|]; simpl; [|reflexivity].
  unfold hold. rewrite Hj. reflexivity.
Qed.

(** The consumer eph1 created on the stream ORD. *)
Lemma create_path_is_AddConsumer_witness :
  let sub :=
    mk_Subscription "_INBOX.1" _EMPTY_ None (Some 0%nat) true
      (Some (mk_jsSub Sample.ctx _EMPTY_ _EMPTY_ _EMPTY_ 0)) in
  let rs :=
    mk_resolved "ORD" "_INBOX.1" None
      (set_FilterSubject (set_DeliverSubject cfg0 "_INBOX.1") "orders") in
  fst (bind_consumer
         (Sample.peer
            {[ "$JS.API.CONSUMER.CREATE.ORD"
               := Sample.consumer_body "ORD" "eph1" "_INBOX.1" "orders" ]})
         Sample.json Sample.ctx subOpts0 rs sub [])
  = Some (OK (with_jsi sub (mk_jsSub Sample.ctx "eph1" "ORD" "_INBOX.1" 0))).
Proof.
  intros sub rs.
  set (nc := Sample.peer _).
  pose proof (create_path_is_AddConsumer nc Sample.json SampleManager.mjson
                Sample.ctx subOpts0 rs sub _ [] eq_refl eq_refl) as H.
  cbv zeta in H. specialize (H ltac:(discriminate)).
  remember (bind_consumer nc Sample.json Sample.ctx subOpts0 rs sub [])
    as bound.
  vm_compute in H. now rewrite H.
Defined.

(** X19.  After a successful call on the attach path, asking the
    subscription for its consumer info is the fetch of the attached
    consumer, by the stream and consumer names of the options, through
    the context of the call; when no consumer name was given (a
    subscription bound by its deliver subject alone) it fails with the
    subscription-type error, without a transport call. *)
Theorem consumer_info_after_attach (nc : Conn) (json : JSON) (js : js)
    (subj queue : string) (cb : option MsgHandler) (ch : option Chan)
    (opts : list SubOpt) (o : subOpts) (sub : Subscription)
    (tr tr' : Trace) :
  configureAll configureSubscribe opts subOpts0 = OK o ->
  shouldAttach o = true ->
  subscribe nc json js subj queue cb ch opts tr = (Some (OK sub), tr') ->
  forall t : Trace,
    Subscription_ConsumerInfo nc json sub t
    = if decide (so_consumer o = _EMPTY_)
      then (Some (Fail ErrTypeSubscription), t)
      else getConsumerInfo nc json js (so_stream o) (so_consumer o) t.
Proof.
  intros Ho Ha Hrun t.
  assert (shouldCreate o = false) as Hc
    by (unfold shouldCreate; now rewrite Ha).
  destruct (subscribe_OK nc json js subj queue cb ch opts o sub tr tr' Ho Hrun)
    as (_ & _ & rs & evs & _ & _ & Hest).
  apply establish_OK in Hest as (sub1 & tr2 & evs2 & Hbc & _ & _ & Hsub).
  eapply bind_consumer_OK in Hbc as (b1 & -> & Hjs & _ & Hatt & _);
    [|reflexivity].
  destruct (Hatt Hc) as (_ & Hst & Hco & _). simpl in Hjs.
  assert (exists b : jsSub,
            sub_jsi sub = Some b /\ jsi_js b = js /\
            jsi_stream b = so_stream o /\ jsi_consumer b = so_consumer o)
    as (b & Hb & Hbj & Hbs & Hbc).
  { destruct (0 <? so_pull o).
    - destruct Hsub as (b & [= <-] & ->). now eexists.
    - subst sub. now exists b1. }
  unfold Subscription_ConsumerInfo. rewrite Hb, bind_lift_some.
  rewrite Hbj, Hbs, Hbc. unfold str_eqb.
  destruct (decide (so_consumer o = _EMPTY_)) as [E|E].
  - now rewrite bool_decide_eq_true_2.
  - now rewrite bool_decide_eq_false_2.
Qed.

(** Attached to the consumer C of the stream S, the subscription asks
    for the info of that consumer. *)
Lemma consumer_info_after_attach_witness :
  let nc :=
    Sample.peer {[ "$JS.API.CONSUMER.INFO.S.C"
                   := Sample.consumer_body "S" "C" "d.C" "orders" ]} in
  exists (sub : Subscription) (tr' : Trace),
    subscribe nc Sample.json Sample.ctx "orders" _EMPTY_ None (Some 0%nat)
      [Attach "S" "C"] []
    = (Some (OK sub), tr') /\
    snd (Subscription_ConsumerInfo nc Sample.json sub tr')
    = (tr' ++ [EvRequest "$JS.API.CONSUMER.INFO.S.C" _EMPTY_ 5000000000])%list.
Proof.
  intros nc.
  destruct (subscribe nc Sample.json Sample.ctx "orders" _EMPTY_ None
              (Some 0%nat) [Attach "S" "C"] []) as [[[sub|]|] tr'] eqn:E;
    try (vm_compute in E; discriminate).
  exists sub, tr'. split; [reflexivity|].
  rewrite (consumer_info_after_attach nc Sample.json Sample.ctx "orders"
             _EMPTY_ None (Some 0%nat) [Attach "S" "C"] _ sub [] tr' eq_refl
             eq_refl E tr').
  reflexivity.
Defined.

(** ** The codecs of the policies *)

Section PolicyCodecs.

Import Policy.

Variable Marshal_string : string -> res string.

(** [json.Marshal] writes a name made of small letters and underscores
    between double quotes. *)
Hypothesis Marshal_plain :
  forall s : string, plain s = true -> Marshal_string s = OK (jsonString s).

Lemma json_Marshal_plain (s : string) :
  plain s = true -> json_Marshal Marshal_string s = Bytes (jsonString s).
Proof. intros H. unfold json_Marshal. now rewrite Marshal_plain. Qed.

Ltac by_value :=
  repeat match goal with
         | |- context [?x =? ?c] => destruct (Z.eqb_spec x c) as [->|?]
         end;
  rewrite ?json_Marshal_plain by reflexivity.

Ltac by_name := unfold str_eqb; repeat case_bool_decide.

Ltac encoded_read :=
  by_value; (intros [= <-]; reflexivity) || discriminate.

Ltac read_encoded :=
  by_name; intros [= <-]; subst; cbn;
  (now rewrite json_Marshal_plain) || discriminate.

Ltac error_kept := by_name; intros [= <- <-]; now split.

Ltac values_encoded :=
  intros p; rewrite ?elem_of_cons, elem_of_nil; split;
  [ by_value; intros [data H]; (discriminate H || tauto)
  | intros H; decompose [or] H; subst; cbn;
    try rewrite json_Marshal_plain by reflexivity; try contradiction;
    eauto ].

Lemma AckPolicy_inverse :
  inverse_codecs (AckPolicy_MarshalJSON Marshal_string)
    AckPolicy_UnmarshalJSON.
Proof.
  intros p q data. unfold AckPolicy_MarshalJSON, AckPolicy_UnmarshalJSON.
  split; [encoded_read | read_encoded].
Qed.

Lemma ReplayPolicy_inverse :
  inverse_codecs (ReplayPolicy_MarshalJSON Marshal_string)
    ReplayPolicy_UnmarshalJSON.
Proof.
  intros p q data. unfold ReplayPolicy_MarshalJSON, ReplayPolicy_UnmarshalJSON.
  split; [encoded_read | read_encoded].
Qed.

Lemma RetentionPolicy_inverse :
  inverse_codecs (RetentionPolicy_MarshalJSON Marshal_string)
    RetentionPolicy_UnmarshalJSON.
Proof.
  intros p q data.
  unfold RetentionPolicy_MarshalJSON, RetentionPolicy_UnmarshalJSON.
  split; [encoded_read | read_encoded].
Qed.

Lemma StorageType_inverse :
  inverse_codecs (StorageType_MarshalJSON Marshal_string)
    StorageType_UnmarshalJSON.
Proof.
  intros p q data.
  unfold StorageType_MarshalJSON, StorageType_UnmarshalJSON.
  split; [encoded_read | read_encoded].
Qed.

Lemma strict_decoders_keep :
  keeps_on_error AckPolicy_UnmarshalJSON /\
  keeps_on_error ReplayPolicy_UnmarshalJSON /\
  keeps_on_error RetentionPolicy_UnmarshalJSON /\
  keeps_on_error StorageType_UnmarshalJSON.
Proof.
  split; [|split; [|split]]; intros p q data e;
    unfold AckPolicy_UnmarshalJSON, ReplayPolicy_UnmarshalJSON,
      RetentionPolicy_UnmarshalJSON, StorageType_UnmarshalJSON;
    error_kept.
Qed.

Lemma strict_encoders_values :
  encodes_exactly (AckPolicy_MarshalJSON Marshal_string)
    [AckNone; AckAll; AckExplicit] /\
  encodes_exactly (ReplayPolicy_MarshalJSON Marshal_string)
    [ReplayInstant; ReplayOriginal] /\
  encodes_exactly (RetentionPolicy_MarshalJSON Marshal_string)
    [LimitsPolicy; InterestPolicy; WorkQueuePolicy] /\
  encodes_exactly (StorageType_MarshalJSON Marshal_string)
    [MemoryStorage; FileStorage].
Proof.
  split; [|split; [|split]];
    unfold AckPolicy_MarshalJSON, ReplayPolicy_MarshalJSON,
      RetentionPolicy_MarshalJSON, StorageType_MarshalJSON;
    values_encoded.
Qed.



(** X20.  The codecs of the ack, replay and retention policies and of the
    storage type undo each other: the bytes a policy is written as are
    exactly the bytes that are read as this policy, so nothing but the
    names written is accepted; a decoder that fails leaves the policy it
    was given and reports the bytes; and the encoders write the declared
    policies only, so the unset ack policy 99 cannot be written. *)
Theorem strict_policy_codecs :
  (inverse_codecs (AckPolicy_MarshalJSON Marshal_string)
     AckPolicy_UnmarshalJSON /\
   keeps_on_error AckPolicy_UnmarshalJSON /\
   encodes_exactly (AckPolicy_MarshalJSON Marshal_string)
     [AckNone; AckAll; AckExplicit]) /\
  (inverse_codecs (ReplayPolicy_MarshalJSON Marshal_string)
     ReplayPolicy_UnmarshalJSON /\
   keeps_on_error ReplayPolicy_UnmarshalJSON /\
   encodes_exactly (ReplayPolicy_MarshalJSON Marshal_string)
     [ReplayInstant; ReplayOriginal]) /\
  (inverse_codecs (RetentionPolicy_MarshalJSON Marshal_string)
     RetentionPolicy_UnmarshalJSON /\
   keeps_on_error RetentionPolicy_UnmarshalJSON /\
   encodes_exactly (RetentionPolicy_MarshalJSON Marshal_string)
     [LimitsPolicy; InterestPolicy; WorkQueuePolicy]) /\
  (inverse_codecs (StorageType_MarshalJSON Marshal_string)
     StorageType_UnmarshalJSON /\
   keeps_on_error StorageType_UnmarshalJSON /\
   encodes_exactly (StorageType_MarshalJSON Marshal_string)
     [MemoryStorage; FileStorage]).
Proof.
  destruct strict_decoders_keep as (K1 & K2 & K3 & K4).
  destruct strict_encoders_values as (V1 & V2 & V3 & V4).
  pose proof AckPolicy_inverse. pose proof ReplayPolicy_inverse.
  pose proof RetentionPolicy_inverse. pose proof StorageType_inverse.
  tauto.
Qed.


End PolicyCodecs.

(** The explicit ack policy, written and read back. *)
Lemma strict_policy_codecs_witness :
  Policy.AckPolicy_UnmarshalJSON Policy.AckNone
    (Policy.jsonString "explicit")
  = (Policy.AckExplicit, None).
Proof.
  destruct (strict_policy_codecs SampleManager.encode_name) as ((H & _) & _).
  { intros s _. reflexivity. }
  now apply (H Policy.AckExplicit Policy.AckNone).
Defined.


(** ** What the binder never does *)

Section BinderSafety.

Variable nc : Conn.
Variable json : JSON.

Lemma lookup_returns (js : js) (subj : string) (tr : Trace) :
  exists (r : res string) (tr' : Trace),
    lookupStreamBySubject nc json js subj tr = (Some r, tr').
Proof.
  unfold lookupStreamBySubject.
  destruct (Marshal_streamRequest json _); [|now eexists _, _].
  unfold nc_Request. rewrite bind_call_eq.
  destruct (conn_Request nc tr _ _ _); [|now eexists _, _].
  destruct (Unmarshal_StreamNamesResponse json _); [|now eexists _, _].
  destruct (_ || _); now eexists _, _.
Qed.

Lemma Poll_returns (sub : Subscription) (tr : Trace) :
  exists (e : option error) (tr' : Trace),
    Poll nc json sub tr = (Some e, tr').
Proof.
  destruct (Poll_run nc json sub tr) as [(b & _ & _ & _ & H)|[_ H]];
    rewrite H; now eexists _, _.
Qed.

Lemma first_pull_returns (o : subOpts) (sub : Subscription) (b : jsSub)
    (tr : Trace) :
  sub_jsi sub = Some b ->
  exists (r : res Subscription) (tr' : Trace),
    first_pull nc json o sub tr = (Some r, tr').
Proof.
  intros Hb. unfold first_pull. destruct (0 <? so_pull o); [|now eexists _, _].
  unfold hold_pull. rewrite Hb, bind_bind, bind_lift_some, bind_ret_eq.
  unfold bind.
  destruct (Poll_returns (with_jsi sub
              (mk_jsSub (jsi_js b) (jsi_consumer b) (jsi_stream b)
                 (jsi_deliver b) (so_pull o))) tr) as (e & tr' & ->).
  now eexists _, _.
Qed.

(** Resolving panics on a bare answer to the consumer-info fetch, and on
    nothing else. *)
Lemma resolve_panic (js : js) (subj : string) (o : subOpts) (pull : bool)
    (tr tr1 : Trace) :
  resolve nc json js subj o pull tr = (None, tr1) ->
  exists (subject : string) (resp : Msg),
    tr1 = (tr ++ [EvRequest subject _EMPTY_ (js_wait js)])%list /\
    conn_Request nc tr subject _EMPTY_ (js_wait js) = OK resp /\
    bare_answer json resp.
Proof.
  unfold resolve. destruct (js_direct js).
  { destruct (str_neqb _ _); [discriminate|].
    unfold NewInbox. rewrite bind_call_eq. discriminate. }
  destruct (shouldAttach o).
  - unfold getConsumerInfo, nc_Request. rewrite bind_bind, bind_call_eq.
    set (subject := apiSubj js _).
    destruct (conn_Request nc tr subject _EMPTY_ (js_wait js)) as [resp|]
      eqn:Hans; [|discriminate].
    destruct (Unmarshal_ConsumerResponse json (msg_Data resp)) as [info|]
      eqn:Hun; [|discriminate].
    destruct (api_Error (cr_ApiResponse info)) eqn:He; [discriminate|].
    rewrite bind_ret_eq.
    destruct (cr_ConsumerInfo info) as [ci|] eqn:Hci.
    + rewrite bind_lift_some.
      destruct (_ && _); [discriminate|].
      destruct (str_neqb _ _); [discriminate|].
      unfold NewInbox. rewrite bind_call_eq. discriminate.
    + intros [= <-]. exists subject, resp. repeat split; [exact Hans|].
      now exists info.
  - unfold bind.
    destruct (lookup_returns js subj tr) as (r & tr' & ->).
    destruct r; [|discriminate].
    unfold NewInbox, call. discriminate.
Qed.

(** Binding the consumer panics on a bare answer to the create request,
    and on nothing else, once the attached configuration is there. *)
Lemma bind_consumer_panic (js : js) (o : subOpts) (rs : resolved)
    (sub : Subscription) (b : jsSub) (tr tr1 : Trace) :
  sub_jsi sub = Some b ->
  (shouldCreate o = false -> js_direct js = false -> rs_ccfg rs <> None) ->
  bind_consumer nc json js o rs sub tr = (None, tr1) ->
  exists (subject j : string) (resp : Msg),
    tr1 = (tr ++ [EvRequest subject j (js_wait js)])%list /\
    conn_Request nc tr subject j (js_wait js) = OK resp /\
    bare_answer json resp.
Proof.
  intros Hb Hcc. unfold bind_consumer.
  destruct (shouldCreate o).
  - destruct (Marshal_CreateConsumerRequest json _) as [j|]; [|discriminate].
    set (subject := apiSubj js _).
    unfold nc_Request, Unsubscribe. rewrite bind_call_eq.
    destruct (conn_Request nc tr subject j (js_wait js)) as [resp|] eqn:Hans;
      [|rewrite bind_call_eq; discriminate].
    destruct (Unmarshal_ConsumerResponse json (msg_Data resp)) as [info|]
      eqn:Hun; [|rewrite bind_call_eq; discriminate].
    destruct (api_Error (cr_ApiResponse info)) eqn:He;
      [rewrite bind_call_eq; discriminate|].
    destruct (cr_ConsumerInfo info) as [ci|] eqn:Hci.
    + rewrite bind_lift_some. unfold hold. rewrite Hb.
      rewrite bind_bind, bind_lift_some, !bind_ret_eq. discriminate.
    + intros [= <-]. exists subject, j, resp. repeat split; [exact Hans|].
      now exists info.
  - unfold hold. rewrite Hb. destruct (js_direct js).
    + rewrite bind_ret_eq, bind_bind, bind_lift_some, !bind_ret_eq.
      discriminate.
    + destruct (rs_ccfg rs) as [ccfg|]; [|now destruct Hcc].
      rewrite bind_bind, bind_lift_some, bind_ret_eq.
      rewrite bind_bind, bind_lift_some, !bind_ret_eq. discriminate.
Qed.

Lemma prefix_append (a b : string) : String.prefix a (a ++ b) = true.
Proof.
  induction a as [|c a IH]; simpl; [now destruct b|].
  destruct (Ascii.ascii_dec c c); [exact IH | contradiction].
Qed.

Lemma prefix_apiSubj (js : js) (subj : string) :
  String.prefix (js_pre js) (apiSubj js subj) = true.
Proof.
  rewrite apiSubj_prefix. destruct (decide (js_pre js = _EMPTY_)) as [->|_].
  - now destruct subj.
  - apply prefix_append.
Qed.

(** A run made of [m] and then [k], when what [m] returns is known to
    satisfy [Q]. *)
Lemma emits_bind_result {A B : Type} (P : Event -> Prop) (Q : A -> Prop)
    (m : M A) (k : A -> M B) :
  emits P m ->
  (forall (tr tr' : Trace) (a : A), m tr = (Some a, tr') -> Q a) ->
  (forall a : A, Q a -> emits P (k a)) ->
  emits P (bind m k).
Proof.
  intros Hm HQ Hk tr. unfold bind.
  destruct (Hm tr) as (evs & E & HP).
  destruct (m tr) as [[a|] tr1] eqn:Em; simpl in E; subst tr1.
  - destruct (Hk a (HQ _ _ _ Em) (tr ++ evs)%list) as (evs' & E' & HP').
    exists (evs ++ evs')%list. rewrite E', app_assoc.
    split; [reflexivity | now apply Forall_app].
  - now exists evs.
Qed.

Lemma Poll_within (js : js) (sub : Subscription) (b : jsSub) :
  sub_jsi sub = Some b -> jsi_js b = js ->
  emits (within_context js) (Poll nc json sub).
Proof.
  intros Hb Hjs. unfold Poll. rewrite Hb, Hjs. unfold nc_PublishRequest.
  repeat emits_step. apply prefix_apiSubj.
Qed.

Lemma first_pull_within (js : js) (o : subOpts) (sub : Subscription)
    (b : jsSub) :
  sub_jsi sub = Some b -> jsi_js b = js ->
  emits (within_context js) (first_pull nc json o sub).
Proof.
  intros Hb Hjs. unfold first_pull.
  destruct (0 <? so_pull o); [|apply emits_ret].
  set (held := with_jsi sub
                 (mk_jsSub (jsi_js b) (jsi_consumer b) (jsi_stream b)
                    (jsi_deliver b) (so_pull o))).
  intros tr. unfold hold_pull.
  rewrite bind_bind, Hb, bind_lift_some, bind_ret_eq. fold held.
  destruct (Poll_within js held _ eq_refl Hjs tr) as (evs & E & HP).
  exists evs. split; [|exact HP].
  unfold bind. destruct (Poll nc json held tr) as [[e|] tr']; exact E.
Qed.

Lemma bind_consumer_within (js : js) (o : subOpts) (rs : resolved)
    (sub : Subscription) :
  emits (within_context js) (bind_consumer nc json js o rs sub).
Proof.
  unfold bind_consumer, hold, Unsubscribe, nc_Request.
  repeat emits_step; try exact I.
  all: split; [apply prefix_apiSubj | reflexivity].
Qed.

Lemma resolve_within (js : js) (subj : string) (o : subOpts) (pull : bool) :
  emits (within_context js) (resolve nc json js subj o pull).
Proof.
  unfold resolve, getConsumerInfo, lookupStreamBySubject, NewInbox, nc_Request.
  repeat emits_step; try exact I.
  all: split; [apply prefix_apiSubj | reflexivity].
Qed.

Lemma establish_within (js : js) (queue : string) (cb : option MsgHandler)
    (ch : option Chan) (o : subOpts) (rs : resolved) :
  emits (within_context js) (establish nc json js queue cb ch o rs).
Proof.
  unfold establish.
  apply (emits_bind_result _
           (fun r => match r with
                     | OK sub => exists b : jsSub,
                         sub_jsi sub = Some b /\ jsi_js b = js
                     | Fail _ => True
                     end)).
  - unfold nc_subscribe. now apply emits_call.
  - intros tr tr' r. unfold nc_subscribe, call. intros [= <- _].
    destruct (conn_subscribe nc tr _ _); [exact I|]. now eexists.
  - intros [sub0|e] H0; [|apply emits_ret]. destruct H0 as (b0 & Hb0 & Hj0).
    apply (emits_bind_result _
             (fun r => match r with
                       | OK sub => exists b : jsSub,
                           sub_jsi sub = Some b /\ jsi_js b = js
                       | Fail _ => True
                       end)).
    + apply bind_consumer_within.
    + intros tr tr' [sub1|e] H; [|exact I].
      destruct (bind_consumer_OK nc json js o rs sub0 sub1 b0 tr tr' Hb0 H)
        as (b1 & -> & Hj1 & _).
      exists b1. split; [reflexivity | congruence].
    + intros [sub1|e] H1; [|apply emits_ret]. destruct H1 as (b1 & Hb1 & Hj1).
      now apply (first_pull_within js o sub1 b1).
Qed.

End BinderSafety.

(** X22.  Whatever the options, the peer and the outcome, [subscribe]
    stays within its context: every request and publish-request it makes
    is on a subject under the prefix of the context, every request waits
    for the wait of the context, and beyond these it only asks for an
    inbox, subscribes and unsubscribes; it never publishes a message
    outright. *)
Theorem subscribe_stays_within_its_context (nc : Conn) (json : JSON)
    (js : js) (subj queue : string) (cb : option MsgHandler)
    (ch : option Chan) (opts : list SubOpt) (tr : Trace) :
  exists evs : list Event,
    snd (subscribe nc json js subj queue cb ch opts tr) = (tr ++ evs)%list /\
    Forall (within_context js) evs.
Proof.
  revert tr. change (emits (within_context js)
                       (subscribe nc json js subj queue cb ch opts)).
  unfold subscribe.
  destruct (configureAll configureSubscribe opts subOpts0) as [o|];
    [|apply emits_ret].
  destruct (notNil cb && (0 <? so_pull o)); [apply emits_ret|].
  destruct (js_direct js && shouldCreate o); [apply emits_ret|].
  apply emits_bind; [apply resolve_within|].
  intros [rs|e]; [apply establish_within | apply emits_ret].
Qed.

(** X23.  [subscribe] panics only on a consumer answer that decodes with
    neither a server error nor a consumer info: when a call panics, its
    last transport call is a request, the consumer-info fetch or the
    create request, and the answer to that request is such a bare
    answer, whose missing info the call dereferences. *)
Theorem subscribe_panics_on_bare_answers_only (nc : Conn) (json : JSON)
    (js : js) (subj queue : string) (cb : option MsgHandler)
    (ch : option Chan) (opts : list SubOpt) (tr : Trace) :
  fst (subscribe nc json js subj queue cb ch opts tr) = None ->
  exists (pre : list Event) (subject data : string) (resp : Msg),
    snd (subscribe nc json js subj queue cb ch opts tr)
    = (tr ++ pre ++ [EvRequest subject data (js_wait js)])%list /\
    conn_Request nc (tr ++ pre)%list subject data (js_wait js) = OK resp /\
    bare_answer json resp.
Proof.
  unfold subscribe.
  destruct (configureAll configureSubscribe opts subOpts0) as [o|] eqn:Ho;
    [|discriminate].
  destruct (notNil cb && (0 <? so_pull o)); [discriminate|].
  destruct (js_direct js && shouldCreate o) eqn:Hdc; [discriminate|].
  unfold bind at 1 2.
  destruct (emits_resolve nc json js subj o (0 <? so_pull o) tr)
    as (evs & E & _).
  destruct (resolve nc json js subj o (0 <? so_pull o) tr) as [[[rs|e]|] tr1]
    eqn:Hres; simpl in E; subst tr1; [|discriminate|].
  2: { intros _.
       destruct (resolve_panic nc json js subj o _ tr _ Hres)
         as (subject & resp & Etr & Hans & Hbare).
       apply app_inv_head in Etr. subst evs.
       exists [], subject, _EMPTY_, resp. simpl. rewrite app_nil_r.
       now repeat split. }
  unfold establish. rewrite isNil_installed.
  unfold nc_subscribe. rewrite bind_call_eq.
  set (local := EvSubscribe (rs_deliver rs) queue (installed cb o) ch
                  (isNil cb)).
  destruct (conn_subscribe nc (tr ++ evs)%list (rs_deliver rs) queue);
    [discriminate|].
  set (sub0 := mk_Subscription _ _ _ _ _ _).
  unfold bind.
  destruct (bind_consumer nc json js o rs sub0 ((tr ++ evs) ++ [local])%list)
    as [[[sub1|e]|] tr2] eqn:Hbc; [|discriminate|].
  - destruct (bind_consumer_OK nc json js o rs sub0 sub1 _ _ _ eq_refl Hbc)
      as (b1 & -> & _).
    destruct (first_pull_returns nc json o (with_jsi sub0 b1) b1 tr2 eq_refl)
      as (r & tr3 & ->).
    discriminate.
  - intros _.
    assert (shouldCreate o = false -> js_direct js = false ->
            rs_ccfg rs <> None) as Hcc.
    { intros Hc Hd Hnone.
      assert (shouldAttach o = true) as Ha
        by (unfold shouldCreate in Hc; now apply negb_false_iff in Hc).
      destruct (resolve_attach_OK nc json js subj o _ rs tr _ Hd Ha Hres)
        as (_ & _ & ci & _ & _ & _ & _ & Hci).
      congruence. }
    destruct (bind_consumer_panic nc json js o rs sub0 _ _ tr2 eq_refl Hcc Hbc)
      as (subject & j & resp & -> & Hans & Hbare).
    exists (evs ++ [local])%list, subject, j, resp.
    rewrite <- app_assoc in Hans. simpl. rewrite <- !app_assoc.
    now repeat split.
Qed.

(** Attaching to a consumer about which the server answers with a type
    and nothing else. *)
Lemma subscribe_panics_on_bare_answers_only_witness :
  fst (subscribe
         (Sample.peer {[ "$JS.API.CONSUMER.INFO.S.C"
                         := SampleManager.bare_consumer_body ]})
         SampleManager.json_bare Sample.ctx "orders" _EMPTY_ None
         (Some 0%nat) [Attach "S" "C"] []) = None /\
  exists (pre : list Event) (subject data : string) (resp : Msg),
    snd (subscribe
           (Sample.peer {[ "$JS.API.CONSUMER.INFO.S.C"
                           := SampleManager.bare_consumer_body ]})
           SampleManager.json_bare Sample.ctx "orders" _EMPTY_ None
           (Some 0%nat) [Attach "S" "C"] [])
    = ([] ++ pre ++ [EvRequest subject data 5000000000])%list /\
    subject = "$JS.API.CONSUMER.INFO.S.C" /\
    bare_answer SampleManager.json_bare resp.
Proof.
  split; [reflexivity|].
  set (nc := Sample.peer _).
  destruct (subscribe_panics_on_bare_answers_only nc SampleManager.json_bare
              Sample.ctx "orders" _EMPTY_ None (Some 0%nat) [Attach "S" "C"]
              [] eq_refl)
    as (pre & subject & data & resp & Htr & _ & Hbare).
  exists pre, subject, data, resp. split; [exact Htr|]. split; [|exact Hbare].
  vm_compute in Htr. destruct pre as [|e1 pre]; simpl in Htr.
  - now inversion Htr.
  - inversion Htr as [[He Hpre]]. now destruct pre.
Defined.
